(** * YouTube channel exporter: the exporter's logic and its properties

    A shallow embedding of [youtube_exporter.py] and of the channel step of
    [run.py].  Python values coming from the API are JSON values ([pyval]);
    an exception is a value of [exn] carried by [result]; the remote
    service, the dashboard/console output and the file system are threaded
    explicitly through a [world].

    Conventions of the embedding.
    - A Python [str] is a [string]; one [ascii] stands for one character
      (code points below 256, where [\d] is exactly [0-9]).
    - A Python [int] is a [Z]; the interpreter's configurable limit on the
      number of digits [int()] accepts is not part of the language and is
      not modelled.  JSON numbers with a fraction do not occur in the
      fields the exporter reads and are left out of [pyval].
    - A Python [dict] with string keys is an association list in insertion
      order, looked up by first match.
    - The files are named texts, and a file can always be opened for
      writing; a property stated for a run that writes a file is about
      the runs in which the file opens. *)

From Stdlib Require Import ZArith List String Ascii Bool Lia Arith.
From Stdlib Require Import Decimal DecimalString DecimalN Relations.
From Stdlib Require DecimalPos DecimalFacts.
Import ListNotations.

Local Open Scope string_scope.
Local Open Scope Z_scope.

(** ** Exceptions and results *)

Inductive exn : Type :=
| HttpError (msg : string)
| KeyError
| TypeError
| AttributeError
| ValueError
| IndexError
| CsvError.

Inductive result (A : Type) : Type :=
| Ok (a : A)
| Raise (e : exn).

Arguments Ok {A} a.
Arguments Raise {A} e.

Definition rbind {A B} (r : result A) (k : A -> result B) : result B :=
  match r with
  | Ok a => k a
  | Raise e => Raise e
  end.

Declare Scope result_scope.
Delimit Scope result_scope with result.
Notation "'try!' x <- r ; k" := (rbind r (fun x => k))
  (at level 10, x name, r at level 100, k at level 200) : result_scope.
Local Open Scope result_scope.

(** ** Python values *)

Set Warnings "-register-all".

Inductive pyval : Type :=
| PNone
| PBool (b : bool)
| PInt (z : Z)
| PStr (s : string)
| PList (l : list pyval)
| PDict (d : list (string * pyval)).

Definition dict : Type := list (string * pyval).

(** [d.get(k)] as an option, [k in d], [d.get(k, default)]. *)
Fixpoint dict_get (d : dict) (k : string) : option pyval :=
  match d with
  | [] => None
  | (k', v) :: d' => if String.eqb k' k then Some v else dict_get d' k
  end.

Definition dict_has (d : dict) (k : string) : bool :=
  match dict_get d k with Some _ => true | None => false end.

Definition dict_get_default (d : dict) (k : string) (default : pyval) : pyval :=
  match dict_get d k with Some v => v | None => default end.

(** Truth value of an object, as [if x] and [not x] test it. *)
Definition truthy (v : pyval) : bool :=
  match v with
  | PNone => false
  | PBool b => b
  | PInt z => negb (z =? 0)
  | PStr s => negb (String.eqb s "")
  | PList l => match l with [] => false | _ => true end
  | PDict d => match d with [] => false | _ => true end
  end.

(** [v[k]] for a string key: only a dict can be subscripted by a string. *)
Definition py_getitem (v : pyval) (k : string) : result pyval :=
  match v with
  | PDict d => match dict_get d k with Some x => Ok x | None => Raise KeyError end
  | _ => Raise TypeError
  end.

(** [v[0]] where [v] is already known to be truthy.  A dict has string keys
    only, so the integer key is missing. *)
Definition py_getitem0 (v : pyval) : result pyval :=
  match v with
  | PList (x :: _) => Ok x
  | PStr (String c _) => Ok (PStr (String c ""))
  | PDict _ => Raise KeyError
  | PList [] | PStr "" => Raise IndexError
  | _ => Raise TypeError
  end.

(** [seq[:n]] on a Python sequence represented as a list: a negative bound
    counts from the end. *)
Definition slice_to {A} (n : Z) (l : list A) : list A :=
  if 0 <=? n then firstn (Z.to_nat n) l
  else firstn (Z.to_nat (Z.of_nat (List.length l) + n)) l.

Fixpoint str_take (n : nat) (s : string) : string :=
  match n, s with
  | S n', String c s' => String c (str_take n' s')
  | _, _ => ""
  end.

(** [v[:10]]: strings and lists can be sliced.  (Slicing a dict raises
    [TypeError] before Python 3.12 and [KeyError] from 3.12 on; the
    embedding takes the former.) *)
Definition py_slice10 (v : pyval) : result pyval :=
  match v with
  | PStr s => Ok (PStr (str_take 10 s))
  | PList l => Ok (PList (firstn 10 l))
  | _ => Raise TypeError
  end.

(** Iteration [for x in v]: a list gives its elements, a dict its keys, a
    string its characters; nothing else is iterable. *)
Fixpoint str_chars (s : string) : list pyval :=
  match s with
  | "" => []
  | String c s' => PStr (String c "") :: str_chars s'
  end.

Definition py_iter (v : pyval) : result (list pyval) :=
  match v with
  | PList l => Ok l
  | PDict d => Ok (map (fun kv => PStr (fst kv)) d)
  | PStr s => Ok (str_chars s)
  | _ => Raise TypeError
  end.

(** ** String operations *)

Definition is_digit (c : ascii) : bool :=
  let n := nat_of_ascii c in (48 <=? n)%nat && (n <=? 57)%nat.

(** [sub in s]. *)
Fixpoint str_contains (sub s : string) : bool :=
  String.prefix sub s ||
  match s with
  | "" => false
  | String _ s' => str_contains sub s'
  end.

(** [s.replace(old, new)] for a non-empty [old]: every non-overlapping
    occurrence, found left to right, is replaced.  [skip] counts the
    characters of a matched occurrence still to be dropped. *)
Fixpoint str_replace_from (old new : string) (skip : nat) (s : string) : string :=
  match s with
  | "" => ""
  | String c s' =>
      match skip with
      | S k => str_replace_from old new k s'
      | O =>
          if String.prefix old s
          then new ++ str_replace_from old new (String.length old - 1) s'
          else String c (str_replace_from old new 0 s')
      end
  end.

Definition str_replace (old new s : string) : string :=
  str_replace_from old new 0 s.

(** [sep.join(parts)]. *)
Definition str_join (sep : string) (parts : list string) : string :=
  String.concat sep parts.

(** [s.lstrip('@')]: every leading ['@'] is removed. *)
Fixpoint str_lstrip (c : ascii) (s : string) : string :=
  match s with
  | String c' s' => if Ascii.eqb c' c then str_lstrip c s' else s
  | "" => ""
  end.

(** The pattern [(\d+)X] matched at the start of [s]: the digit run is
    greedy, and gives characters back only if that lets [X] match.  The
    result is group 1. *)
Fixpoint match_digits_then (x : ascii) (s : string) : option string :=
  match s with
  | "" => None
  | String d s' =>
      if is_digit d then
        match match_digits_then x s' with
        | Some ds => Some (String d ds)
        | None =>
            match s' with
            | String c _ => if Ascii.eqb c x then Some (String d "") else None
            | "" => None
            end
        end
      else None
  end.

(** [re.search(r'(\d+)X', s)]: the leftmost position where the pattern
    matches; [None] when there is none. *)
Fixpoint re_search_digits_then (x : ascii) (s : string) : option string :=
  match match_digits_then x s with
  | Some g => Some g
  | None =>
      match s with
      | "" => None
      | String _ s' => re_search_digits_then x s'
      end
  end.

(** [int(s)] for a string of decimal digits, the only kind [group(1)] of
    the patterns above can hold. *)
Definition py_int (s : string) : result Z :=
  match NilZero.uint_of_string s with
  | Some d => Ok (Z.of_N (N.of_uint d))
  | None => Raise ValueError
  end.

(** The decimal text of a number, [str(n)]. *)
Definition decimal (n : N) : string := NilEmpty.string_of_uint (N.to_uint n).

Definition py_str_int (z : Z) : string := NilZero.string_of_int (Z.to_int z).

(** ** [_parse_duration] *)

(** [re.search(...).group(1)]: [search] gives [None] when nothing matches,
    and [None.group] raises [AttributeError]. *)
Definition search_group1 (x : ascii) (s : string) : result string :=
  match re_search_digits_then x s with
  | Some g => Ok g
  | None => Raise AttributeError
  end.

Definition parse_component (marker : ascii) (unit_seconds : Z)
    (duration : string) (total_seconds : Z) : result Z :=
  if str_contains (String marker "") duration then
    try! g <- search_group1 marker duration;
    try! n <- py_int g;
    Ok (total_seconds + n * unit_seconds)
  else Ok total_seconds.

Definition _parse_duration (duration : string) : result Z :=
  let duration := str_replace "PT" "" duration in
  let total_seconds := 0 in
  try! total_seconds <- parse_component "H" 3600 duration total_seconds;
  try! total_seconds <- parse_component "M" 60 duration total_seconds;
  try! total_seconds <- parse_component "S" 1 duration total_seconds;
  Ok total_seconds.


(** ** Formatting *)

Definition LF : ascii := "010"%char.
Definition CR : ascii := "013"%char.
Definition DQUOTE : ascii := "034"%char.
Definition COMMA : ascii := ","%char.

Section Exporter.

(** [repr] of a list or of a dict, as [str()] and f-strings print them.  The
    exporter never inspects that text, and no property below depends on
    its form, so it is left open. *)
Variable repr_container : pyval -> string.

(** [str(v)], which is also what an f-string field [{v}] inserts. *)
Definition py_str (v : pyval) : string :=
  match v with
  | PNone => "None"
  | PBool true => "True"
  | PBool false => "False"
  | PInt z => py_str_int z
  | PStr s => s
  | PList _ | PDict _ => repr_container v
  end.

(** ** [_process_video_data] *)

(** [v.get(k, default)]: only a dict has the method. *)
Definition py_get (v : pyval) (k : string) (default : pyval) : result pyval :=
  match v with
  | PDict d => Ok (dict_get_default d k default)
  | _ => Raise AttributeError
  end.

(** [v.replace(old, new)]: only a str has the method. *)
Definition py_replace (v : pyval) (old new : string) : result string :=
  match v with
  | PStr s => Ok (str_replace old new s)
  | _ => Raise AttributeError
  end.

Fixpoint all_str (l : list pyval) : result (list string) :=
  match l with
  | [] => Ok []
  | PStr s :: l' => try! ss <- all_str l'; Ok (s :: ss)
  | _ :: _ => Raise TypeError
  end.

(** [sep.join(v)]: [v] is iterated and every element has to be a str. *)
Definition py_join (sep : string) (v : pyval) : result string :=
  try! items <- py_iter v;
  try! parts <- all_str items;
  Ok (str_join sep parts).

(** [self._parse_duration(d)]: the first thing done with [d] is
    [d.replace]. *)
Definition parse_duration_of (d : pyval) : result Z :=
  match d with
  | PStr s => _parse_duration s
  | _ => Raise AttributeError
  end.

Definition watch_url_prefix : string := "https://www.youtube.com/watch?v=".

Definition _process_video_data (video : pyval) : result dict :=
  try! snippet <- py_getitem video "snippet";
  try! statistics <- py_getitem video "statistics";
  try! content_details <- py_getitem video "contentDetails";
  try! raw_duration <- py_getitem content_details "duration";
  try! duration <- parse_duration_of raw_duration;
  try! published_at <- py_getitem snippet "publishedAt";
  try! publish_date <- py_slice10 published_at;
  try! tags_value <- py_get snippet "tags" PNone;
  try! tags <-
    (if truthy tags_value
     then try! t <- py_get snippet "tags" (PList []); py_join "," t
     else Ok "");
  try! raw_description <- py_get snippet "description" (PStr "");
  try! description <- py_replace raw_description (String LF "") " ";
  let transcript := description in
  try! title <- py_getitem snippet "title";
  try! video_id <- py_getitem video "id";
  try! url_id <- py_getitem video "id";
  try! view_count <- py_get statistics "viewCount" (PStr "0");
  try! like_count <- py_get statistics "likeCount" (PStr "0");
  try! comment_count <- py_get statistics "commentCount" (PStr "0");
  Ok [ ("title", title);
       ("video_id", video_id);
       ("url", PStr (watch_url_prefix ++ py_str url_id));
       ("view_count", view_count);
       ("like_count", like_count);
       ("comment_count", comment_count);
       ("publish_date", publish_date);
       ("duration_seconds", PInt duration);
       ("description", PStr description);
       ("tags", PStr tags);
       ("transcript", PStr transcript);
       ("content", PStr description) ].

(** ** The world the exporter runs in *)

(** The requests the exporter sends; the constant arguments of each call
    are in the comment. *)
Inductive request : Type :=
| ChannelsByUsername (forUsername : string)
    (* channels().list(part='id', forUsername=...) *)
| SearchChannel (q : string)
    (* search().list(part='snippet', q=..., type='channel', maxResults=1) *)
| SearchVideos (channelId : pyval) (maxResults : Z) (pageToken : pyval)
    (* search().list(part='id', channelId=..., type='video', order='date',
                     maxResults=..., pageToken=...) *)
| VideosList (id : string).
    (* videos().list(part='snippet,statistics,contentDetails', id=...) *)

Inductive message : Type :=
| ErrorFindingChannel (e : exn)
| NoVideosFound (channel_id : pyval)
| ErrorGettingChannelVideos (e : exn)
| NoVideoDetailsFound (batch_ids : list string)
| ErrorGettingVideoDetails (e : exn)
| PleaseEnterChannel
| FindingChannel
| UsingProvidedChannelId (channel_id : string)
| SearchingForChannel (channel_input : string)
| ChannelNotFound
| TryFullChannelId
| FoundChannelId (channel_id : pyval).

(** What the program does that can be observed from outside. *)
Inductive event : Type :=
| Execute (r : request)
| StError (m : message)
| StWarning (m : message)
| StInfo (m : message)
| StSuccess (m : message)
| StStatus (m : message)
| StProgress (percent : Z)
| Print (m : message).

(** [W] is the state of the remote service. *)
Variable W : Type.

Record world : Type := mkWorld {
  remote : W;
  trace : list event;
  files : list (string * string);
  clock : string   (* datetime.now().strftime("%Y%m%d_%H%M%S") *)
}.

Definition M (A : Type) : Type := world -> result A * world.

Definition ret {A} (a : A) : M A := fun w => (Ok a, w).

Definition raise {A} (e : exn) : M A := fun w => (Raise e, w).

Definition bind {A B} (m : M A) (k : A -> M B) : M B :=
  fun w =>
    match m w with
    | (Ok a, w') => k a w'
    | (Raise e, w') => (Raise e, w')
    end.

Definition lift {A} (r : result A) : M A := fun w => (r, w).

Definition emit (e : event) : M unit :=
  fun w => (Ok tt, mkWorld (remote w) (trace w ++ [e]) (files w) (clock w)).

(** [try: body  except HttpError as e: handler e]. *)
Definition except_HttpError {A} (body : M A) (handler : exn -> M A) : M A :=
  fun w =>
    match body w with
    | (Raise (HttpError msg), w') => handler (HttpError msg) w'
    | other => other
    end.

Notation "x <- m ;; k" := (bind m (fun x => k))
  (at level 61, m at next level, right associativity).
Notation "m ;;; k" := (bind m (fun _ => k))
  (at level 61, right associativity).

(** The exporter object: its key and the API client built from it. *)
Record YouTubeExporter : Type := mkExporter {
  api_key : string;
  youtube : request -> W -> result dict * W
}.

(** [request.execute()]: the call is observable, and the service answers
    with a response object or an exception. *)
Definition execute (self : YouTubeExporter) (r : request) : M dict :=
  fun w =>
    let '(answer, remote') := youtube self r (remote w) in
    (answer, mkWorld remote' (trace w ++ [Execute r]) (files w) (clock w)).

(** ['items' in response and response['items']]. *)
Definition has_items (response : dict) : bool :=
  dict_has response "items" && truthy (dict_get_default response "items" PNone).

(** ** [get_channel_id_from_username] *)

Definition get_channel_id_from_username (self : YouTubeExporter)
    (username : string) : M pyval :=
  returned <-
    except_HttpError
      (let username := str_lstrip "@" username in
       search_response <- execute self (ChannelsByUsername username) ;;
       if has_items search_response then
         v <- lift (try! items <- py_getitem (PDict search_response) "items";
                    try! first <- py_getitem0 items;
                    py_getitem first "id") ;;
         ret (Some v)
       else
         search_response <- execute self (SearchChannel username) ;;
         if has_items search_response then
           v <- lift (try! items <- py_getitem (PDict search_response) "items";
                      try! first <- py_getitem0 items;
                      try! snippet <- py_getitem first "snippet";
                      py_getitem snippet "channelId") ;;
           ret (Some v)
         else ret None)
      (fun e => emit (StError (ErrorFindingChannel e)) ;;; ret None) ;;
  match returned with
  | Some v => ret v
  | None => ret PNone
  end.

(** ** [get_channel_videos] *)

(** [for item in items: video_ids.append(item['id']['videoId'])].  The
    list is extended in place, so what was appended before an exception
    stays appended: the result is the extended list together with the
    exception that interrupted the loop, if any. *)
Fixpoint append_video_ids (video_ids : list pyval) (items : list pyval)
    : list pyval * option exn :=
  match items with
  | [] => (video_ids, None)
  | item :: items' =>
      match (try! id <- py_getitem item "id"; py_getitem id "videoId") with
      | Ok v => append_video_ids (video_ids ++ [v]) items'
      | Raise e => (video_ids, Some e)
      end
  end.

(** How a run of the [while] loop ends: normally (condition false or
    [break]) or with an exception on its way to the handler. *)
Definition loop_end : Type := (list pyval * option exn * world)%type.

(** The [while] loop of [get_channel_videos], from a state of its
    variables.  [fuel] bounds the number of iterations; [None] means the
    bound was reached before the loop ended. *)
Fixpoint collect_pages (self : YouTubeExporter) (channel_id : pyval)
    (max_results : Z) (fuel : nat) (video_ids : list pyval)
    (next_page_token : pyval) (w : world) : option loop_end :=
  if Z.of_nat (List.length video_ids) <? max_results then
    match fuel with
    | O => None
    | S fuel' =>
        let remaining := max_results - Z.of_nat (List.length video_ids) in
        let request_max := Z.min 50 remaining in
        match execute self (SearchVideos channel_id request_max next_page_token) w with
        | (Raise e, w1) => Some (video_ids, Some e, w1)
        | (Ok search_response, w1) =>
            if has_items search_response then
              match (try! items <- py_getitem (PDict search_response) "items";
                     py_iter items) with
              | Raise e => Some (video_ids, Some e, w1)
              | Ok items =>
                  match append_video_ids video_ids items with
                  | (video_ids, Some e) => Some (video_ids, Some e, w1)
                  | (video_ids, None) =>
                      let next_page_token :=
                        dict_get_default search_response "nextPageToken" PNone in
                      if negb (truthy next_page_token)
                      then Some (video_ids, None, w1)
                      else collect_pages self channel_id max_results fuel'
                             video_ids next_page_token w1
                  end
              end
            else
              match emit (StWarning (NoVideosFound channel_id)) w1 with
              | (_, w2) => Some (video_ids, None, w2)
              end
        end
    end
  else Some (video_ids, None, w).

(** [get_channel_videos(channel_id, max_results)], with the bound on the
    loop as an extra argument. *)
Definition get_channel_videos (self : YouTubeExporter) (fuel : nat)
    (channel_id : pyval) (max_results : Z) (w : world)
    : option (result (list pyval) * world) :=
  let video_ids := [] in
  let next_page_token := PNone in
  match collect_pages self channel_id max_results fuel video_ids next_page_token w with
  | None => None
  | Some (video_ids, None, w') => Some (Ok (slice_to max_results video_ids), w')
  | Some (video_ids, Some (HttpError msg), w') =>
      match emit (StError (ErrorGettingChannelVideos (HttpError msg))) w' with
      | (_, w'') => Some (Ok (slice_to max_results video_ids), w'')
      end
  | Some (_, Some e, w') => Some (Raise e, w')
  end.

(** ** [get_video_details] *)

(** [range(0, stop, step)] for a positive [step]. *)
Definition range_step (stop step : nat) : list nat :=
  map (fun k => (k * step)%nat) (seq 0 ((stop + step - 1) / step)).

(** [l[i:j]] for [0 <= i <= j]. *)
Definition slice {A} (i j : nat) (l : list A) : list A :=
  firstn (j - i) (skipn i l).

(** [for video in items: videos_data.append(self._process_video_data(video))],
    with the same in-place extension as above. *)
Fixpoint append_video_data (videos_data : list dict) (items : list pyval)
    : list dict * option exn :=
  match items with
  | [] => (videos_data, None)
  | video :: items' =>
      match _process_video_data video with
      | Ok video_data => append_video_data (videos_data ++ [video_data]) items'
      | Raise e => (videos_data, Some e)
      end
  end.

(** The body of the [for] loop over the batches, for the batch starting
    at index [i]. *)
Definition details_batch (self : YouTubeExporter) (video_ids : list string)
    (videos_data : list dict) (i : nat) : M (list dict) :=
  let batch_ids := slice i (i + 50) video_ids in
  fun w =>
    match execute self (VideosList (str_join "," batch_ids)) w with
    | (Raise (HttpError msg), w1) =>
        (emit (StError (ErrorGettingVideoDetails (HttpError msg))) ;;;
         ret videos_data) w1
    | (Raise e, w1) => (Raise e, w1)
    | (Ok videos_response, w1) =>
        if has_items videos_response then
          match (try! items <- py_getitem (PDict videos_response) "items";
                 py_iter items) with
          | Raise (HttpError msg) =>
              (emit (StError (ErrorGettingVideoDetails (HttpError msg))) ;;;
               ret videos_data) w1
          | Raise e => (Raise e, w1)
          | Ok items =>
              match append_video_data videos_data items with
              | (videos_data, None) => (Ok videos_data, w1)
              | (videos_data, Some (HttpError msg)) =>
                  (emit (StError (ErrorGettingVideoDetails (HttpError msg))) ;;;
                   ret videos_data) w1
              | (_, Some e) => (Raise e, w1)
              end
          end
        else
          (emit (StWarning (NoVideoDetailsFound batch_ids)) ;;;
           ret videos_data) w1
    end.

Fixpoint for_batches (self : YouTubeExporter) (video_ids : list string)
    (starts : list nat) (videos_data : list dict) : M (list dict) :=
  match starts with
  | [] => ret videos_data
  | i :: starts' =>
      videos_data <- details_batch self video_ids videos_data i ;;
      for_batches self video_ids starts' videos_data
  end.

Definition get_video_details (self : YouTubeExporter) (video_ids : list string)
    : M (list dict) :=
  let videos_data := [] in
  for_batches self video_ids (range_step (List.length video_ids) 50) videos_data.

(** ** Finding the channel, in the two entry points *)

(** Where a step of an entry point leaves the run: going on with a value,
    or finished ([return] in the dashboard, [sys.exit(1)] on the command
    line). *)
Inductive step (A : Type) : Type :=
| Proceed (a : A)
| Finished.

Arguments Proceed {A} a.
Arguments Finished {A}.

Definition is_channel_id (channel : string) : bool :=
  String.prefix "UC" channel && (String.length channel =? 24)%nat.

(** [run.py], [main]: from [print("Finding channel...")] to the check of
    the channel id.  An exception is left to the enclosing
    [except Exception]. *)
Definition run_find_channel (exporter : YouTubeExporter) (channel : string)
    : M (step pyval) :=
  emit (Print FindingChannel) ;;;
  channel_id <-
    (if is_channel_id channel
     then ret (PStr channel)
     else get_channel_id_from_username exporter channel) ;;
  if negb (truthy channel_id) then
    emit (Print ChannelNotFound) ;;; ret Finished
  else ret (Proceed channel_id).

(** [youtube_exporter.py], [main]: the handler of the export button, from
    its first line to the message that the channel was found. *)
Definition dashboard_find_channel (exporter : YouTubeExporter)
    (channel_input : string) : M (step pyval) :=
  if negb (truthy (PStr channel_input)) then
    emit (StError PleaseEnterChannel) ;;; ret Finished
  else
    emit (StProgress 0) ;;;
    emit (StStatus FindingChannel) ;;;
    emit (StProgress 10) ;;;
    channel_id <-
      (if is_channel_id channel_input
       then
         let channel_id := PStr channel_input in
         emit (StInfo (UsingProvidedChannelId channel_input)) ;;;
         ret channel_id
       else
         emit (StInfo (SearchingForChannel channel_input)) ;;;
         get_channel_id_from_username exporter channel_input) ;;
    if negb (truthy channel_id) then
      emit (StError ChannelNotFound) ;;;
      emit (StInfo TryFullChannelId) ;;;
      ret Finished
    else
      emit (StSuccess (FoundChannelId channel_id)) ;;;
      ret (Proceed channel_id).

(** ** [export_to_csv] *)

Definition fieldnames : list string :=
  [ "title"; "video_id"; "url"; "view_count"; "like_count";
    "comment_count"; "publish_date"; "duration_seconds";
    "description"; "tags"; "transcript"; "content" ].

(** What [csv.writer] writes for a value: nothing for [None], a str as it
    is, [str(v)] for the rest. *)
Definition csv_cell (v : pyval) : string :=
  match v with
  | PNone => ""
  | PStr s => s
  | _ => py_str v
  end.

(** Default dialect: the delimiter is the comma, the quote character the
    double quote, the line terminator [\r\n]; quoting is minimal and a
    quote inside a field is doubled. *)
Definition is_special (c : ascii) : bool :=
  Ascii.eqb c COMMA || Ascii.eqb c DQUOTE || Ascii.eqb c CR || Ascii.eqb c LF.

Fixpoint needs_quote (s : string) : bool :=
  match s with
  | "" => false
  | String c s' => is_special c || needs_quote s'
  end.

Fixpoint double_quotes (s : string) : string :=
  match s with
  | "" => ""
  | String c s' =>
      if Ascii.eqb c DQUOTE
      then String DQUOTE (String DQUOTE (double_quotes s'))
      else String c (double_quotes s')
  end.

Definition csv_field (s : string) : string :=
  if needs_quote s
  then String DQUOTE (double_quotes s ++ String DQUOTE "")
  else s.

Definition CRLF : string := String CR (String LF "").

(** [writer.writerow(cells)]; a row made of one empty field is written
    as a pair of quotes. *)
Definition csv_writerow (cells : list string) : string :=
  match cells with
  | [ "" ] => String DQUOTE (String DQUOTE CRLF)
  | _ => str_join "," (map csv_field cells) ++ CRLF
  end.

(** [DictWriter._dict_to_list] with [extrasaction='raise'] and
    [restval='']. *)
Definition dict_to_list (rowdict : dict) : result (list pyval) :=
  let wrong_fields :=
    filter (fun k => negb (existsb (String.eqb k) fieldnames))
           (map fst rowdict) in
  match wrong_fields with
  | [] => Ok (map (fun k => dict_get_default rowdict k (PStr "")) fieldnames)
  | _ :: _ => Raise ValueError
  end.

(** [writer.writerows(videos_data)]: the rows are converted and written
    one after the other, so the rows before a rejected one are written. *)
Fixpoint writerows (videos_data : list dict) (written : string)
    : string * option exn :=
  match videos_data with
  | [] => (written, None)
  | rowdict :: rest =>
      match dict_to_list rowdict with
      | Ok cells => writerows rest (written ++ csv_writerow (map csv_cell cells))
      | Raise e => (written, Some e)
      end
  end.

(** [open(filename, 'w')] and the writes that follow, for a name that
    can be opened for writing: the file then holds [content], whatever
    it held before.  A name that cannot be opened (a missing directory,
    a directory, no permission) is outside the model. *)
Definition write_file (filename content : string) : M unit :=
  fun w =>
    (Ok tt, mkWorld (remote w) (trace w) ((filename, content) :: files w) (clock w)).

Fixpoint read_file (fs : list (string * string)) (filename : string)
    : option string :=
  match fs with
  | [] => None
  | (name, content) :: fs' =>
      if String.eqb name filename then Some content else read_file fs' filename
  end.

(** [export_to_csv(videos_data, filename)]; [filename] is [None] when the
    argument is left out.  The file is created or truncated, and closed by
    the [with] block also when a row is rejected. *)
Definition export_to_csv (videos_data : list dict) (filename : option string)
    : M string :=
  fun w =>
    let filename :=
      match filename with
      | Some f =>
          if negb (truthy (PStr f))
          then "youtube_export_" ++ clock w ++ ".csv"
          else f
      | None => "youtube_export_" ++ clock w ++ ".csv"
      end in
    let header := csv_writerow (map csv_cell (map PStr fieldnames)) in
    match writerows videos_data header with
    | (written, None) => (write_file filename written ;;; ret filename) w
    | (written, Some e) => (write_file filename written ;;; raise e) w
    end.

End Exporter.

Arguments mkWorld {W}.
Arguments remote {W}.
Arguments trace {W}.
Arguments files {W}.
Arguments clock {W}.
Arguments api_key {W}.
Arguments youtube {W}.
Arguments mkExporter {W}.
Arguments Proceed {A} a.
Arguments Finished {A}.

(** ** Reading a CSV file back

    The exporter only writes.  [csv_reader] is Python's [csv.reader] with
    the default dialect, run over the text of a file opened with
    [newline=''] as the [csv] module asks: the state machine of the
    module, fed the characters of each line and an end-of-line mark after
    each line.  The limit on the size of a field, a setting of the module
    ([csv.field_size_limit], 131072 characters unless changed), is not
    modelled. *)

Inductive reader_state : Type :=
| START_RECORD
| START_FIELD
| IN_FIELD
| IN_QUOTED_FIELD
| QUOTE_IN_QUOTED_FIELD
| EAT_CRNL.

Record reader : Type := mkReader {
  state : reader_state;
  field : string;
  fields : list string
}.

Definition parse_reset : reader := mkReader START_RECORD "" [].

Definition set_state (st : reader_state) (r : reader) : reader :=
  mkReader st (field r) (fields r).

Definition parse_add_char (r : reader) (c : ascii) : reader :=
  mkReader (state r) (field r ++ String c "") (fields r).

Definition parse_save_field (r : reader) : reader :=
  mkReader (state r) "" (fields r ++ [field r]).

Definition is_newline (c : ascii) : bool := Ascii.eqb c LF || Ascii.eqb c CR.

Definition start_field (r : reader) (c : ascii) : result reader :=
  if is_newline c then Ok (set_state EAT_CRNL (parse_save_field r))
  else if Ascii.eqb c DQUOTE then Ok (set_state IN_QUOTED_FIELD r)
  else if Ascii.eqb c COMMA then Ok (parse_save_field r)
  else Ok (set_state IN_FIELD (parse_add_char r c)).

Definition parse_process_char (r : reader) (c : ascii) : result reader :=
  match state r with
  | START_RECORD =>
      if is_newline c then Ok (set_state EAT_CRNL r)
      else start_field (set_state START_FIELD r) c
  | START_FIELD => start_field r c
  | IN_FIELD =>
      if is_newline c then Ok (set_state EAT_CRNL (parse_save_field r))
      else if Ascii.eqb c COMMA then Ok (set_state START_FIELD (parse_save_field r))
      else Ok (parse_add_char r c)
  | IN_QUOTED_FIELD =>
      if Ascii.eqb c DQUOTE then Ok (set_state QUOTE_IN_QUOTED_FIELD r)
      else Ok (parse_add_char r c)
  | QUOTE_IN_QUOTED_FIELD =>
      if Ascii.eqb c DQUOTE
      then Ok (set_state IN_QUOTED_FIELD (parse_add_char r c))
      else if Ascii.eqb c COMMA then Ok (set_state START_FIELD (parse_save_field r))
      else if is_newline c then Ok (set_state EAT_CRNL (parse_save_field r))
      else Ok (set_state IN_FIELD (parse_add_char r c))
  | EAT_CRNL =>
      if is_newline c then Ok r else Raise CsvError
  end.

(** The end-of-line mark. *)
Definition parse_process_eol (r : reader) : reader :=
  match state r with
  | START_RECORD => r
  | START_FIELD | IN_FIELD | QUOTE_IN_QUOTED_FIELD =>
      set_state START_RECORD (parse_save_field r)
  | IN_QUOTED_FIELD => r
  | EAT_CRNL => set_state START_RECORD r
  end.

(** A line of the file ends after [\n], after [\r] unless [\n] follows,
    and at the end of the text. *)
Definition ends_line (c : ascii) (rest : string) : bool :=
  match rest with
  | "" => true
  | String c' _ => Ascii.eqb c LF || (Ascii.eqb c CR && negb (Ascii.eqb c' LF))
  end.

Definition at_start_record (r : reader) : bool :=
  match state r with START_RECORD => true | _ => false end.

Definition in_quoted_field (r : reader) : bool :=
  match state r with IN_QUOTED_FIELD => true | _ => false end.

(** The rows of [text], read from the state [r].  A row is complete when
    the end of a line leaves the machine at the start of a record; when no
    line is left, a field that was being read ends the last row. *)
Fixpoint read_rows (r : reader) (text : string) : result (list (list string)) :=
  match text with
  | "" =>
      if negb (String.length (field r) =? 0)%nat || in_quoted_field r
      then Ok [ fields (parse_save_field r) ]
      else Ok []
  | String c rest =>
      try! r <- parse_process_char r c;
      if ends_line c rest then
        let r := parse_process_eol r in
        if at_start_record r
        then try! rows <- read_rows parse_reset rest; Ok (fields r :: rows)
        else read_rows r rest
      else read_rows r rest
  end.

(** [list(csv.reader(f))]. *)
Definition csv_reader (text : string) : result (list (list string)) :=
  read_rows parse_reset text.

(** * Vocabulary of the properties *)

Fixpoint str_forall (p : ascii -> bool) (s : string) : bool :=
  match s with
  | "" => true
  | String c s' => p c && str_forall p s'
  end.

(** A bare non-negative integer: a non-empty string of decimal digits. *)
Definition bare_integer (ds : string) : Prop :=
  str_forall is_digit ds = true /\ ds <> "".

(** The number a string of digits stands for, most significant digit
    first. *)
Definition digit_value (c : ascii) : Z := Z.of_nat (nat_of_ascii c) - 48.

Fixpoint digits_value_from (acc : Z) (ds : string) : Z :=
  match ds with
  | "" => acc
  | String c ds' => digits_value_from (acc * 10 + digit_value c) ds'
  end.

Definition digits_value (ds : string) : Z := digits_value_from 0 ds.

(** One component of a token: the digits and the marker, or nothing. *)
Definition component (o : option string) (marker : ascii) (rest : string)
    : string :=
  match o with
  | Some ds => ds ++ String marker rest
  | None => rest
  end.

(** The token [PT[nH][nM][nS]]. *)
Definition duration_token (hours minutes seconds : option string) : string :=
  "PT" ++ component hours "H" (component minutes "M" (component seconds "S" "")).

(** A component that is present is a bare integer. *)
Definition bare_component (o : option string) : Prop :=
  match o with
  | Some ds => bare_integer ds
  | None => True
  end.

(** What a component counts for: its number, 0 when it is absent. *)
Definition amount (o : option string) : Z :=
  match o with
  | Some ds => digits_value ds
  | None => 0
  end.

(** Every character of [s] through [f]. *)
Fixpoint str_map (f : ascii -> ascii) (s : string) : string :=
  match s with
  | "" => ""
  | String c s' => String (f c) (str_map f s')
  end.

Definition newline_to_space (c : ascii) : ascii :=
  if Ascii.eqb c LF then " "%char else c.

(** An optional field of a payload that, when present, is a str. *)
Definition optional_str (o : option pyval) : Prop :=
  o = None \/ exists s, o = Some (PStr s).

(** An optional field that, when present, is a list of str. *)
Definition optional_str_list (o : option pyval) : Prop :=
  o = None \/ exists l, o = Some (PList (map PStr l)).

(** A details payload as the API returns one, and the same payload with
    its title left out. *)
Definition sample_snippet : dict :=
  [ ("publishedAt", PStr "2009-10-25T06:57:33Z");
    ("title", PStr "Sample video");
    ("description", PStr ("first line" ++ String LF "second line"));
    ("tags", PList [PStr "music"; PStr "live"]) ].

Definition sample_video : dict :=
  [ ("id", PStr "dQw4w9WgXcQ");
    ("snippet", PDict sample_snippet);
    ("statistics", PDict [("viewCount", PStr "1200"); ("commentCount", PStr "7")]);
    ("contentDetails", PDict [("duration", PStr "PT3M33S")]) ].

Definition sample_record : dict :=
  [ ("title", PStr "Sample video");
    ("video_id", PStr "dQw4w9WgXcQ");
    ("url", PStr "https://www.youtube.com/watch?v=dQw4w9WgXcQ");
    ("view_count", PStr "1200");
    ("like_count", PStr "0");
    ("comment_count", PStr "7");
    ("publish_date", PStr "2009-10-25");
    ("duration_seconds", PInt 213);
    ("description", PStr "first line second line");
    ("tags", PStr "music,live");
    ("transcript", PStr "first line second line");
    ("content", PStr "first line second line") ].

Definition snippet_without_title : dict :=
  [ ("publishedAt", PStr "2009-10-25T06:57:33Z");
    ("description", PStr "no title here") ].

Definition video_without_title : dict :=
  [ ("id", PStr "dQw4w9WgXcQ");
    ("snippet", PDict snippet_without_title);
    ("statistics", PDict [("viewCount", PStr "1200")]);
    ("contentDetails", PDict [("duration", PStr "PT3M33S")]) ].

(** ** A service that pages through the videos of a channel

    [item['id']['videoId']], the only thing the collector reads in an item
    of a search response. *)
Definition video_id_of_item (item : pyval) : result pyval :=
  try! id <- py_getitem item "id"; py_getitem id "videoId".

(** The [items] of [response] are search results for exactly the videos
    [ids], in order. *)
Definition lists_videos (response : dict) (ids : list string) : Prop :=
  exists items,
    dict_get response "items" = Some (PList items) /\
    Forall2 (fun item id => video_id_of_item item = Ok (PStr id)) items ids.

(** The service behind [self] answers every search for the videos of
    [channel_id] without error, from the public videos [videos] of the
    channel, newest first.  [position] reads a page token as the number of
    videos already served.  A page holds the next videos, no more than
    asked for and at least one while there are some left; the response has
    a token for the following page exactly when videos remain after it. *)
Definition serves_channel {W : Type} (self : YouTubeExporter W)
    (channel_id : pyval) (videos : list string)
    (position : pyval -> option nat) : Prop :=
  position PNone = Some 0%nat /\
  forall (max_results : Z) (token : pyval) (k : nat) (rs : W),
    position token = Some k ->
    1 <= max_results ->
    exists response rs' p,
      youtube self (SearchVideos channel_id max_results token) rs
        = (Ok response, rs') /\
      Z.of_nat p <= max_results /\
      ((k < List.length videos)%nat -> (1 <= p)%nat) /\
      lists_videos response (firstn p (skipn k videos)) /\
      (if (k + p <? List.length videos)%nat
       then exists t,
              dict_get response "nextPageToken" = Some t /\
              truthy t = true /\
              position t = Some (k + p)%nat
       else truthy (dict_get_default response "nextPageToken" PNone) = false).

(** One full turn of the [while] loop of [get_channel_videos]: the
    request is answered, the items are appended, and the response carries
    a token for the next page. *)
Inductive page_step {W : Type} (self : YouTubeExporter W) (channel_id : pyval)
    (max_results : Z)
    : list pyval * pyval * world W -> list pyval * pyval * world W -> Prop :=
| page_collected (video_ids : list pyval) (token : pyval) (w w1 : world W)
    (response : dict) (items video_ids' : list pyval) :
    Z.of_nat (List.length video_ids) < max_results ->
    execute W self
      (SearchVideos channel_id
         (Z.min 50 (max_results - Z.of_nat (List.length video_ids))) token) w
      = (Ok response, w1) ->
    has_items response = true ->
    (try! items <- py_getitem (PDict response) "items"; py_iter items)
      = Ok items ->
    append_video_ids video_ids items = (video_ids', None) ->
    truthy (dict_get_default response "nextPageToken" PNone) = true ->
    page_step self channel_id max_results
      (video_ids, token, w)
      (video_ids', dict_get_default response "nextPageToken" PNone, w1).

(** Any number of such turns. *)
Definition page_steps {W : Type} (self : YouTubeExporter W)
    (channel_id : pyval) (max_results : Z) :=
  clos_refl_trans_1n _ (page_step self channel_id max_results).

(** A search result for the video [id]. *)
Definition search_item (id : string) : pyval :=
  PDict [ ("kind", PStr "youtube#searchResult");
          ("id", PDict [("kind", PStr "youtube#video"); ("videoId", PStr id)]) ].

(** A page token that is simply the number of videos already served. *)
Definition token_position (token : pyval) : option nat :=
  match token with
  | PNone => Some 0%nat
  | PInt z => if 0 <? z then Some (Z.to_nat z) else None
  | _ => None
  end.

Definition search_page (page_size : nat) (videos : list string)
    (max_results : Z) (token : pyval) : dict :=
  let k := match token_position token with Some k => k | None => 0%nat end in
  let p := Nat.min (Nat.min (Z.to_nat max_results) page_size)
                   (List.length videos - k) in
  ("items", PList (map search_item (firstn p (skipn k videos))))
  :: (if (k + p <? List.length videos)%nat
      then [("nextPageToken", PInt (Z.of_nat (k + p)))]
      else []).

(** A service without state that pages through [videos], at most
    [page_size] to a page, and answers nothing else. *)
Definition paging_service (page_size : nat) (videos : list string)
    : YouTubeExporter unit :=
  mkExporter "key"
    (fun r rs =>
       match r with
       | SearchVideos _ max_results token =>
           (Ok (search_page page_size videos max_results token), rs)
       | _ => (Ok [], rs)
       end).

(** The same service, out of quota after [n] requests: its state is the
    number of requests answered so far. *)
Definition quota_service (page_size : nat) (videos : list string) (n : nat)
    : YouTubeExporter nat :=
  mkExporter "key"
    (fun r served =>
       if (served <? n)%nat
       then (fst (youtube (paging_service page_size videos) r tt), S served)
       else (Raise (HttpError "quotaExceeded"), served)).

Definition sample_channel : pyval := PStr "UCuAXFkgsw1L7xaCfnd5JJOw".

Definition sample_videos : list string := ["v1"; "v2"; "v3"; "v4"; "v5"].

Definition empty_world {W : Type} (rs : W) : world W :=
  mkWorld rs [] [] "20240101_120000".

(** ** Batches of the detail fetcher *)

(** The batches [video_ids[i:i+50]] for [i] in [range(0, len(video_ids), 50)],
    as [get_video_details] forms them. *)
Definition batches {A} (video_ids : list A) : list (list A) :=
  map (fun i => slice i (i + 50) video_ids)
      (range_step (List.length video_ids) 50).

(** The requests of a trace, in the order they were sent. *)
Definition requests_of (t : list event) : list request :=
  flat_map (fun e => match e with Execute r => [r] | _ => [] end) t.

(** The errors shown on the dashboard, in order. *)
Definition errors_of (t : list event) : list message :=
  flat_map (fun e => match e with StError m => [m] | _ => [] end) t.

Definition details_request (batch_ids : list string) : request :=
  VideosList (str_join "," batch_ids).

(** The specification's reading of the detail fetcher.  The records of one
    batch: none when the request failed with an API error or returned no
    item, otherwise one record per item returned. *)
Fixpoint flatten_all (repr_container : pyval -> string) (items : list pyval)
    : result (list dict) :=
  match items with
  | [] => Ok []
  | video :: items' =>
      try! record <- _process_video_data repr_container video;
      try! records <- flatten_all repr_container items';
      Ok (record :: records)
  end.

Definition batch_records (repr_container : pyval -> string)
    (answer : result dict) : result (list dict) :=
  match answer with
  | Raise (HttpError _) => Ok []
  | Raise e => Raise e
  | Ok response =>
      if has_items response then
        try! items <- (try! items <- py_getitem (PDict response) "items";
                       py_iter items);
        flatten_all repr_container items
      else Ok []
  end.

(** The records of all the batches: each batch is requested once, in
    order, and the records of the batches are put end to end. *)
Fixpoint records_of_batches {W : Type} (repr_container : pyval -> string)
    (self : YouTubeExporter W) (chunks : list (list string)) (rs : W)
    : result (list dict) :=
  match chunks with
  | [] => Ok []
  | batch_ids :: chunks' =>
      let '(answer, rs') := youtube self (details_request batch_ids) rs in
      try! here <- batch_records repr_container answer;
      try! rest <- records_of_batches repr_container self chunks' rs';
      Ok (here ++ rest)%list
  end.

(** A details service that fails on every request for more than one
    video, and returns the sample payload for a single one. *)
Definition single_video_service : YouTubeExporter unit :=
  mkExporter "key"
    (fun r rs =>
       match r with
       | VideosList id =>
           if str_contains "," id
           then (Raise (HttpError "backendError"), rs)
           else (Ok [("items", PList [PDict sample_video])], rs)
       | _ => (Ok [], rs)
       end).

(** A result that is not an API error. *)
Definition not_http {A : Type} (r : result A) : Prop :=
  forall msg, r <> Raise (HttpError msg).

(** The first batch, counted from 0, whose answer cannot be turned into
    records, and the exception it gives, when the batches are requested
    in order; [None] when every answer can. *)
Fixpoint first_failure {W : Type} (repr_container : pyval -> string)
    (self : YouTubeExporter W) (chunks : list (list string)) (rs : W)
    : option (nat * exn) :=
  match chunks with
  | [] => None
  | batch_ids :: chunks' =>
      let '(answer, rs') := youtube self (details_request batch_ids) rs in
      match batch_records repr_container answer with
      | Raise e => Some (0%nat, e)
      | Ok _ =>
          match first_failure repr_container self chunks' rs' with
          | Some (j, e) => Some (S j, e)
          | None => None
          end
      end
  end.

(** A details service whose every answer holds one payload, which has no
    title. *)
Definition untitled_video_service : YouTubeExporter unit :=
  mkExporter "key"
    (fun _ rs => (Ok [("items", PList [PDict video_without_title])], rs)).

(** ** Entry points *)

(** The world after some more events. *)
Definition logged {W : Type} (w : world W) (events : list event) : world W :=
  mkWorld (remote w) (trace w ++ events) (files w) (clock w).

(** How an entry point goes on from the resolver's answer [r] in the
    world [w1]; [not_found] is what it shows when there is no channel. *)
Definition after_resolver {W : Type} (not_found found : pyval -> list event)
    (answer : result pyval * world W) : result (step pyval) * world W :=
  match answer with
  | (Ok channel_id, w1) =>
      if negb (truthy channel_id)
      then (Ok Finished, logged w1 (not_found channel_id))
      else (Ok (Proceed channel_id), logged w1 (found channel_id))
  | (Raise e, w1) => (Raise e, w1)
  end.

(** A service that knows no channel. *)
Definition no_channel_service : YouTubeExporter unit :=
  mkExporter "key" (fun _ rs => (Ok [], rs)).

(** ** Records and the rows of the file *)

(** A record that has no field besides the twelve of the file: what
    [DictWriter] accepts.  The records the flattening builds have exactly
    those twelve. *)
Definition no_extra_fields (rowdict : dict) : Prop :=
  Forall (fun k => In k fieldnames) (map fst rowdict).

(** The text of the twelve fields of a record, in the order of the
    header: [str] fields as they are, the others as [csv.writer] prints
    them. *)
Definition record_cells (repr_container : pyval -> string) (rowdict : dict)
    : list string :=
  map (fun k => csv_cell repr_container (dict_get_default rowdict k (PStr "")))
      fieldnames.

(** The decimal numeral of a non-negative integer: digits, the most
    significant first, without a leading zero. *)
Definition numeral (n : Z) (ds : string) : Prop :=
  bare_integer ds /\ digits_value ds = n /\
  (ds = "0" \/ String.prefix "0" ds = false).

(** What a reader of the file is to find for a field of a record: the
    field itself when it is a str, its decimal numeral when it is an
    integer, nothing when it is [None] or absent. *)
Definition field_text (repr_container : pyval -> string)
    (field : option pyval) (text : string) : Prop :=
  match field with
  | None => text = ""
  | Some PNone => text = ""
  | Some (PStr s) => text = s
  | Some (PInt z) =>
      if z <? 0
      then exists ds, text = String "-" ds /\ numeral (- z) ds
      else numeral z text
  | Some (PBool b) => text = if b then "True" else "False"
  | Some (PList l) => text = repr_container (PList l)
  | Some (PDict d) => text = repr_container (PDict d)
  end.

(** A row that matches a record field for field, in the order of the
    header. *)
Definition row_of_record (repr_container : pyval -> string) (rowdict : dict)
    (row : list string) : Prop :=
  Forall2 (fun k text => field_text repr_container (dict_get rowdict k) text)
          fieldnames row.

(** A row of cells as [csv.DictReader] hands it over, keyed by the
    header. *)
Definition keyed (header cells : list string) : list (string * string) :=
  combine header cells.

(** The rows [writerows] adds to the file for a list of records. *)
Fixpoint rows_text (repr_container : pyval -> string) (videos_data : list dict)
    : string :=
  match videos_data with
  | [] => ""
  | rowdict :: rest =>
      csv_writerow (record_cells repr_container rowdict)
      ++ rows_text repr_container rest
  end.

(** The state of the reader once it has read the field [s] written by
    [csv_field], starting in [st] at the beginning of a field. *)
Definition field_end (st : reader_state) (s : string) : reader_state :=
  if needs_quote s then QUOTE_IN_QUOTED_FIELD
  else match s with
       | "" => st
       | String _ _ => IN_FIELD
       end.

(** The reader holds a whole field [f], not yet saved. *)
Definition field_done (st : reader_state) (f : string) : Prop :=
  match st with
  | START_RECORD | START_FIELD => f = ""
  | IN_FIELD | QUOTE_IN_QUOTED_FIELD => True
  | IN_QUOTED_FIELD | EAT_CRNL => False
  end.

(** A record whose fields hold commas, quotes and line breaks. *)
Definition awkward_record : dict :=
  [ ("title", PStr ("He said " ++ String DQUOTE "hi" ++ String DQUOTE ", twice"));
    ("video_id", PStr "abc,def");
    ("url", PStr "https://www.youtube.com/watch?v=abc,def");
    ("view_count", PStr "0");
    ("like_count", PNone);
    ("comment_count", PInt 12);
    ("publish_date", PStr "");
    ("duration_seconds", PInt 45);
    ("description", PStr ("one" ++ String CR (String LF "two") ++ String CR "three"));
    ("tags", PStr "a,b");
    ("transcript", PStr (String LF ""));
    ("content", PStr "") ].

(** ** Vocabulary of the further properties *)

(** The longest string of digits [int] converts by default
    ([sys.int_max_str_digits]); [py_int] stands for [int] up to it. *)
Definition int_max_str_digits : nat := 4300.

(** One of the three markers [_parse_duration] looks for. *)
Definition is_marker (c : ascii) : bool :=
  Ascii.eqb c "H" || Ascii.eqb c "M" || Ascii.eqb c "S".

(** [sub in s] for one of the markers. *)
Definition has_marker (s : string) : bool :=
  str_contains "H" s || str_contains "M" s || str_contains "S" s.

(** A search request as [get_channel_videos] may send one: for the
    channel asked for, for at least 1 and at most 50 results, and for no
    more than the target. *)
Definition search_request_ok (channel_id : pyval) (max_results : Z)
    (r : request) : Prop :=
  match r with
  | SearchVideos c m _ => c = channel_id /\ 1 <= m <= 50 /\ m <= max_results
  | _ => False
  end.

(** A search result that is not a video: it has no [videoId]. *)
Definition channel_item : pyval :=
  PDict [ ("kind", PStr "youtube#searchResult");
          ("id", PDict [("kind", PStr "youtube#channel");
                        ("channelId", PStr "UCuAXFkgsw1L7xaCfnd5JJOw")]) ].

(** A service whose search returns a video and then such a result. *)
Definition mixed_results_service : YouTubeExporter unit :=
  mkExporter "key"
    (fun r rs =>
       match r with
       | SearchVideos _ _ _ =>
           (Ok [("items", PList [search_item "v1"; channel_item])], rs)
       | _ => (Ok [], rs)
       end).

(** * Properties *)

(** ** Duration tokens *)

Lemma prefix_cons (a b : ascii) (s t : string) :
  String.prefix (String a s) (String b t) = Ascii.eqb a b && String.prefix s t.
Proof.
  cbn [String.prefix].
  destruct (ascii_dec a b) as [->|N].
  - now rewrite Ascii.eqb_refl.
  - destruct (Ascii.eqb_spec a b); [congruence | reflexivity].
Qed.

Section DurationFacts.

Lemma string_of_uint_digits (d : uint) :
  str_forall is_digit (NilEmpty.string_of_uint d) = true.
Proof. induction d; simpl; auto. Qed.

Lemma decimal_digits (n : N) : str_forall is_digit (decimal n) = true.
Proof. apply string_of_uint_digits. Qed.

Lemma decimal_not_empty (n : N) : decimal n <> "".
Proof.
  unfold decimal. intros E.
  pose proof (NilEmpty.usu (N.to_uint n)) as U.
  rewrite E in U. simpl in U. injection U as U.
  pose proof (DecimalN.Unsigned.of_to n) as OT.
  rewrite <- U in OT. simpl in OT. subst n. discriminate U.
Qed.

Lemma decimal_bare (n : N) : bare_integer (decimal n).
Proof. split; [apply decimal_digits | apply decimal_not_empty]. Qed.

(** The number read by [int] is the positional value of the digits. *)
Lemma of_uint_acc_value (d : uint) :
  forall acc : positive,
    Z.pos (Pos.of_uint_acc d acc)
    = digits_value_from (Z.pos acc) (NilEmpty.string_of_uint d).
Proof.
  induction d as [|d IH|d IH|d IH|d IH|d IH|d IH|d IH|d IH|d IH|d IH];
    intros acc; cbn [Pos.of_uint_acc NilEmpty.string_of_uint digits_value_from];
    [reflexivity|..]; rewrite IH; f_equal;
    match goal with
    | |- context [digit_value ?c] =>
        let v := eval vm_compute in (digit_value c) in
        change (digit_value c) with v
    end; lia.
Qed.

Lemma of_uint_value (d : uint) :
  Z.of_N (N.of_uint d) = digits_value (NilEmpty.string_of_uint d).
Proof.
  unfold digits_value, N.of_uint.
  induction d as [|d IH|d IH|d IH|d IH|d IH|d IH|d IH|d IH|d IH|d IH];
    cbn [Pos.of_uint NilEmpty.string_of_uint digits_value_from];
    [reflexivity | exact IH |..];
    cbn [Z.of_N]; rewrite of_uint_acc_value; reflexivity.
Qed.

Lemma digit_cases (c : ascii) :
  is_digit c = true ->
  exists k, forall d : option uint,
    DecimalString.uint_of_char c d = option_map k d.
Proof.
  destruct c as [[] [] [] [] [] [] [] []]; try discriminate; intros _;
    eexists; intros [d|]; reflexivity.
Qed.

Lemma digits_uint (ds : string) :
  str_forall is_digit ds = true ->
  exists d, NilEmpty.uint_of_string ds = Some d.
Proof.
  induction ds as [|c ds IH]; [now exists Nil|].
  cbn [str_forall NilEmpty.uint_of_string]. intros H.
  apply andb_prop in H as [Hc Hds].
  destruct (IH Hds) as [d E]. destruct (digit_cases c Hc) as [k K].
  rewrite K, E. now exists (k d).
Qed.

Lemma py_int_digits (ds : string) :
  bare_integer ds -> py_int ds = Ok (digits_value ds).
Proof.
  intros [D NE]. unfold py_int, NilZero.uint_of_string.
  destruct (digits_uint ds D) as [d E].
  destruct ds as [|c ds]; [congruence|].
  rewrite E, of_uint_value. now rewrite (NilEmpty.sus _ _ E).
Qed.

Lemma digits_value_decimal (n : N) : digits_value (decimal n) = Z.of_N n.
Proof.
  unfold decimal. now rewrite <- of_uint_value, DecimalN.Unsigned.of_to.
Qed.

Variables x y : ascii.
Hypothesis x_not_digit : is_digit x = false.
Hypothesis y_not_digit : is_digit y = false.
Hypothesis y_not_x : Ascii.eqb y x = false.

Lemma digit_not_x (d : ascii) : is_digit d = true -> Ascii.eqb d x = false.
Proof.
  intros D. destruct (Ascii.eqb_spec d x) as [->|]; congruence.
Qed.

Lemma match_digits_hit (ds rest : string) :
  str_forall is_digit ds = true -> ds <> "" ->
  match_digits_then x (ds ++ String x rest) = Some ds.
Proof.
  induction ds as [|d ds IH]; [congruence|].
  simpl. intros D _. apply andb_prop in D as [Dd Dds]. rewrite Dd.
  destruct ds as [|d' ds'].
  - simpl. rewrite x_not_digit, Ascii.eqb_refl. reflexivity.
  - rewrite IH by (auto; discriminate). reflexivity.
Qed.

Lemma match_digits_miss (ds rest : string) :
  str_forall is_digit ds = true ->
  match_digits_then x (ds ++ String y rest) = None.
Proof.
  induction ds as [|d ds IH]; simpl.
  - now rewrite y_not_digit.
  - intros D. apply andb_prop in D as [Dd Dds]. rewrite Dd, IH by assumption.
    destruct ds as [|d' ds']; simpl.
    + now rewrite y_not_x.
    + simpl in Dds. apply andb_prop in Dds as [Dd' _].
      now rewrite digit_not_x.
Qed.

Lemma search_hit (ds rest : string) :
  str_forall is_digit ds = true -> ds <> "" ->
  re_search_digits_then x (ds ++ String x rest) = Some ds.
Proof.
  intros D NE. destruct ds as [|d ds]; [congruence|].
  change (String d ds ++ String x rest) with (String d (ds ++ String x rest)).
  cbn [re_search_digits_then].
  change (String d (ds ++ String x rest)) with (String d ds ++ String x rest).
  now rewrite match_digits_hit.
Qed.

Lemma search_skip (ds rest : string) :
  str_forall is_digit ds = true ->
  re_search_digits_then x (ds ++ String y rest) = re_search_digits_then x rest.
Proof.
  induction ds as [|d ds IH]; intros D.
  - cbn [append re_search_digits_then].
    change (String y rest) with ("" ++ String y rest).
    now rewrite match_digits_miss.
  - change (String d ds ++ String y rest) with (String d (ds ++ String y rest)).
    cbn [re_search_digits_then].
    change (String d (ds ++ String y rest)) with (String d ds ++ String y rest).
    rewrite match_digits_miss by assumption.
    simpl in D. apply andb_prop in D as [_ D]. auto.
Qed.

Lemma contains_cons (c : ascii) (s : string) :
  str_contains (String x "") (String c s) =
  Ascii.eqb c x || str_contains (String x "") s.
Proof.
  cbn [str_contains]. rewrite prefix_cons, (Ascii.eqb_sym x c).
  destruct (Ascii.eqb c x); [now destruct s | reflexivity].
Qed.

Lemma contains_hit (ds rest : string) :
  str_contains (String x "") (ds ++ String x rest) = true.
Proof.
  induction ds as [|d ds IH].
  - cbn [append]. rewrite contains_cons, Ascii.eqb_refl. reflexivity.
  - change (String d ds ++ String x rest) with (String d (ds ++ String x rest)).
    rewrite contains_cons, IH. apply orb_true_r.
Qed.

Lemma contains_skip (ds rest : string) :
  str_forall is_digit ds = true ->
  str_contains (String x "") (ds ++ String y rest) =
  str_contains (String x "") rest.
Proof.
  induction ds as [|d ds IH]; intros D.
  - cbn [append]. now rewrite contains_cons, y_not_x.
  - change (String d ds ++ String y rest) with (String d (ds ++ String y rest)).
    simpl in D. apply andb_prop in D as [Dd D].
    now rewrite contains_cons, digit_not_x, IH.
Qed.

(** A component with the marker looked for is read, whatever follows
    it. *)
Lemma parse_component_hit (ds : string) (unit_seconds total : Z) (rest : string) :
  bare_integer ds ->
  parse_component x unit_seconds (ds ++ String x rest) total =
  Ok (total + digits_value ds * unit_seconds).
Proof.
  intros B. unfold parse_component, search_group1.
  rewrite contains_hit, search_hit by apply B.
  simpl. now rewrite py_int_digits.
Qed.

(** A component with another marker is passed over. *)
Lemma parse_component_skip (ds : string) (unit_seconds total : Z) (rest : string) :
  bare_integer ds ->
  parse_component x unit_seconds (ds ++ String y rest) total =
  parse_component x unit_seconds rest total.
Proof.
  intros B. unfold parse_component, search_group1.
  now rewrite contains_skip, search_skip by apply B.
Qed.

End DurationFacts.

Lemma parse_component_end (marker : ascii) (unit_seconds total : Z) :
  parse_component marker unit_seconds "" total = Ok total.
Proof. reflexivity. Qed.

Lemma replace_PT_unchanged (s : string) :
  str_forall (fun c => negb (Ascii.eqb c "P")) s = true ->
  str_replace_from "PT" "" 0 s = s.
Proof.
  induction s as [|c s IH]; [reflexivity|].
  cbn [str_forall str_replace_from]. intros H. apply andb_prop in H as [Hc Hs].
  rewrite prefix_cons, (Ascii.eqb_sym "P" c).
  apply negb_true_iff in Hc. rewrite Hc. cbn [andb]. now rewrite IH.
Qed.

Lemma no_P_app (s t : string) :
  str_forall (fun c => negb (Ascii.eqb c "P")) s = true ->
  str_forall (fun c => negb (Ascii.eqb c "P")) t = true ->
  str_forall (fun c => negb (Ascii.eqb c "P")) (s ++ t) = true.
Proof.
  induction s as [|c s IH]; simpl; [auto|].
  intros H T. apply andb_prop in H as [Hc Hs]. rewrite Hc. simpl. auto.
Qed.

Lemma digits_no_P (s : string) :
  str_forall is_digit s = true ->
  str_forall (fun c => negb (Ascii.eqb c "P")) s = true.
Proof.
  induction s as [|c s IH]; simpl; [auto|].
  intros H. apply andb_prop in H as [Hc Hs]. rewrite IH by assumption.
  destruct (Ascii.eqb_spec c "P") as [->|]; [discriminate Hc | reflexivity].
Qed.

Lemma component_no_P (o : option string) (marker : ascii) (rest : string) :
  bare_component o ->
  Ascii.eqb marker "P" = false ->
  str_forall (fun c => negb (Ascii.eqb c "P")) rest = true ->
  str_forall (fun c => negb (Ascii.eqb c "P")) (component o marker rest) = true.
Proof.
  intros B M R. destruct o as [ds|]; simpl; [|assumption].
  apply no_P_app.
  - apply digits_no_P, B.
  - simpl. now rewrite M, R.
Qed.

Lemma replace_PT_token (hours minutes seconds : option string) :
  bare_component hours -> bare_component minutes -> bare_component seconds ->
  str_replace "PT" "" (duration_token hours minutes seconds) =
  component hours "H" (component minutes "M" (component seconds "S" "")).
Proof.
  intros Bh Bm Bs. unfold str_replace, duration_token.
  set (body := component hours "H" _).
  assert (B : str_forall (fun c => negb (Ascii.eqb c "P")) body = true)
    by (repeat apply component_no_P; auto).
  change ("PT" ++ body) with (String "P" (String "T" body)).
  cbn -[body]. destruct body as [|c b]; [reflexivity|].
  now rewrite (replace_PT_unchanged (String c b)).
Qed.

(** C3. For every token [PT[nH][nM][nS]] whose components are optional
    bare non-negative integers, [_parse_duration] returns
    hours*3600 + minutes*60 + seconds, an absent component counting for 0:
    so it is for components given as strings of digits, and for numbers
    written in decimal; the four tokens of the specification give 3723,
    45, 7200 and 0. *)
Theorem parse_duration_token :
  (forall hours minutes seconds : option string,
     bare_component hours -> bare_component minutes -> bare_component seconds ->
     _parse_duration (duration_token hours minutes seconds) =
     Ok (amount hours * 3600 + amount minutes * 60 + amount seconds))
  /\ (forall hours minutes seconds : option N,
       _parse_duration
         (duration_token (option_map decimal hours) (option_map decimal minutes)
            (option_map decimal seconds)) =
       Ok (match hours with Some h => Z.of_N h | None => 0 end * 3600
           + match minutes with Some m => Z.of_N m | None => 0 end * 60
           + match seconds with Some s => Z.of_N s | None => 0 end))
  /\ _parse_duration "PT1H2M3S" = Ok 3723
  /\ _parse_duration "PT45S" = Ok 45
  /\ _parse_duration "PT2H" = Ok 7200
  /\ _parse_duration "PT" = Ok 0.
Proof.
  assert (General : forall hours minutes seconds : option string,
             bare_component hours -> bare_component minutes ->
             bare_component seconds ->
             _parse_duration (duration_token hours minutes seconds) =
             Ok (amount hours * 3600 + amount minutes * 60 + amount seconds)).
  { intros hours minutes seconds Bh Bm Bs.
    unfold _parse_duration. rewrite replace_PT_token by assumption.
    destruct hours as [h|], minutes as [m|], seconds as [s|];
      cbn [component amount bare_component] in *;
      repeat (first
        [ rewrite parse_component_hit by (reflexivity || assumption)
        | rewrite (parse_component_skip _ _) by (reflexivity || assumption)
        | rewrite parse_component_end ]; cbn [rbind]);
      f_equal; lia. }
  split; [exact General|].
  split; [|repeat split; reflexivity].
  intros hours minutes seconds. rewrite General.
  - destruct hours, minutes, seconds; cbn [option_map amount];
      now rewrite ?digits_value_decimal.
  - destruct hours; cbn; auto using decimal_bare.
  - destruct minutes; cbn; auto using decimal_bare.
  - destruct seconds; cbn; auto using decimal_bare.
Qed.

(** Components with leading zeros, and one left out. *)
Lemma parse_duration_token_witness :
  _parse_duration (duration_token (Some "01") None (Some "007")) =
  Ok (amount (Some "01") * 3600 + amount None * 60 + amount (Some "007")).
Proof.
  apply (proj1 parse_duration_token (Some "01") None (Some "007")).
  - split; [reflexivity | discriminate].
  - exact I.
  - split; [reflexivity | discriminate].
Defined.

(** ** Flattening a video payload *)

Lemma prefix_nil (s : string) : String.prefix "" s = true.
Proof. now destruct s. Qed.

Lemma replace_newline_map (s : string) :
  str_replace (String LF "") " " s = str_map newline_to_space s.
Proof.
  unfold str_replace.
  induction s as [|c s IH]; [reflexivity|].
  cbn [str_replace_from str_map].
  rewrite prefix_cons, prefix_nil, andb_true_r, (Ascii.eqb_sym LF c).
  unfold newline_to_space at 1.
  destruct (Ascii.eqb c LF); cbn; now rewrite IH.
Qed.

Lemma str_map_length (f : ascii -> ascii) (s : string) :
  String.length (str_map f s) = String.length s.
Proof. induction s; simpl; congruence. Qed.

Lemma all_str_map_PStr (l : list string) : all_str (map PStr l) = Ok l.
Proof. induction l as [|s l IH]; simpl; [|rewrite IH]; reflexivity. Qed.

Lemma map_PStr_inj (l l' : list string) : map PStr l = map PStr l' -> l = l'.
Proof.
  revert l'. induction l as [|a l IH]; intros [|b l'] E;
    try discriminate; [reflexivity|].
  injection E as -> E. f_equal. auto.
Qed.

Ltac invert_bind H :=
  match type of H with
  | rbind ?r _ = Ok _ =>
      let E := fresh "E" in
      destruct r eqn:E; cbn [rbind] in H; [|discriminate H]
  end.

Section FlattenFacts.

Variable repr_container : pyval -> string.

Local Notation "'flatten'" := (_process_video_data repr_container).
Local Notation "'to_str'" := (py_str repr_container).

(** What a successful flattening went through, and the record it built. *)
Lemma flatten_inv (video : pyval) (r : dict) :
  flatten video = Ok r ->
  exists snippet statistics published_at publish_date duration tags
         raw_description title video_id,
    py_getitem video "snippet" = Ok (PDict snippet) /\
    py_getitem video "statistics" = Ok (PDict statistics) /\
    dict_get snippet "publishedAt" = Some published_at /\
    py_slice10 published_at = Ok publish_date /\
    (if truthy (dict_get_default snippet "tags" PNone)
     then py_join "," (dict_get_default snippet "tags" (PList []))
     else Ok "") = Ok tags /\
    dict_get_default snippet "description" (PStr "") = PStr raw_description /\
    dict_get snippet "title" = Some title /\
    py_getitem video "id" = Ok video_id /\
    r = [ ("title", title);
          ("video_id", video_id);
          ("url", PStr (watch_url_prefix ++ to_str video_id));
          ("view_count", dict_get_default statistics "viewCount" (PStr "0"));
          ("like_count", dict_get_default statistics "likeCount" (PStr "0"));
          ("comment_count", dict_get_default statistics "commentCount" (PStr "0"));
          ("publish_date", publish_date);
          ("duration_seconds", PInt duration);
          ("description", PStr (str_replace (String LF "") " " raw_description));
          ("tags", PStr tags);
          ("transcript", PStr (str_replace (String LF "") " " raw_description));
          ("content", PStr (str_replace (String LF "") " " raw_description)) ].
Proof.
  unfold _process_video_data. intros H.
  repeat invert_bind H. injection H as <-.
  repeat match goal with
         | E : py_get ?v _ _ = Ok _ |- _ =>
             is_var v; destruct v; try discriminate E
         | E : py_get (PDict _) _ _ = Ok _ |- _ =>
             cbn [py_get] in E; injection E as E
         | E : py_replace ?v _ _ = Ok _ |- _ =>
             is_var v; destruct v; try discriminate E;
             cbn [py_replace] in E; injection E as E
         | E : py_getitem (PDict ?d) ?k = Ok _ |- _ =>
             cbn [py_getitem] in E; destruct (dict_get d k) eqn:?;
             [injection E as E | discriminate E]
         end.
  subst.
  do 9 eexists. repeat split; try eassumption; try reflexivity.
Qed.

Lemma py_getitem_dict (d : dict) (k : string) (v : pyval) :
  dict_get d k = Some v -> py_getitem (PDict d) k = Ok v.
Proof. intros E. cbn [py_getitem]. now rewrite E. Qed.

Lemma default_present (d : dict) (k : string) (v default : pyval) :
  dict_get d k = Some v -> dict_get_default d k default = v.
Proof. unfold dict_get_default. now intros ->. Qed.

Lemma default_absent (d : dict) (k : string) (default : pyval) :
  dict_get d k = None -> dict_get_default d k default = default.
Proof. unfold dict_get_default. now intros ->. Qed.

(** The tags of a snippet whose [tags], when present, is a list of str. *)
Lemma tags_of_list (snippet : dict) :
  optional_str_list (dict_get snippet "tags") ->
  exists tags,
    (if truthy (dict_get_default snippet "tags" PNone)
     then py_join "," (dict_get_default snippet "tags" (PList []))
     else Ok "") = Ok tags /\
    (dict_get snippet "tags" = None -> tags = "") /\
    (forall l, dict_get snippet "tags" = Some (PList (map PStr l)) ->
               tags = str_join "," l).
Proof.
  intros [N | [l S]].
  - exists "". rewrite (default_absent _ _ _ N). cbn [truthy].
    split; [reflexivity|]. split; [reflexivity|]. intros l S. congruence.
  - exists (str_join "," l). rewrite !(default_present _ _ _ _ S).
    split; [|split].
    + destruct l as [|t l]; [reflexivity|].
      cbn [truthy map]. change (PStr t :: map PStr l) with (map PStr (t :: l)).
      unfold py_join. cbn [py_iter rbind]. now rewrite all_str_map_PStr.
    + congruence.
    + intros l' S'. rewrite S in S'. injection S' as S'.
      now rewrite (map_PStr_inj _ _ S').
Qed.

(** C2, as the code has it.  A payload with its [snippet], [statistics]
    and [contentDetails] objects, a title, a publication time, an id and a
    duration that parses is flattened into a record, and in that record a
    statistic that is absent is the string 0 and an absent description or
    list of tags is the empty string. *)
Theorem flatten_defaults_absent_fields
    (video snippet statistics content_details : dict)
    (title video_id : pyval) (published_at duration : string) (seconds : Z) :
  dict_get video "snippet" = Some (PDict snippet) ->
  dict_get video "statistics" = Some (PDict statistics) ->
  dict_get video "contentDetails" = Some (PDict content_details) ->
  dict_get video "id" = Some video_id ->
  dict_get content_details "duration" = Some (PStr duration) ->
  _parse_duration duration = Ok seconds ->
  dict_get snippet "title" = Some title ->
  dict_get snippet "publishedAt" = Some (PStr published_at) ->
  optional_str (dict_get snippet "description") ->
  optional_str_list (dict_get snippet "tags") ->
  exists r,
    flatten (PDict video) = Ok r /\
    (dict_get statistics "viewCount" = None ->
     dict_get r "view_count" = Some (PStr "0")) /\
    (dict_get statistics "likeCount" = None ->
     dict_get r "like_count" = Some (PStr "0")) /\
    (dict_get statistics "commentCount" = None ->
     dict_get r "comment_count" = Some (PStr "0")) /\
    (dict_get snippet "description" = None ->
     dict_get r "description" = Some (PStr "")) /\
    (dict_get snippet "tags" = None ->
     dict_get r "tags" = Some (PStr "")).
Proof.
  intros Hsn Hst Hcd Hid Hdur Hsec Hti Hpa Hdesc Htags.
  destruct (tags_of_list snippet Htags) as (tags & Etags & Tnone & _).
  assert (exists raw, dict_get_default snippet "description" (PStr "") = PStr raw
                      /\ (dict_get snippet "description" = None -> raw = ""))
    as (raw & Eraw & Rnone).
  { destruct Hdesc as [N | [d S]].
    - exists "". now rewrite (default_absent _ _ _ N).
    - exists d. rewrite (default_present _ _ _ _ S). split; congruence. }
  eexists. split.
  - unfold _process_video_data.
    rewrite (py_getitem_dict _ _ _ Hsn), (py_getitem_dict _ _ _ Hst),
      (py_getitem_dict _ _ _ Hcd), (py_getitem_dict _ _ _ Hid).
    cbn [rbind].
    rewrite (py_getitem_dict _ _ _ Hdur), (py_getitem_dict _ _ _ Hpa),
      (py_getitem_dict _ _ _ Hti).
    cbn [rbind parse_duration_of py_slice10 py_get]. rewrite Hsec.
    cbn [rbind]. rewrite Etags. cbn [rbind]. rewrite Eraw.
    cbn [rbind py_replace]. reflexivity.
  - cbn [dict_get String.eqb Ascii.eqb Bool.eqb].
    repeat split.
    + intros N. now rewrite (default_absent _ _ _ N).
    + intros N. now rewrite (default_absent _ _ _ N).
    + intros N. now rewrite (default_absent _ _ _ N).
    + intros N. now rewrite (Rnone N).
    + intros N. now rewrite (Tnone N).
Qed.

(** C7. In every record the flattening produces, [publish_date] is the
    first 10 characters of the publication time, [tags] is the tag list
    joined by commas (the empty string when there is none), [description]
    is the payload's description with every newline turned into a space,
    and [transcript] and [content] hold that same cleaned description. *)
Theorem flatten_fields (video : pyval) (r : dict) :
  flatten video = Ok r ->
  exists snippet raw_description,
    py_getitem video "snippet" = Ok (PDict snippet) /\
    (forall published_at,
       dict_get snippet "publishedAt" = Some (PStr published_at) ->
       dict_get r "publish_date" = Some (PStr (str_take 10 published_at))) /\
    (forall tags,
       dict_get snippet "tags" = Some (PList (map PStr tags)) ->
       dict_get r "tags" = Some (PStr (str_join "," tags))) /\
    (dict_get snippet "tags" = None -> dict_get r "tags" = Some (PStr "")) /\
    dict_get_default snippet "description" (PStr "") = PStr raw_description /\
    dict_get r "description" =
      Some (PStr (str_map newline_to_space raw_description)) /\
    dict_get r "transcript" = dict_get r "description" /\
    dict_get r "content" = dict_get r "description".
Proof.
  intros H.
  destruct (flatten_inv video r H)
    as (snippet & statistics & pa & pd & duration & tags & raw & title & vid
        & Hsn & Hst & Hpa & Hpd & Htags & Hraw & Hti & Hid & ->).
  exists snippet, raw. rewrite <- replace_newline_map.
  cbn [dict_get String.eqb Ascii.eqb Bool.eqb].
  repeat split; try assumption.
  - intros ts Hts. rewrite Hts in Hpa. injection Hpa as <-.
    cbn [py_slice10] in Hpd. congruence.
  - intros l Hl.
    destruct (tags_of_list snippet (or_intror (ex_intro _ l Hl)))
      as (tags' & E & _ & T).
    rewrite E in Htags. injection Htags as <-. now rewrite (T l Hl).
  - intros N.
    destruct (tags_of_list snippet (or_introl N)) as (tags' & E & T & _).
    rewrite E in Htags. injection Htags as <-. now rewrite (T N).
Qed.

(** C10. In every record the flattening produces, [url] is the watch
    address followed by the record's own [video_id]. *)
Theorem url_is_watch_address_of_video_id (video : pyval) (r : dict) :
  flatten video = Ok r ->
  exists video_id,
    dict_get r "video_id" = Some video_id /\
    dict_get r "url" =
      Some (PStr ("https://www.youtube.com/watch?v=" ++ to_str video_id)) /\
    (forall s, video_id = PStr s ->
       dict_get r "url" = Some (PStr ("https://www.youtube.com/watch?v=" ++ s))).
Proof.
  intros H.
  destruct (flatten_inv video r H)
    as (snippet & statistics & pa & pd & duration & tags & raw & title & vid
        & _ & _ & _ & _ & _ & _ & _ & _ & ->).
  exists vid. repeat split. now intros s ->.
Qed.

End FlattenFacts.

Lemma flatten_sample :
  _process_video_data (fun _ => "") (PDict sample_video) = Ok sample_record.
Proof. reflexivity. Qed.

Lemma flatten_defaults_absent_fields_witness :
  dict_get [("viewCount", PStr "1200"); ("commentCount", PStr "7")] "likeCount"
    = None /\
  exists r,
    _process_video_data (fun _ => "") (PDict sample_video) = Ok r /\
    dict_get r "like_count" = Some (PStr "0").
Proof.
  split; [reflexivity|].
  destruct (flatten_defaults_absent_fields (fun _ => "") sample_video
              sample_snippet
              [("viewCount", PStr "1200"); ("commentCount", PStr "7")]
              [("duration", PStr "PT3M33S")]
              (PStr "Sample video") (PStr "dQw4w9WgXcQ")
              "2009-10-25T06:57:33Z" "PT3M33S" 213)
    as (r & E & _ & Like & _); try reflexivity.
  - right. eexists. reflexivity.
  - right. exists ["music"; "live"]. reflexivity.
  - exists r. split; [exact E | apply Like; reflexivity].
Defined.

(** C2, as stated, fails: a payload without [snippet.title] is not
    defaulted, the flattening raises [KeyError]. *)
Lemma flatten_raises_without_title :
  dict_get snippet_without_title "title" = None /\
  _process_video_data (fun _ => "") (PDict video_without_title) = Raise KeyError.
Proof. split; reflexivity. Qed.

Lemma flatten_fields_witness :
  exists snippet raw_description,
    py_getitem (PDict sample_video) "snippet" = Ok (PDict snippet) /\
    (forall published_at,
       dict_get snippet "publishedAt" = Some (PStr published_at) ->
       dict_get sample_record "publish_date" = Some (PStr (str_take 10 published_at))) /\
    (forall tags,
       dict_get snippet "tags" = Some (PList (map PStr tags)) ->
       dict_get sample_record "tags" = Some (PStr (str_join "," tags))) /\
    (dict_get snippet "tags" = None -> dict_get sample_record "tags" = Some (PStr "")) /\
    dict_get_default snippet "description" (PStr "") = PStr raw_description /\
    dict_get sample_record "description" =
      Some (PStr (str_map newline_to_space raw_description)) /\
    dict_get sample_record "transcript" = dict_get sample_record "description" /\
    dict_get sample_record "content" = dict_get sample_record "description".
Proof.
  apply (flatten_fields (fun _ => "") (PDict sample_video) sample_record).
  reflexivity.
Defined.

Lemma url_is_watch_address_of_video_id_witness :
  exists video_id,
    dict_get sample_record "video_id" = Some video_id /\
    dict_get sample_record "url" =
      Some (PStr ("https://www.youtube.com/watch?v="
                  ++ py_str (fun _ => "") video_id)) /\
    (forall s, video_id = PStr s ->
       dict_get sample_record "url" =
         Some (PStr ("https://www.youtube.com/watch?v=" ++ s))).
Proof.
  apply (url_is_watch_address_of_video_id (fun _ => "") (PDict sample_video)
           sample_record).
  reflexivity.
Defined.

(** ** Collecting the video identifiers of a channel *)

Lemma slice_to_length {A} (n : Z) (l : list A) :
  0 <= n -> Z.of_nat (List.length (slice_to n l)) <= n.
Proof.
  intros N. unfold slice_to.
  destruct (Z.leb_spec 0 n); [|lia].
  pose proof (firstn_le_length (Z.to_nat n) l). rewrite length_firstn. lia.
Qed.

Lemma slice_to_all {A} (n : Z) (l : list A) :
  Z.of_nat (List.length l) <= n -> slice_to n l = l.
Proof.
  intros L. unfold slice_to.
  destruct (Z.leb_spec 0 n); [|lia].
  apply firstn_all2. lia.
Qed.

Lemma append_video_ids_length (items video_ids video_ids' : list pyval) :
  append_video_ids video_ids items = (video_ids', None) ->
  List.length video_ids' = (List.length video_ids + List.length items)%nat.
Proof.
  revert video_ids. induction items as [|item items IH]; intros video_ids H.
  - injection H as <-. simpl. lia.
  - cbn [append_video_ids] in H.
    destruct (try! id <- py_getitem item "id"; py_getitem id "videoId");
      [|discriminate].
    apply IH in H. rewrite H, length_app. simpl. lia.
Qed.

(** What is appended before an exception stays: the list only grows. *)
Lemma append_video_ids_grows (items video_ids video_ids' : list pyval)
    (e : option exn) :
  append_video_ids video_ids items = (video_ids', e) ->
  (List.length video_ids <= List.length video_ids')%nat.
Proof.
  revert video_ids. induction items as [|item items IH]; intros video_ids H.
  - injection H as <- _. lia.
  - cbn [append_video_ids] in H.
    destruct (try! id <- py_getitem item "id"; py_getitem id "videoId").
    + apply IH in H. rewrite length_app in H. simpl in H. lia.
    + injection H as <- _. lia.
Qed.

Lemma append_video_ids_listed (items : list pyval) (ids : list string)
    (video_ids : list pyval) :
  Forall2 (fun item id => video_id_of_item item = Ok (PStr id)) items ids ->
  append_video_ids video_ids items = ((video_ids ++ map PStr ids)%list, None).
Proof.
  intros F. revert video_ids.
  induction F as [|item id items ids Hid F IH]; intros video_ids.
  - simpl. now rewrite app_nil_r.
  - cbn [append_video_ids]. unfold video_id_of_item in Hid. rewrite Hid.
    rewrite IH, <- app_assoc. reflexivity.
Qed.

(** A response that passes the [items] test has something to iterate. *)
Lemma has_items_not_empty (response : dict) (items : list pyval) :
  has_items response = true ->
  (try! items <- py_getitem (PDict response) "items"; py_iter items) = Ok items ->
  items <> [].
Proof.
  unfold has_items, dict_has, dict_get_default. cbn [py_getitem].
  destruct (dict_get response "items") as [v|]; [|discriminate].
  cbn [andb rbind]. intros T I.
  destruct v as [| | | s | l | d]; try discriminate I; cbn in T, I;
    injection I as <-.
  - destruct s; [discriminate T | discriminate].
  - destruct l; [discriminate T | discriminate].
  - destruct d; [discriminate T | discriminate].
Qed.

Section CollectorFacts.

Variable W : Type.
Variable self : YouTubeExporter W.
Variable channel_id : pyval.
Variable max_results : Z.

Local Notation "'pages'" := (collect_pages W self channel_id max_results).

(** One more iteration is always possible while the bound allows it: the
    loop ends within [max_results - len(video_ids)] iterations. *)
Lemma collect_pages_ends (fuel : nat) :
  forall (video_ids : list pyval) (token : pyval) (w : world W),
    max_results - Z.of_nat (List.length video_ids) <= Z.of_nat fuel ->
    exists e, pages fuel video_ids token w = Some e.
Proof.
  induction fuel as [|fuel IH]; intros video_ids token w F.
  - cbn [collect_pages].
    destruct (Z.ltb_spec (Z.of_nat (List.length video_ids)) max_results); [lia|].
    eauto.
  - cbn [collect_pages].
    destruct (Z.ltb_spec (Z.of_nat (List.length video_ids)) max_results); [|eauto].
    destruct (execute W self _ w) as [[response|e] w1]; [|eauto].
    destruct (has_items response) eqn:HI;
      [|destruct (emit W _ w1); eauto].
    destruct (try! items <- py_getitem (PDict response) "items"; py_iter items)
      as [items|e] eqn:I; [|eauto].
    destruct (append_video_ids video_ids items) as [video_ids' [e|]] eqn:A;
      [eauto|].
    destruct (negb (truthy _)); [eauto|].
    apply IH.
    pose proof (append_video_ids_length _ _ _ A) as L.
    pose proof (has_items_not_empty _ _ HI I) as NE.
    destruct items; [congruence|]. simpl in L. lia.
Qed.

(** The result of the loop does not depend on the bound, once the bound
    is large enough. *)
Lemma collect_pages_more_fuel (fuel : nat) :
  forall (video_ids : list pyval) (token : pyval) (w : world W) (e : loop_end W)
         (fuel' : nat),
    pages fuel video_ids token w = Some e ->
    (fuel <= fuel')%nat ->
    pages fuel' video_ids token w = Some e.
Proof.
  induction fuel as [|fuel IH]; intros video_ids token w e fuel' H L.
  - cbn [collect_pages] in H.
    destruct fuel'; cbn [collect_pages];
      destruct (Z.of_nat (List.length video_ids) <? max_results);
      congruence.
  - destruct fuel' as [|fuel']; [lia|].
    cbn [collect_pages] in *.
    destruct (Z.of_nat (List.length video_ids) <? max_results); [|assumption].
    destruct (execute W self _ w) as [[response|x] w1]; [|assumption].
    destruct (has_items response); [|assumption].
    destruct (try! items <- py_getitem (PDict response) "items"; py_iter items);
      [|assumption].
    destruct (append_video_ids video_ids a) as [video_ids' [x|]];
      [assumption|].
    destruct (negb (truthy _)); [assumption|].
    apply IH; [assumption | lia].
Qed.

Lemma collect_pages_any_fuel (fuel fuel' : nat) (video_ids : list pyval)
    (token : pyval) (w : world W) (e : loop_end W) :
  pages fuel video_ids token w = Some e ->
  max_results - Z.of_nat (List.length video_ids) <= Z.of_nat fuel' ->
  pages fuel' video_ids token w = Some e.
Proof.
  intros H F.
  destruct (collect_pages_ends fuel' video_ids token w F) as [e' H'].
  rewrite H'. f_equal.
  pose proof (collect_pages_more_fuel _ _ _ _ _ (Nat.max fuel fuel') H
                (Nat.le_max_l _ _)) as M.
  pose proof (collect_pages_more_fuel _ _ _ _ _ (Nat.max fuel fuel') H'
                (Nat.le_max_r _ _)) as M'.
  congruence.
Qed.

Lemma collect_pages_step (fuel : nat) (s1 s2 : list pyval * pyval * world W)
    (e : loop_end W) :
  page_step self channel_id max_results s1 s2 ->
  (let '(video_ids, token, w) := s2 in pages fuel video_ids token w) = Some e ->
  (let '(video_ids, token, w) := s1 in pages (S fuel) video_ids token w) = Some e.
Proof.
  intros [video_ids token w w1 response items video_ids' L X HI I A T] H.
  cbn [collect_pages].
  destruct (Z.ltb_spec (Z.of_nat (List.length video_ids)) max_results); [|lia].
  rewrite X, HI, I, A, T. exact H.
Qed.

Lemma collect_pages_steps (s1 s2 : list pyval * pyval * world W) :
  page_steps self channel_id max_results s1 s2 ->
  forall (fuel : nat) (e : loop_end W),
    (let '(video_ids, token, w) := s2 in pages fuel video_ids token w) = Some e ->
    exists fuel',
      (let '(video_ids, token, w) := s1 in pages fuel' video_ids token w) = Some e.
Proof.
  induction 1 as [s|s1 s2 s3 Step _ IH]; intros fuel e H.
  - eauto.
  - destruct (IH fuel e H) as [fuel' H'].
    exists (S fuel'). eapply collect_pages_step; eassumption.
Qed.

(** The request that fails: the loop ends there with what it has. *)
Lemma collect_pages_error (fuel : nat) (video_ids : list pyval) (token : pyval)
    (w w1 : world W) (e : exn) :
  Z.of_nat (List.length video_ids) < max_results ->
  execute W self
    (SearchVideos channel_id
       (Z.min 50 (max_results - Z.of_nat (List.length video_ids))) token) w
    = (Raise e, w1) ->
  pages (S fuel) video_ids token w = Some (video_ids, Some e, w1).
Proof.
  intros L X. cbn [collect_pages].
  destruct (Z.ltb_spec (Z.of_nat (List.length video_ids)) max_results); [|lia].
  now rewrite X.
Qed.

(** C5. When a request of the pagination fails with [HttpError], after
    any number of pages collected, [get_channel_videos] reports the error
    and returns the identifiers collected before it, cut to
    [max_results] (which leaves them all, the loop having stopped short
    of the maximum); it does not raise. *)
Theorem http_error_keeps_collected
    (fuel : nat) (w0 w w1 : world W) (video_ids : list pyval) (token : pyval)
    (msg : string) :
  page_steps self channel_id max_results ([], PNone, w0) (video_ids, token, w) ->
  Z.of_nat (List.length video_ids) < max_results ->
  execute W self
    (SearchVideos channel_id
       (Z.min 50 (max_results - Z.of_nat (List.length video_ids))) token) w
    = (Raise (HttpError msg), w1) ->
  max_results <= Z.of_nat fuel ->
  get_channel_videos W self fuel channel_id max_results w0 =
    Some (Ok (slice_to max_results video_ids),
          mkWorld (remote w1)
            (trace w1 ++ [StError (ErrorGettingChannelVideos (HttpError msg))])
            (files w1) (clock w1))
  /\ slice_to max_results video_ids = video_ids.
Proof.
  intros Steps L X F. split; [|apply slice_to_all; lia].
  pose proof (collect_pages_error 0 _ _ _ _ _ L X) as E.
  destruct (collect_pages_steps _ _ Steps _ _ E) as [fuel' H].
  cbn beta iota in H.
  unfold get_channel_videos.
  rewrite (collect_pages_any_fuel fuel' fuel _ _ _ _ H) by (simpl; lia).
  reflexivity.
Qed.

End CollectorFacts.

Lemma firstn_add {A} (k p : nat) (l : list A) :
  firstn (k + p) l = (firstn k l ++ firstn p (skipn k l))%list.
Proof.
  revert l. induction k as [|k IH]; intros [|a l]; simpl;
    try reflexivity.
  - now rewrite firstn_nil.
  - now rewrite IH.
Qed.

Lemma lists_videos_items (response : dict) (ids : list string) :
  lists_videos response ids -> ids <> [] ->
  exists items,
    has_items response = true /\
    (try! items <- py_getitem (PDict response) "items"; py_iter items) = Ok items /\
    Forall2 (fun item id => video_id_of_item item = Ok (PStr id)) items ids.
Proof.
  intros (items & G & F) NE. exists items.
  unfold has_items, dict_has, dict_get_default. cbn [py_getitem].
  rewrite G. cbn [rbind py_iter truthy andb].
  destruct F; [congruence|]. auto.
Qed.

Section ServedChannel.

Variable W : Type.
Variable self : YouTubeExporter W.
Variable channel_id : pyval.
Variable max_results : Z.
Variable videos : list string.
Variable position : pyval -> option nat.
Hypothesis served : serves_channel self channel_id videos position.
Hypothesis enough : max_results <= Z.of_nat (List.length videos).

(** From [k] videos collected and the token of position [k], the loop
    ends normally with the first [k'] videos, [k'] at least the target. *)
Lemma collect_served (fuel : nat) :
  forall (k : nat) (token : pyval) (w : world W),
    position token = Some k ->
    (k <= List.length videos)%nat ->
    max_results - Z.of_nat k <= Z.of_nat fuel ->
    exists k' w',
      collect_pages W self channel_id max_results fuel
        (map PStr (firstn k videos)) token w
        = Some (map PStr (firstn k' videos), None, w') /\
      max_results <= Z.of_nat k' /\
      (k' <= List.length videos)%nat.
Proof.
  destruct served as [_ Page].
  induction fuel as [|fuel IH]; intros k token w P K F;
    assert (Len : List.length (map PStr (firstn k videos)) = k)
      by (rewrite length_map, length_firstn; lia);
    cbn [collect_pages]; rewrite Len;
    (destruct (Z.ltb_spec (Z.of_nat k) max_results) as [Lt|Ge];
     [|exists k, w; repeat split; [lia | assumption]]).
  - lia.
  - destruct (Page (Z.min 50 (max_results - Z.of_nat k)) token k (remote w) P)
      as (response & rs' & p & Y & Pm & P1 & Listed & Next); [lia|].
    unfold execute. rewrite Y.
    assert (P1' : (1 <= p)%nat) by (apply P1; lia).
    assert (NE : firstn p (skipn k videos) <> []).
    { intros E. apply (f_equal (@List.length _)) in E.
      rewrite length_firstn, length_skipn in E. simpl in E. lia. }
    destruct (lists_videos_items _ _ Listed NE) as (items & HI & I & F2).
    rewrite HI, I, (append_video_ids_listed _ _ _ F2).
    rewrite <- map_app, <- firstn_add.
    destruct (Nat.ltb_spec (k + p) (List.length videos)) as [More|Last].
    + destruct Next as (t & G & T & Pt).
      rewrite (default_present _ _ _ _ G), T. cbn [negb].
      apply IH; [assumption | lia | lia].
    + rewrite Next. cbn [negb].
      exists (List.length videos). eexists. split; [|lia].
      now rewrite !firstn_all2 by lia.
Qed.

End ServedChannel.

(** C1. For every target [max_results >= 0], [get_channel_videos] ends
    (within [max_results] turns of its loop) and what it returns is a
    list of at most [max_results] identifiers; it never lets an
    [HttpError] out.  When the service pages without error through a
    channel of at least [max_results] public videos, it returns exactly
    [max_results] identifiers, the newest ones in order. *)
Theorem get_channel_videos_count
    (W : Type) (self : YouTubeExporter W) (channel_id : pyval)
    (max_results : Z) (fuel : nat) (w : world W) :
  0 <= max_results ->
  max_results <= Z.of_nat fuel ->
  (exists r w',
     get_channel_videos W self fuel channel_id max_results w = Some (r, w') /\
     (forall ids, r = Ok ids -> Z.of_nat (List.length ids) <= max_results) /\
     (forall msg, r <> Raise (HttpError msg)))
  /\
  (forall videos position,
     serves_channel self channel_id videos position ->
     max_results <= Z.of_nat (List.length videos) ->
     exists ids w',
       get_channel_videos W self fuel channel_id max_results w = Some (Ok ids, w') /\
       Z.of_nat (List.length ids) = max_results /\
       ids = map PStr (firstn (Z.to_nat max_results) videos)).
Proof.
  intros N F. split.
  - unfold get_channel_videos.
    destruct (collect_pages_ends W self channel_id max_results fuel [] PNone w)
      as [[[video_ids e] w'] H]; [simpl; lia|].
    rewrite H.
    destruct e as [e|].
    + destruct e as [msg| | | | | |];
        eexists; eexists; (split; [reflexivity|]);
        (split; [intros ids E; try discriminate E | intros m; discriminate]).
      injection E as <-. now apply slice_to_length.
    + eexists; eexists. split; [reflexivity|].
      split; [|intros m; discriminate].
      intros ids E. injection E as <-. now apply slice_to_length.
  - intros videos position Served Enough.
    destruct (collect_served W self channel_id max_results videos position
                Served Enough fuel 0%nat PNone w)
      as (k' & w' & H & K1 & K2);
      [apply Served | lia | lia |].
    unfold get_channel_videos. cbn [firstn map] in H. rewrite H.
    exists (slice_to max_results (map PStr (firstn k' videos))), w'.
    split; [reflexivity|].
    assert (E : slice_to max_results (map PStr (firstn k' videos))
                = map PStr (firstn (Z.to_nat max_results) videos)).
    { unfold slice_to. destruct (Z.leb_spec 0 max_results); [|lia].
      rewrite firstn_map, firstn_firstn.
      now replace (Nat.min (Z.to_nat max_results) k') with (Z.to_nat max_results)
        by lia. }
    rewrite E. split; [|reflexivity].
    rewrite length_map, length_firstn. lia.
Qed.

(** The hypothesis on the service is not empty: a plain paging service
    serves its channel. *)
Lemma paging_service_serves (page_size : nat) (videos : list string)
    (channel_id : pyval) :
  (1 <= page_size)%nat ->
  serves_channel (paging_service page_size videos) channel_id videos
                 token_position.
Proof.
  intros PS. split; [reflexivity|].
  intros m token k rs P M.
  exists (search_page page_size videos m token), rs,
    (Nat.min (Nat.min (Z.to_nat m) page_size) (List.length videos - k)).
  cbn [youtube paging_service]. unfold search_page. rewrite P.
  set (p := Nat.min (Nat.min (Z.to_nat m) page_size) (List.length videos - k)).
  split; [reflexivity|]. split; [lia|]. split; [lia|]. split.
  - eexists. split; [reflexivity|].
    induction (firstn p (skipn k videos)); constructor; auto.
  - destruct (Nat.ltb_spec (k + p) (List.length videos)) as [More|Last].
    + eexists. split; [reflexivity|]. cbn [truthy token_position].
      destruct (Z.eqb_spec (Z.of_nat (k + p)) 0); [lia|].
      destruct (Z.ltb_spec 0 (Z.of_nat (k + p))); [|lia].
      now rewrite Nat2Z.id.
    + reflexivity.
Qed.

Lemma get_channel_videos_count_witness :
  (exists r w',
     get_channel_videos unit (paging_service 2 sample_videos) 3
       sample_channel 3 (empty_world tt) = Some (r, w') /\
     (forall ids, r = Ok ids -> Z.of_nat (List.length ids) <= 3) /\
     (forall msg, r <> Raise (HttpError msg)))
  /\
  (exists ids w',
     get_channel_videos unit (paging_service 2 sample_videos) 3
       sample_channel 3 (empty_world tt) = Some (Ok ids, w') /\
     Z.of_nat (List.length ids) = 3 /\
     ids = map PStr (firstn (Z.to_nat 3) sample_videos)).
Proof.
  destruct (get_channel_videos_count unit (paging_service 2 sample_videos)
              sample_channel 3 3 (empty_world tt)) as [Bound Exact];
    [lia | lia |].
  split; [exact Bound|].
  apply (Exact sample_videos token_position).
  - apply paging_service_serves. lia.
  - simpl. lia.
Defined.

Example get_channel_videos_sample :
  option_map fst
    (get_channel_videos unit (paging_service 2 sample_videos) 3
       sample_channel 3 (empty_world tt))
  = Some (Ok [PStr "v1"; PStr "v2"; PStr "v3"]).
Proof. reflexivity. Qed.

Lemma http_error_keeps_collected_witness :
  get_channel_videos nat (quota_service 2 sample_videos 1) 5 sample_channel 5
    (empty_world 0%nat)
  = Some (Ok (slice_to 5 [PStr "v1"; PStr "v2"]),
          mkWorld 1%nat
            [ Execute (SearchVideos sample_channel 5 PNone);
              Execute (SearchVideos sample_channel 3 (PInt 2));
              StError (ErrorGettingChannelVideos (HttpError "quotaExceeded")) ]
            [] "20240101_120000")
  /\ slice_to 5 [PStr "v1"; PStr "v2"] = [PStr "v1"; PStr "v2"].
Proof.
  apply (http_error_keeps_collected nat (quota_service 2 sample_videos 1)
           sample_channel 5 5 (empty_world 0%nat)
           (mkWorld 1%nat [Execute (SearchVideos sample_channel 5 PNone)]
              [] "20240101_120000")
           (mkWorld 1%nat [ Execute (SearchVideos sample_channel 5 PNone);
                            Execute (SearchVideos sample_channel 3 (PInt 2)) ]
              [] "20240101_120000")
           [PStr "v1"; PStr "v2"] (PInt 2) "quotaExceeded").
  - eapply Relation_Operators.rt1n_trans;
      [|apply Relation_Operators.rt1n_refl].
    apply (page_collected (quota_service 2 sample_videos 1) sample_channel 5
             [] PNone (empty_world 0%nat)
             (mkWorld 1%nat [Execute (SearchVideos sample_channel 5 PNone)]
                [] "20240101_120000")
             (search_page 2 sample_videos 5 PNone)
             [search_item "v1"; search_item "v2"]
             [PStr "v1"; PStr "v2"]);
      reflexivity.
  - reflexivity.
  - reflexivity.
  - simpl. lia.
Defined.

(** ** Fetching the details in batches *)

Lemma range_step_50_succ (n : nat) :
  map (fun k => (k * 50)%nat) (seq 0 (S n)) =
  0%nat :: map (fun i => (50 + i)%nat) (map (fun k => (k * 50)%nat) (seq 0 n)).
Proof.
  cbn [seq map]. rewrite <- seq_shift, !map_map. reflexivity.
Qed.

Lemma chunks_concat {A} (n : nat) :
  forall l : list A,
    (List.length l <= n * 50)%nat ->
    List.concat (map (fun i => slice i (i + 50) l)
                (map (fun k => (k * 50)%nat) (seq 0 n))) = l.
Proof.
  induction n as [|n IH]; intros l L.
  - destruct l; [reflexivity | simpl in L; lia].
  - rewrite range_step_50_succ. cbn [map List.concat].
    rewrite (map_map (fun i => (50 + i)%nat)).
    rewrite (map_ext (fun i => slice (50 + i) (50 + i + 50) l)
                     (fun i => slice i (i + 50) (skipn 50 l))).
    + rewrite IH by (rewrite length_skipn; lia).
      unfold slice. replace (0 + 50 - 0)%nat with 50%nat by lia.
      cbn [skipn]. apply firstn_skipn.
    + intros i. unfold slice.
      replace (50 + i + 50 - (50 + i))%nat with (i + 50 - i)%nat by lia.
      now rewrite skipn_skipn, (Nat.add_comm i 50).
Qed.

Lemma ceil_50 (m : nat) :
  (m <= (m + 50 - 1) / 50 * 50 < m + 50)%nat.
Proof.
  pose proof (Nat.div_mod_eq (m + 50 - 1) 50).
  pose proof (Nat.mod_upper_bound (m + 50 - 1) 50).
  lia.
Qed.

Lemma batches_count {A} (l : list A) :
  List.length (batches l) = ((List.length l + 49) / 50)%nat.
Proof.
  unfold batches, range_step. rewrite !length_map, length_seq.
  f_equal. lia.
Qed.

Lemma batches_size {A} (l : list A) :
  Forall (fun b => (List.length b <= 50)%nat) (batches l).
Proof.
  unfold batches. apply Forall_map, Forall_forall. intros i _.
  unfold slice. rewrite length_firstn. lia.
Qed.

Lemma batches_concat {A} (l : list A) : List.concat (batches l) = l.
Proof.
  unfold batches, range_step. apply chunks_concat.
  pose proof (ceil_50 (List.length l)). lia.
Qed.

(** The flattening reads a payload and calls nothing: it cannot fail with
    an API error. *)
Lemma not_http_bind {A B} (r : result A) (k : A -> result B) :
  not_http r -> (forall a, not_http (k a)) -> not_http (rbind r k).
Proof.
  intros R K msg. destruct r as [a|e]; cbn [rbind].
  - apply K.
  - intros E. injection E as ->. now apply (R msg).
Qed.

Lemma not_http_Ok {A} (a : A) : not_http (Ok a).
Proof. intros msg. discriminate. Qed.

Lemma not_http_getitem (v : pyval) (k : string) : not_http (py_getitem v k).
Proof.
  intros msg. destruct v; cbn; try discriminate.
  destruct (dict_get d k); discriminate.
Qed.

Lemma not_http_get (v : pyval) (k : string) (default : pyval) :
  not_http (py_get v k default).
Proof. intros msg. destruct v; discriminate. Qed.

Lemma not_http_iter (v : pyval) : not_http (py_iter v).
Proof. intros msg. destruct v; discriminate. Qed.

Lemma not_http_all_str (l : list pyval) : not_http (all_str l).
Proof.
  induction l as [|v l IH]; [apply not_http_Ok|].
  destruct v; cbn [all_str]; try (intros msg; discriminate).
  apply not_http_bind; [assumption | intros; apply not_http_Ok].
Qed.

Lemma not_http_parse_component (marker : ascii) (unit_seconds : Z)
    (duration : string) (total : Z) :
  not_http (parse_component marker unit_seconds duration total).
Proof.
  unfold parse_component.
  destruct (str_contains _ _); [|apply not_http_Ok].
  apply not_http_bind.
  - unfold search_group1. intros msg.
    destruct (re_search_digits_then _ _); discriminate.
  - intros g. apply not_http_bind; [|intros; apply not_http_Ok].
    unfold py_int. intros msg.
    destruct (NilZero.uint_of_string g); discriminate.
Qed.

Lemma not_http_parse_duration (duration : string) :
  not_http (_parse_duration duration).
Proof.
  unfold _parse_duration.
  repeat (apply not_http_bind; [apply not_http_parse_component | intros]).
  apply not_http_Ok.
Qed.

Lemma not_http_flatten (repr_container : pyval -> string) (video : pyval) :
  not_http (_process_video_data repr_container video).
Proof.
  unfold _process_video_data.
  repeat (apply not_http_bind;
          [ first [ apply not_http_getitem | apply not_http_get ] | intros ]).
  apply not_http_bind.
  { match goal with |- not_http (parse_duration_of ?d) => destruct d end;
      try (intros msg; discriminate). apply not_http_parse_duration. }
  intros.
  apply not_http_bind; [apply not_http_getitem | intros].
  apply not_http_bind.
  { match goal with |- not_http (py_slice10 ?d) => destruct d end;
      intros msg; discriminate. }
  intros.
  apply not_http_bind; [apply not_http_get | intros].
  apply not_http_bind.
  { destruct (truthy _); [|apply not_http_Ok].
    apply not_http_bind; [apply not_http_get | intros].
    unfold py_join.
    apply not_http_bind; [apply not_http_iter | intros].
    apply not_http_bind; [apply not_http_all_str | intros; apply not_http_Ok]. }
  intros.
  apply not_http_bind; [apply not_http_get | intros].
  apply not_http_bind.
  { match goal with |- not_http (py_replace ?d _ _) => destruct d end;
      intros msg; discriminate. }
  intros.
  repeat (apply not_http_bind;
          [ first [ apply not_http_getitem | apply not_http_get ] | intros ]).
  apply not_http_Ok.
Qed.

Lemma requests_of_app (t u : list event) :
  requests_of (t ++ u) = (requests_of t ++ requests_of u)%list.
Proof. apply flat_map_app. Qed.

Lemma errors_of_app (t u : list event) :
  errors_of (t ++ u) = (errors_of t ++ errors_of u)%list.
Proof. apply flat_map_app. Qed.

Section DetailsFacts.

Variable repr_container : pyval -> string.
Variable W : Type.
Variable self : YouTubeExporter W.

Local Notation "'flatten'" := (_process_video_data repr_container).

Lemma append_video_data_all (items : list pyval) :
  forall videos_data : list dict,
    match flatten_all repr_container items with
    | Ok records =>
        append_video_data repr_container videos_data items
        = ((videos_data ++ records)%list, None)
    | Raise e =>
        exists partial,
          append_video_data repr_container videos_data items = (partial, Some e)
    end.
Proof.
  induction items as [|video items IH]; intros videos_data.
  - simpl. now rewrite app_nil_r.
  - cbn [flatten_all append_video_data].
    destruct (flatten video) as [record|e]; cbn [rbind]; [|eauto].
    specialize (IH (videos_data ++ [record])%list).
    destruct (flatten_all repr_container items) as [records|e]; cbn [rbind].
    + now rewrite IH, <- app_assoc.
    + exact IH.
Qed.

Lemma not_http_flatten_all (items : list pyval) :
  not_http (flatten_all repr_container items).
Proof.
  induction items as [|video items IH]; [apply not_http_Ok|].
  cbn [flatten_all].
  apply not_http_bind; [apply not_http_flatten | intros].
  apply not_http_bind; [assumption | intros; apply not_http_Ok].
Qed.

(** One batch: one request, and the records the specification gives. *)
Lemma details_batch_spec (video_ids : list string) (videos_data : list dict)
    (i : nat) (w : world W) :
  let batch_ids := slice i (i + 50) video_ids in
  let '(answer, rs') := youtube self (details_request batch_ids) (remote w) in
  exists w',
    details_batch repr_container W self video_ids videos_data i w
    = ((try! records <- batch_records repr_container answer;
        Ok (videos_data ++ records)%list), w') /\
    remote w' = rs' /\
    requests_of (trace w')
    = (requests_of (trace w) ++ [details_request batch_ids])%list.
Proof.
  cbv zeta. unfold details_batch, execute, details_request.
  destruct (youtube self _ (remote w)) as [[response|e] rs'].
  - cbn [batch_records].
    destruct (has_items response).
    + destruct (try! items <- py_getitem (PDict response) "items"; py_iter items)
        as [items|e] eqn:I; cbn [rbind].
      * pose proof (append_video_data_all items videos_data) as A.
        pose proof (not_http_flatten_all items) as NH.
        destruct (flatten_all repr_container items) as [records|e]; cbn [rbind].
        -- rewrite A. eexists. split; [reflexivity|]. split; [reflexivity|].
           cbn [trace]. now rewrite requests_of_app.
        -- destruct A as [partial A]. rewrite A.
           destruct e; try (exfalso; eapply NH; reflexivity);
             (eexists; split; [reflexivity|]; split; [reflexivity|];
              cbn [trace]; now rewrite requests_of_app).
      * assert (NH : not_http (Raise (A:=list pyval) e)).
        { rewrite <- I.
          apply not_http_bind; [apply not_http_getitem | apply not_http_iter]. }
        destruct e; try (exfalso; eapply NH; reflexivity);
          (eexists; split; [reflexivity|]; split; [reflexivity|];
           cbn [trace]; now rewrite requests_of_app).
    + cbn [rbind]. rewrite app_nil_r. eexists.
      split; [reflexivity|]. split; [reflexivity|].
      cbn [trace]. rewrite !requests_of_app. cbn. now rewrite app_nil_r.
  - destruct e; cbn [batch_records rbind];
      try (eexists; split; [reflexivity|]; split; [reflexivity|];
           cbn [trace]; now rewrite requests_of_app).
    rewrite app_nil_r. eexists.
    split; [reflexivity|]. split; [reflexivity|].
    cbn [trace]. rewrite !requests_of_app. cbn. now rewrite app_nil_r.
Qed.

Variable video_ids : list string.

Local Notation "'chunk'" := (fun i => slice i (i + 50)%nat video_ids).

(** The batches from a list of starting indices on: the records are those
    of the specification, one request is sent for each batch in turn, and
    for all of them when the loop is not left by an exception. *)
Lemma for_batches_spec (starts : list nat) :
  forall (videos_data : list dict) (w : world W),
    exists w' j,
      for_batches repr_container W self video_ids starts videos_data w
      = ((try! rest <- records_of_batches repr_container self
                         (map chunk starts) (remote w);
          Ok (videos_data ++ rest)%list), w') /\
      requests_of (trace w')
      = (requests_of (trace w)
         ++ map details_request (firstn j (map chunk starts)))%list /\
      (forall out,
         (try! rest <- records_of_batches repr_container self
                         (map chunk starts) (remote w);
          Ok (videos_data ++ rest)%list) = Ok out ->
         firstn j (map chunk starts) = map chunk starts).
Proof.
  induction starts as [|i starts IH]; intros videos_data w.
  - exists w, 0%nat. cbn. rewrite !app_nil_r. auto.
  - cbn [for_batches map records_of_batches]. unfold bind.
    pose proof (details_batch_spec video_ids videos_data i w) as D.
    cbv zeta in D.
    destruct (youtube self _ (remote w)) as [answer rs'].
    destruct D as (w1 & D & R1 & T1). rewrite D.
    destruct (batch_records repr_container answer) as [here|e]; cbn [rbind].
    + destruct (IH (videos_data ++ here)%list w1) as (w' & j & F & T & Full).
      rewrite R1 in F, Full.
      exists w', (S j). rewrite F, T, T1. cbn [firstn map].
      destruct (records_of_batches repr_container self _ rs') as [rest|e];
        cbn [rbind] in *; rewrite <- ?app_assoc.
      * split; [reflexivity|]. split; [reflexivity|].
        intros out _. f_equal. eapply Full. reflexivity.
      * split; [reflexivity|]. split; [reflexivity|]. discriminate.
    + exists w1, 1%nat. rewrite T1. cbn [firstn map].
      split; [reflexivity|]. split; [reflexivity|]. discriminate.
Qed.

Lemma not_http_batch_records (answer : result dict) :
  not_http (batch_records repr_container answer).
Proof.
  destruct answer as [response|e]; cbn [batch_records].
  - destruct (has_items response); [|apply not_http_Ok].
    apply not_http_bind; [|intros; apply not_http_flatten_all].
    apply not_http_bind; [apply not_http_getitem | apply not_http_iter].
  - destruct e; cbn; intros ?; discriminate.
Qed.

(** The loop over the batches sends the requests in order and goes on
    until an answer cannot be turned into records: it is left there by
    the exception, and returns when there is no such answer. *)
Lemma for_batches_requests (starts : list nat) :
  forall (videos_data : list dict) (w : world W),
    let '(r, w') :=
      for_batches repr_container W self video_ids starts videos_data w in
    match first_failure repr_container self (map chunk starts) (remote w) with
    | None =>
        (exists out, r = Ok out) /\
        requests_of (trace w')
        = (requests_of (trace w)
           ++ map details_request (map chunk starts))%list
    | Some (j, e) =>
        r = Raise e /\
        (forall msg, e <> HttpError msg) /\
        (j < List.length starts)%nat /\
        requests_of (trace w')
        = (requests_of (trace w)
           ++ map details_request (firstn (S j) (map chunk starts)))%list
    end.
Proof.
  induction starts as [|i starts IH]; intros videos_data w.
  - cbn. rewrite app_nil_r. eauto.
  - cbn [for_batches map first_failure]. unfold bind.
    pose proof (details_batch_spec video_ids videos_data i w) as D.
    cbv zeta in D.
    destruct (youtube self _ (remote w)) as [answer rs'].
    destruct D as (w1 & D & R1 & T1). rewrite D.
    pose proof (not_http_batch_records answer) as NH.
    destruct (batch_records repr_container answer) as [here|e]; cbn [rbind].
    + specialize (IH (videos_data ++ here)%list w1). rewrite R1 in IH.
      destruct (for_batches repr_container W self video_ids starts
                  (videos_data ++ here)%list w1) as [r w'].
      destruct (first_failure repr_container self _ rs') as [[j e]|].
      * destruct IH as (R & NE & J & T).
        split; [exact R|]. split; [exact NE|].
        split; [cbn [List.length]; lia|].
        rewrite T, T1. cbn [firstn map]. now rewrite <- app_assoc.
      * destruct IH as (R & T). split; [exact R|].
        rewrite T, T1. cbn [map]. now rewrite <- app_assoc.
    + split; [reflexivity|].
      split; [intros msg E; apply (NH msg); now rewrite E|].
      split; [cbn [List.length]; lia|].
      rewrite T1. reflexivity.
Qed.

(** C4. [get_video_details] cuts its M identifiers into ceil(M/50)
    consecutive batches of at most 50 whose concatenation, in order, is
    the input.  It requests the batches in order, one request each, and
    stops only at a batch whose answer cannot be turned into records: when
    there is none it returns, having sent exactly one request per batch;
    otherwise it raises the exception of that batch, which is not an API
    error, having sent the requests up to that batch and none after. *)
Theorem video_details_batches (w : world W) :
  let chunks := batches video_ids in
  let M := List.length video_ids in
  List.length chunks = ((M + 49) / 50)%nat /\
  (M <= 50 * List.length chunks < M + 50)%nat /\
  Forall (fun batch_ids => (List.length batch_ids <= 50)%nat) chunks /\
  List.concat chunks = video_ids /\
  let '(r, w') := get_video_details repr_container W self video_ids w in
  match first_failure repr_container self chunks (remote w) with
  | None =>
      (exists videos_data, r = Ok videos_data) /\
      requests_of (trace w')
      = (requests_of (trace w) ++ map details_request chunks)%list
  | Some (j, e) =>
      r = Raise e /\
      (forall msg, e <> HttpError msg) /\
      (j < List.length chunks)%nat /\
      requests_of (trace w')
      = (requests_of (trace w)
         ++ map details_request (firstn (S j) chunks))%list
  end.
Proof.
  cbv zeta.
  split; [apply batches_count|].
  split; [rewrite batches_count; pose proof (ceil_50 (List.length video_ids));
          replace (List.length video_ids + 49)%nat
            with (List.length video_ids + 50 - 1)%nat by lia; lia|].
  split; [apply batches_size|].
  split; [apply batches_concat|].
  unfold get_video_details.
  pose proof (for_batches_requests (range_step (List.length video_ids) 50)
                [] w) as F.
  fold (batches video_ids) in F.
  destruct (for_batches repr_container W self video_ids _ [] w) as [r w'].
  destruct (first_failure repr_container self _ (remote w)) as [[j e]|];
    [|exact F].
  destruct F as (R & NE & J & T).
  split; [exact R|]. split; [exact NE|]. split; [|exact T].
  unfold batches. now rewrite length_map.
Qed.

(** C6. The records [get_video_details] returns are those of the batches
    put end to end, a batch whose request failed with an API error giving
    none and the others all of theirs; and when the request of a batch
    fails so, the error is reported, the records collected so far are
    kept as they are, and the loop goes on with the next batch, the failed
    one not being requested again. *)
Theorem chunk_error_omits_chunk :
  (forall w : world W,
     fst (get_video_details repr_container W self video_ids w)
     = records_of_batches repr_container self (batches video_ids) (remote w))
  /\
  (forall (videos_data : list dict) (i : nat) (starts : list nat)
          (w w1 : world W) (msg : string),
     execute W self (details_request (slice i (i + 50) video_ids)) w
       = (Raise (HttpError msg), w1) ->
     for_batches repr_container W self video_ids (i :: starts) videos_data w
     = for_batches repr_container W self video_ids starts videos_data
         (mkWorld (remote w1)
            (trace w1 ++ [StError (ErrorGettingVideoDetails (HttpError msg))])
            (files w1) (clock w1))).
Proof.
  split.
  - intros w. unfold get_video_details.
    destruct (for_batches_spec (range_step (List.length video_ids) 50) [] w)
      as (w' & j & F & _).
    rewrite F. cbn [fst]. fold (batches video_ids).
    now destruct (records_of_batches _ _ _ _).
  - intros videos_data i starts w w1 msg X.
    cbn [for_batches]. unfold bind at 1. unfold details_batch.
    unfold details_request in X. rewrite X. reflexivity.
Qed.

End DetailsFacts.

Lemma chunk_error_omits_chunk_witness :
  for_batches (fun _ => "") unit single_video_service ["a"; "b"] [0%nat] []
    (empty_world tt)
  = for_batches (fun _ => "") unit single_video_service ["a"; "b"] [] []
      (mkWorld tt
         [ Execute (VideosList "a,b");
           StError (ErrorGettingVideoDetails (HttpError "backendError")) ]
         [] "20240101_120000").
Proof.
  apply (proj2 (chunk_error_omits_chunk (fun _ => "") unit single_video_service
                  ["a"; "b"])
           [] 0%nat [] (empty_world tt)
           (mkWorld tt [Execute (VideosList "a,b")] [] "20240101_120000")
           "backendError").
  reflexivity.
Defined.

(** Fifty-one identifiers, two batches: the first request fails with an
    API error, no answer fails to be turned into records, and the run
    returns after one request per batch. *)
Lemma video_details_batches_witness :
  let '(r, w') :=
    get_video_details (fun _ => "") unit single_video_service
      (repeat "v" 50 ++ ["w"])%list (empty_world tt) in
  (exists videos_data, r = Ok videos_data) /\
  requests_of (trace w')
  = [ details_request (repeat "v" 50); details_request ["w"] ].
Proof.
  pose proof (video_details_batches (fun _ => "") unit single_video_service
                (repeat "v" 50 ++ ["w"])%list (empty_world tt))
    as (_ & _ & _ & _ & H).
  vm_compute in H. vm_compute. exact H.
Defined.

(** C4, counterexample.  Fifty-one identifiers are two batches, but when
    the answer to the first holds a payload without title the flattening
    raises [KeyError], which leaves [get_video_details]: one request was
    sent for two batches. *)
Lemma details_stop_at_unflattened_item :
  List.length (batches (repeat "v" 50 ++ ["w"])%list) = 2%nat /\
  fst (get_video_details (fun _ => "") unit untitled_video_service
         (repeat "v" 50 ++ ["w"])%list (empty_world tt))
  = Raise KeyError /\
  requests_of
    (trace (snd (get_video_details (fun _ => "") unit untitled_video_service
                   (repeat "v" 50 ++ ["w"])%list (empty_world tt))))
  = [ details_request (repeat "v" 50) ].
Proof. repeat split; vm_compute; reflexivity. Qed.

(** Fifty-one identifiers: the request of the first batch fails, the
    record of the second batch is returned all the same, and each batch
    was requested once. *)
Example details_other_batches_kept :
  let '(r, w') :=
    get_video_details (fun _ => "") unit single_video_service
      (repeat "v" 50 ++ ["w"])%list (empty_world tt) in
  r = Ok [sample_record] /\
  errors_of (trace w') = [ErrorGettingVideoDetails (HttpError "backendError")] /\
  requests_of (trace w')
  = [ details_request (repeat "v" 50); details_request ["w"] ].
Proof. vm_compute. repeat split; reflexivity. Qed.

(** ** Channel identifier or resolver *)

Lemma logged_nil {W : Type} (w : world W) : logged w [] = w.
Proof. destruct w. unfold logged. cbn. now rewrite app_nil_r. Qed.

Lemma logged_logged {W : Type} (w : world W) (es es' : list event) :
  logged (logged w es) es' = logged w (es ++ es').
Proof. unfold logged. cbn. now rewrite app_assoc. Qed.

Lemma requests_of_logged {W : Type} (w : world W) (es : list event) :
  requests_of (trace (logged w es))
  = (requests_of (trace w) ++ requests_of es)%list.
Proof. unfold logged. cbn [trace]. apply requests_of_app. Qed.

Lemma is_channel_id_truthy (channel : string) :
  is_channel_id channel = true -> truthy (PStr channel) = true.
Proof.
  unfold is_channel_id. intros H. apply andb_prop in H as [_ L].
  destruct channel; [discriminate L | reflexivity].
Qed.

(** Closes a goal that reads the requests off a trace given event by
    event. *)
Ltac requests_done :=
  cbn -[requests_of]; eexists;
  repeat rewrite requests_of_app;
  cbn [requests_of flat_map Datatypes.app];
  repeat rewrite <- app_assoc;
  cbn [Datatypes.app]; rewrite ?app_nil_r;
  reflexivity.

Section EntryPoints.

Variable W : Type.
Variable exporter : YouTubeExporter W.

Local Notation "'resolver'" := (get_channel_id_from_username W exporter).

(** Called, the resolver starts by looking the user name up: that request
    is the first thing it adds to the trace. *)
Lemma resolver_first_request (username : string) (w : world W) :
  exists rest,
    requests_of (trace (snd (resolver username w)))
    = (requests_of (trace w)
       ++ ChannelsByUsername (str_lstrip "@" username) :: rest)%list.
Proof.
  unfold get_channel_id_from_username, bind, except_HttpError, execute.
  destruct (youtube exporter (ChannelsByUsername _) (remote w))
    as [[response|e] rs1].
  - destruct (has_items response).
    + unfold lift.
      destruct (try! items <- py_getitem (PDict response) "items";
                try! first <- py_getitem0 items; py_getitem first "id")
        as [v|e]; [|destruct e]; requests_done.
    + cbn [remote].
      destruct (youtube exporter (SearchChannel _) rs1) as [[response2|e] rs2].
      * destruct (has_items response2).
        -- unfold lift.
           destruct (try! items <- py_getitem (PDict response2) "items";
                     try! first <- py_getitem0 items;
                     try! snippet <- py_getitem first "snippet";
                     py_getitem snippet "channelId")
             as [v|e]; [|destruct e]; requests_done.
        -- requests_done.
      * destruct e; requests_done.
  - destruct e; requests_done.
Qed.

(** C9, as the code has it.  A channel argument that starts with UC and
    has 24 characters is the channel id in both entry points, and no
    request is sent to resolve it.  Any other argument goes to the
    resolver on the command line; in the dashboard it goes to the resolver
    unless it is empty, an empty input being refused with an error before
    anything else. *)
Theorem channel_id_or_resolver (channel : string) (w : world W) :
  (is_channel_id channel = true ->
     run_find_channel W exporter channel w
     = (Ok (Proceed (PStr channel)), logged w [Print FindingChannel])
     /\
     dashboard_find_channel W exporter channel w
     = (Ok (Proceed (PStr channel)),
        logged w [ StProgress 0; StStatus FindingChannel; StProgress 10;
                   StInfo (UsingProvidedChannelId channel);
                   StSuccess (FoundChannelId (PStr channel)) ]))
  /\
  (is_channel_id channel = false ->
     (run_find_channel W exporter channel w
      = after_resolver (fun _ => [Print ChannelNotFound]) (fun _ => [])
          (resolver channel (logged w [Print FindingChannel]))
      /\
      exists rest,
        requests_of (trace (snd (run_find_channel W exporter channel w)))
        = (requests_of (trace w)
           ++ ChannelsByUsername (str_lstrip "@" channel) :: rest)%list)
     /\
     (channel <> "" ->
      dashboard_find_channel W exporter channel w
      = after_resolver
          (fun _ => [StError ChannelNotFound; StInfo TryFullChannelId])
          (fun channel_id => [StSuccess (FoundChannelId channel_id)])
          (resolver channel
             (logged w [ StProgress 0; StStatus FindingChannel; StProgress 10;
                         StInfo (SearchingForChannel channel) ]))
      /\
      exists rest,
        requests_of (trace (snd (dashboard_find_channel W exporter channel w)))
        = (requests_of (trace w)
           ++ ChannelsByUsername (str_lstrip "@" channel) :: rest)%list)
     /\
     (channel = "" ->
      dashboard_find_channel W exporter channel w
      = (Ok Finished, logged w [StError PleaseEnterChannel]))).
Proof.
  split.
  - intros Id. pose proof (is_channel_id_truthy _ Id) as T.
    unfold run_find_channel, dashboard_find_channel.
    rewrite Id, T. cbn [negb]. unfold bind, emit, ret, logged.
    cbn -[truthy]. rewrite !T. cbn [negb].
    split; repeat (progress (cbn; rewrite <- ?app_assoc)); reflexivity.
  - intros NotId.
    assert (Run : run_find_channel W exporter channel w
                  = after_resolver (fun _ => [Print ChannelNotFound]) (fun _ => [])
                      (resolver channel (logged w [Print FindingChannel]))).
    { unfold run_find_channel. rewrite NotId.
      unfold bind at 1 2. cbn [emit]. fold (logged w [Print FindingChannel]).
      unfold after_resolver.
      destruct (resolver channel _) as [[channel_id|e] w1]; [|reflexivity].
      destruct (negb (truthy channel_id)).
      - reflexivity.
      - unfold ret. now rewrite logged_nil. }
    split; [split; [exact Run|]|split].
    + rewrite Run.
      destruct (resolver_first_request channel (logged w [Print FindingChannel]))
        as [rest R].
      unfold after_resolver.
      destruct (resolver channel _) as [[channel_id|e] w1]; cbn [snd] in *.
      * destruct (negb (truthy channel_id)); cbn [snd];
          eexists; rewrite ?requests_of_logged, R, ?requests_of_logged;
          cbn [requests_of flat_map Datatypes.app];
          rewrite ?app_nil_r, <- ?app_assoc; reflexivity.
      * eexists. rewrite R, ?requests_of_logged.
        cbn [requests_of flat_map Datatypes.app].
        rewrite ?app_nil_r, <- ?app_assoc. reflexivity.
    + intros NE. clear Run.
      assert (T : truthy (PStr channel) = true)
        by (destruct channel; [congruence | reflexivity]).
      assert (Dash : dashboard_find_channel W exporter channel w
                = after_resolver
                    (fun _ => [StError ChannelNotFound; StInfo TryFullChannelId])
                    (fun channel_id => [StSuccess (FoundChannelId channel_id)])
                    (resolver channel
                       (logged w [ StProgress 0; StStatus FindingChannel;
                                   StProgress 10;
                                   StInfo (SearchingForChannel channel) ]))).
      { unfold dashboard_find_channel. rewrite NotId, T. cbn [negb].
        unfold bind at 1 2 3 4 5. cbn [emit trace remote files clock].
        rewrite <- !app_assoc. cbn [Datatypes.app].
        fold (logged w [ StProgress 0; StStatus FindingChannel; StProgress 10;
                         StInfo (SearchingForChannel channel) ]).
        unfold after_resolver.
        destruct (resolver channel _) as [[channel_id|e] w1]; [|reflexivity].
        destruct (negb (truthy channel_id)); unfold bind, emit, ret, logged;
          cbn; rewrite <- ?app_assoc; reflexivity. }
      split; [exact Dash|]. rewrite Dash.
      destruct (resolver_first_request channel
                  (logged w [ StProgress 0; StStatus FindingChannel;
                              StProgress 10;
                              StInfo (SearchingForChannel channel) ]))
        as [rest R].
      unfold after_resolver.
      destruct (resolver channel _) as [[channel_id|e] w1]; cbn [snd] in *.
      * destruct (negb (truthy channel_id)); cbn [snd];
          eexists; rewrite ?requests_of_logged, R, ?requests_of_logged;
          cbn [requests_of flat_map Datatypes.app];
          rewrite ?app_nil_r, <- ?app_assoc; reflexivity.
      * eexists. rewrite R, ?requests_of_logged.
        cbn [requests_of flat_map Datatypes.app].
        rewrite ?app_nil_r, <- ?app_assoc. reflexivity.
    + intros ->. reflexivity.
Qed.

End EntryPoints.

(** C9, as stated, fails in the dashboard: an empty input is not a
    channel id, yet the resolver is not called, no request is sent. *)
Lemma dashboard_refuses_empty_channel :
  is_channel_id "" = false /\
  dashboard_find_channel unit no_channel_service "" (empty_world tt)
  = (Ok Finished, logged (empty_world tt) [StError PleaseEnterChannel]) /\
  requests_of
    (trace (snd (dashboard_find_channel unit no_channel_service ""
                   (empty_world tt)))) = [].
Proof. repeat split; reflexivity. Qed.

Lemma channel_id_or_resolver_witness :
  (run_find_channel unit no_channel_service "UCuAXFkgsw1L7xaCfnd5JJOw"
     (empty_world tt)
   = (Ok (Proceed (PStr "UCuAXFkgsw1L7xaCfnd5JJOw")),
      logged (empty_world tt) [Print FindingChannel])
   /\
   dashboard_find_channel unit no_channel_service "UCuAXFkgsw1L7xaCfnd5JJOw"
     (empty_world tt)
   = (Ok (Proceed (PStr "UCuAXFkgsw1L7xaCfnd5JJOw")),
      logged (empty_world tt)
        [ StProgress 0; StStatus FindingChannel; StProgress 10;
          StInfo (UsingProvidedChannelId "UCuAXFkgsw1L7xaCfnd5JJOw");
          StSuccess (FoundChannelId (PStr "UCuAXFkgsw1L7xaCfnd5JJOw")) ]))
  /\
  (exists rest,
     requests_of
       (trace (snd (run_find_channel unit no_channel_service "@samplechannel"
                      (empty_world tt))))
     = (requests_of (trace (empty_world tt))
        ++ ChannelsByUsername (str_lstrip "@" "@samplechannel") :: rest)%list)
  /\
  (exists rest,
     requests_of
       (trace (snd (dashboard_find_channel unit no_channel_service
                      "@samplechannel" (empty_world tt))))
     = (requests_of (trace (empty_world tt))
        ++ ChannelsByUsername (str_lstrip "@" "@samplechannel") :: rest)%list)
  /\
  dashboard_find_channel unit no_channel_service "" (empty_world tt)
  = (Ok Finished, logged (empty_world tt) [StError PleaseEnterChannel]).
Proof.
  pose proof (channel_id_or_resolver unit no_channel_service
                "UCuAXFkgsw1L7xaCfnd5JJOw" (empty_world tt)) as [Id _].
  pose proof (channel_id_or_resolver unit no_channel_service
                "@samplechannel" (empty_world tt)) as [_ Name].
  pose proof (channel_id_or_resolver unit no_channel_service
                "" (empty_world tt)) as [_ Empty].
  split; [apply Id; reflexivity|].
  destruct (Name eq_refl) as [[_ Run] [Dash _]].
  split; [exact Run|].
  split; [apply Dash; discriminate|].
  destruct (Empty eq_refl) as [_ [_ E]]. apply E. reflexivity.
Defined.

Example resolver_requests_sample :
  requests_of
    (trace (snd (run_find_channel unit no_channel_service "@samplechannel"
                   (empty_world tt))))
  = [ChannelsByUsername "samplechannel"; SearchChannel "samplechannel"].
Proof. reflexivity. Qed.

(** ** The file read back *)

Lemma str_app_assoc (s t u : string) : (s ++ t) ++ u = s ++ (t ++ u).
Proof. induction s as [|c s IH]; simpl; congruence. Qed.

Lemma str_app_nil_r (s : string) : s ++ "" = s.
Proof. induction s as [|c s IH]; simpl; congruence. Qed.

Lemma str_app_not_empty (s t : string) : t <> "" -> s ++ t <> "".
Proof. destruct s; [auto | discriminate]. Qed.

Lemma not_special (c : ascii) :
  is_special c = false ->
  Ascii.eqb c COMMA = false /\ Ascii.eqb c DQUOTE = false /\ is_newline c = false.
Proof.
  unfold is_special, is_newline.
  destruct (Ascii.eqb c COMMA), (Ascii.eqb c DQUOTE), (Ascii.eqb c CR),
    (Ascii.eqb c LF); cbn; intros; auto; discriminate.
Qed.

Lemma ends_line_plain (c : ascii) (rest : string) :
  is_newline c = false -> rest <> "" -> ends_line c rest = false.
Proof.
  unfold is_newline, ends_line. intros N R.
  destruct rest as [|c' rest]; [congruence|].
  apply orb_false_elim in N as [-> ->]. reflexivity.
Qed.

(** The characters of an unquoted field are added to the field one by
    one. *)
Lemma read_unquoted (s : string) :
  forall (pre : string) (fs : list string) (tail : string),
    needs_quote s = false -> tail <> "" ->
    read_rows (mkReader IN_FIELD pre fs) (s ++ tail)
    = read_rows (mkReader IN_FIELD (pre ++ s) fs) tail.
Proof.
  induction s as [|c s IH]; intros pre fs tail Q T.
  - cbn [append]. now rewrite str_app_nil_r.
  - cbn [needs_quote] in Q. apply orb_false_elim in Q as [Qc Qs].
    destruct (not_special c Qc) as (C1 & C2 & C3).
    change (String c s ++ tail) with (String c (s ++ tail)).
    cbn [read_rows parse_process_char state]. rewrite C3, C1. cbn [rbind].
    rewrite ends_line_plain by auto using str_app_not_empty.
    unfold parse_add_char. cbn [state field fields].
    rewrite IH by assumption. now rewrite str_app_assoc.
Qed.

(** Inside quotes every character is added to the field, a doubled quote
    as one quote, and the ends of lines go by; the closing quote leaves
    the reader waiting for what follows the field. *)
Lemma read_quoted (s : string) :
  forall (pre : string) (fs : list string) (tail : string),
    tail <> "" ->
    read_rows (mkReader IN_QUOTED_FIELD pre fs)
              (double_quotes s ++ String DQUOTE tail)
    = read_rows (mkReader QUOTE_IN_QUOTED_FIELD (pre ++ s) fs) tail.
Proof.
  induction s as [|c s IH]; intros pre fs tail T.
  - cbn [double_quotes append read_rows parse_process_char state].
    rewrite Ascii.eqb_refl. cbn [rbind].
    rewrite ends_line_plain by (auto; reflexivity).
    now rewrite str_app_nil_r.
  - cbn [double_quotes]. destruct (Ascii.eqb c DQUOTE) eqn:E.
    + apply Ascii.eqb_eq in E. subst c.
      change (String DQUOTE (String DQUOTE (double_quotes s)) ++ String DQUOTE tail)
        with (String DQUOTE (String DQUOTE (double_quotes s ++ String DQUOTE tail))).
      cbn [read_rows parse_process_char state set_state].
      rewrite Ascii.eqb_refl. cbn [rbind].
      rewrite ends_line_plain by (reflexivity || discriminate).
      cbn [parse_process_char state set_state field fields].
      rewrite Ascii.eqb_refl. cbn [rbind].
      rewrite ends_line_plain
        by (reflexivity || (apply str_app_not_empty; discriminate)).
      unfold parse_add_char, set_state. cbn [state field fields].
      rewrite IH by assumption. now rewrite str_app_assoc.
    + change (String c (double_quotes s) ++ String DQUOTE tail)
        with (String c (double_quotes s ++ String DQUOTE tail)).
      cbn [read_rows parse_process_char state]. rewrite E. cbn [rbind].
      unfold parse_add_char. cbn [state field fields].
      assert (Next : read_rows (mkReader IN_QUOTED_FIELD (pre ++ String c "") fs)
                       (double_quotes s ++ String DQUOTE tail)
                     = read_rows (mkReader QUOTE_IN_QUOTED_FIELD (pre ++ String c s) fs)
                         tail)
        by (rewrite IH by assumption; now rewrite str_app_assoc).
      destruct (ends_line c _); cbn; exact Next.
Qed.

Lemma field_end_done (st : reader_state) (s : string) :
  st = START_RECORD \/ st = START_FIELD -> field_done (field_end st s) s.
Proof.
  unfold field_end. intros [-> | ->];
    destruct (needs_quote s); cbn; auto; destruct s; cbn; auto.
Qed.

(** A field as [csv_field] writes it, read from the beginning of a
    field. *)
Lemma field_body (st : reader_state) (s : string) (fs : list string)
    (tail : string) :
  st = START_RECORD \/ st = START_FIELD -> tail <> "" ->
  read_rows (mkReader st "" fs) (csv_field s ++ tail)
  = read_rows (mkReader (field_end st s) s fs) tail.
Proof.
  intros St T. unfold csv_field, field_end.
  destruct (needs_quote s) eqn:Q.
  - change (String DQUOTE (double_quotes s ++ String DQUOTE "") ++ tail)
      with (String DQUOTE ((double_quotes s ++ String DQUOTE "") ++ tail)).
    rewrite str_app_assoc. cbn [append].
    assert (First : parse_process_char (mkReader st "" fs) DQUOTE
                    = Ok (mkReader IN_QUOTED_FIELD "" fs))
      by (destruct St as [-> | ->]; reflexivity).
    cbn [read_rows]. rewrite First. cbn [rbind].
    rewrite ends_line_plain
      by (reflexivity || (apply str_app_not_empty; discriminate)).
    now rewrite read_quoted.
  - destruct s as [|c s]; [reflexivity|].
    cbn [needs_quote] in Q. apply orb_false_elim in Q as [Qc Qs].
    destruct (not_special c Qc) as (C1 & C2 & C3).
    change (String c s ++ tail) with (String c (s ++ tail)).
    assert (First : parse_process_char (mkReader st "" fs) c
                    = Ok (mkReader IN_FIELD (String c "") fs)).
    { destruct St as [-> | ->];
        cbn [parse_process_char state set_state]; unfold start_field;
        rewrite C3, C2, C1; reflexivity. }
    cbn [read_rows]. rewrite First. cbn [rbind].
    rewrite ends_line_plain by auto using str_app_not_empty.
    now rewrite read_unquoted.
Qed.

(** The comma after a field saves the field. *)
Lemma comma_after_field (st : reader_state) (f : string) (fs : list string)
    (tail : string) :
  field_done st f -> tail <> "" ->
  read_rows (mkReader st f fs) (String COMMA tail)
  = read_rows (mkReader START_FIELD "" (fs ++ [f])) tail.
Proof.
  intros D T. cbn [read_rows].
  rewrite (ends_line_plain COMMA tail) by (reflexivity || assumption).
  destruct st; cbn in D; try contradiction; subst; reflexivity.
Qed.

(** The line terminator after the last field saves the field and gives
    the row. *)
Lemma crlf_after_field (st : reader_state) (f : string) (fs : list string)
    (rest : string) :
  field_done st f -> st <> START_RECORD ->
  read_rows (mkReader st f fs) (CRLF ++ rest)
  = (try! rows <- read_rows parse_reset rest; Ok ((fs ++ [f])%list :: rows)).
Proof.
  intros D S.
  destruct st; cbn in D; try contradiction; try congruence; subst;
    destruct rest; reflexivity.
Qed.

Lemma field_end_not_start (s : string) :
  field_end START_FIELD s <> START_RECORD.
Proof.
  unfold field_end. destruct (needs_quote s); [discriminate|].
  destruct s; discriminate.
Qed.

(** The fields of a row from the second on, the reader being just past a
    comma. *)
Lemma read_cells (cells : list string) :
  cells <> [] ->
  forall (fs : list string) (rest : string),
    read_rows (mkReader START_FIELD "" fs)
              (str_join "," (map csv_field cells) ++ CRLF ++ rest)
    = (try! rows <- read_rows parse_reset rest; Ok ((fs ++ cells)%list :: rows)).
Proof.
  induction cells as [|c cells IH]; [congruence|]. intros _ fs rest.
  destruct cells as [|c' more].
  - cbn [map str_join String.concat].
    rewrite field_body by (auto; discriminate).
    apply crlf_after_field;
      [apply field_end_done; auto | apply field_end_not_start].
  - change (str_join "," (map csv_field (c :: c' :: more)))
      with (csv_field c ++ String COMMA (str_join "," (map csv_field (c' :: more)))).
    rewrite str_app_assoc.
    change (String COMMA (str_join "," (map csv_field (c' :: more))) ++ CRLF ++ rest)
      with (String COMMA (str_join "," (map csv_field (c' :: more)) ++ CRLF ++ rest)).
    rewrite field_body by (auto; discriminate).
    rewrite comma_after_field
      by (try (apply field_end_done; auto);
          apply str_app_not_empty; discriminate).
    rewrite IH by discriminate.
    now rewrite <- app_assoc.
Qed.

Lemma csv_writerow_fields (c1 c2 : string) (more : list string) :
  csv_writerow (c1 :: c2 :: more)
  = str_join "," (map csv_field (c1 :: c2 :: more)) ++ CRLF.
Proof. destruct c1; reflexivity. Qed.

(** A row of at least two fields, written and read back. *)
Lemma read_row (cells : list string) (rest : string) :
  (2 <= List.length cells)%nat ->
  read_rows parse_reset (csv_writerow cells ++ rest)
  = (try! rows <- read_rows parse_reset rest; Ok (cells :: rows)).
Proof.
  destruct cells as [|c1 [|c2 more]]; cbn [List.length]; try lia. intros _.
  rewrite csv_writerow_fields, str_app_assoc.
  change (str_join "," (map csv_field (c1 :: c2 :: more)))
    with (csv_field c1 ++ String COMMA (str_join "," (map csv_field (c2 :: more)))).
  rewrite str_app_assoc.
  change (String COMMA (str_join "," (map csv_field (c2 :: more))) ++ CRLF ++ rest)
    with (String COMMA (str_join "," (map csv_field (c2 :: more)) ++ CRLF ++ rest)).
  unfold parse_reset.
  rewrite field_body by (auto; discriminate).
  rewrite comma_after_field
    by (try (apply field_end_done; auto);
        apply str_app_not_empty; discriminate).
  now rewrite read_cells by discriminate.
Qed.

Lemma no_wrong_fields (keys : list string) :
  Forall (fun k => In k fieldnames) keys ->
  filter (fun k => negb (existsb (String.eqb k) fieldnames)) keys = [].
Proof.
  induction 1 as [|k keys Hk _ IH]; [reflexivity|].
  cbn [filter].
  assert (E : existsb (String.eqb k) fieldnames = true).
  { apply existsb_exists. exists k. split; [assumption|]. apply String.eqb_refl. }
  now rewrite E.
Qed.

(** The test on the field names, run. *)
Lemma no_extra_fields_check (rowdict : dict) :
  forallb (fun k => existsb (String.eqb k) fieldnames) (map fst rowdict) = true ->
  no_extra_fields rowdict.
Proof.
  unfold no_extra_fields. intros H.
  apply Forall_forall. intros k Hk.
  rewrite forallb_forall in H. specialize (H k Hk).
  apply existsb_exists in H as (k' & In' & E).
  apply String.eqb_eq in E. now subst k'.
Qed.

Lemma combine_map_self {A B} (f : A -> B) (l : list A) :
  combine l (map f l) = map (fun a => (a, f a)) l.
Proof. induction l as [|a l IH]; simpl; congruence. Qed.

(** What [str] prints for an integer is its numeral. *)
Lemma nzhead_no_zero (d u : uint) : nzhead d <> D0 u.
Proof. induction d; cbn [nzhead]; try discriminate. exact IHd. Qed.

Lemma unorm_no_leading_zero (d u : uint) : unorm d = D0 u -> u = Nil.
Proof.
  unfold unorm. pose proof (nzhead_no_zero d) as N.
  destruct (nzhead d) as [|v|v|v|v|v|v|v|v|v|v]; try discriminate.
  - intros E. now injection E as <-.
  - intros _. exfalso. now apply (N v).
Qed.

Lemma decimal_canonical (n : N) :
  decimal n = "0" \/ String.prefix "0" (decimal n) = false.
Proof.
  unfold decimal.
  pose proof (DecimalN.Unsigned.to_of (N.to_uint n)) as U.
  rewrite DecimalN.Unsigned.of_to in U.
  destruct (N.to_uint n) as [|u|u|u|u|u|u|u|u|u|u].
  - symmetry in U. now apply DecimalFacts.unorm_nonnil in U.
  - left. now rewrite (unorm_no_leading_zero _ _ (eq_sym U)).
  - right. cbn [NilEmpty.string_of_uint]. now rewrite prefix_cons.
  - right. cbn [NilEmpty.string_of_uint]. now rewrite prefix_cons.
  - right. cbn [NilEmpty.string_of_uint]. now rewrite prefix_cons.
  - right. cbn [NilEmpty.string_of_uint]. now rewrite prefix_cons.
  - right. cbn [NilEmpty.string_of_uint]. now rewrite prefix_cons.
  - right. cbn [NilEmpty.string_of_uint]. now rewrite prefix_cons.
  - right. cbn [NilEmpty.string_of_uint]. now rewrite prefix_cons.
  - right. cbn [NilEmpty.string_of_uint]. now rewrite prefix_cons.
  - right. cbn [NilEmpty.string_of_uint]. now rewrite prefix_cons.
Qed.

Lemma decimal_numeral (n : N) : numeral (Z.of_N n) (decimal n).
Proof.
  split; [apply decimal_bare|].
  split; [apply digits_value_decimal | apply decimal_canonical].
Qed.

Lemma string_of_pos (p : positive) :
  NilZero.string_of_uint (Pos.to_uint p) = decimal (N.pos p).
Proof.
  unfold decimal, NilZero.string_of_uint. cbn [N.to_uint].
  pose proof (DecimalPos.Unsigned.to_uint_nonnil p) as NN.
  now destruct (Pos.to_uint p).
Qed.

Lemma py_str_int_text (z : Z) :
  if z <? 0
  then exists ds, py_str_int z = String "-" ds /\ numeral (- z) ds
  else numeral z (py_str_int z).
Proof.
  destruct z as [|p|p].
  - exact (decimal_numeral 0).
  - change (numeral (Z.pos p) (NilZero.string_of_uint (Pos.to_uint p))).
    rewrite string_of_pos. exact (decimal_numeral (N.pos p)).
  - change (exists ds,
              String "-" (NilZero.string_of_uint (Pos.to_uint p))
              = String "-" ds /\ numeral (Z.pos p) ds).
    exists (decimal (N.pos p)). rewrite string_of_pos.
    split; [reflexivity | exact (decimal_numeral (N.pos p))].
Qed.

Section CsvFacts.

Variable repr_container : pyval -> string.

Local Notation "'cells_of'" := (record_cells repr_container).

Lemma dict_to_list_cells (rowdict : dict) :
  no_extra_fields rowdict ->
  exists values,
    dict_to_list rowdict = Ok values /\
    map (csv_cell repr_container) values = cells_of rowdict.
Proof.
  intros N. unfold dict_to_list. rewrite (no_wrong_fields _ N).
  eexists. split; [reflexivity|].
  unfold record_cells. now rewrite map_map.
Qed.

Lemma writerows_text (videos_data : list dict) :
  Forall no_extra_fields videos_data ->
  forall written,
    writerows repr_container videos_data written
    = (written ++ rows_text repr_container videos_data, None).
Proof.
  induction 1 as [|rowdict rest N _ IH]; intros written.
  - cbn. now rewrite str_app_nil_r.
  - cbn [writerows rows_text].
    destruct (dict_to_list_cells rowdict N) as (values & D & C).
    rewrite D, C, IH. now rewrite str_app_assoc.
Qed.

Lemma read_rows_text (videos_data : list dict) :
  read_rows parse_reset (rows_text repr_container videos_data)
  = Ok (map cells_of videos_data).
Proof.
  induction videos_data as [|rowdict rest IH]; [reflexivity|].
  cbn [rows_text map].
  rewrite read_row by (unfold record_cells; rewrite length_map; cbn; lia).
  now rewrite IH.
Qed.

(** The text written for a field is the text of that field. *)
Lemma cell_field_text (rowdict : dict) (k : string) :
  field_text repr_container (dict_get rowdict k)
    (csv_cell repr_container (dict_get_default rowdict k (PStr ""))).
Proof.
  unfold dict_get_default.
  destruct (dict_get rowdict k) as [[|b|z|s|l|d]|];
    cbn [field_text csv_cell py_str]; try reflexivity.
  apply py_str_int_text.
Qed.

Lemma record_cells_row (rowdict : dict) :
  row_of_record repr_container rowdict (cells_of rowdict).
Proof.
  unfold row_of_record, record_cells. generalize fieldnames as keys.
  induction keys as [|k keys IH]; cbn [map]; constructor;
    [apply cell_field_text | exact IH].
Qed.

Lemma records_cells_rows (videos_data : list dict) :
  Forall2 (row_of_record repr_container) videos_data
          (map cells_of videos_data).
Proof.
  induction videos_data as [|rowdict rest IH]; cbn [map]; constructor;
    [apply record_cells_row | exact IH].
Qed.

(** The records the flattening builds have the twelve fields of the
    file, in the order of the header. *)
Lemma flatten_fieldnames (video : pyval) (r : dict) :
  _process_video_data repr_container video = Ok r ->
  map fst r = fieldnames /\ no_extra_fields r.
Proof.
  intros H.
  destruct (flatten_inv repr_container video r H)
    as (snippet & statistics & pa & pd & duration & tags & raw & title & vid
        & _ & _ & _ & _ & _ & _ & _ & _ & ->).
  split; [reflexivity|].
  apply no_extra_fields_check. reflexivity.
Qed.

(** C8. [export_to_csv] writes a file made of the header row, the twelve
    field names in their fixed order, followed by one row per record; read
    back, the file gives the header and as many rows as records, in order,
    and each row matches its record field for field: under each field
    name it holds the field itself when that is a str, its decimal
    numeral when it is an integer, and nothing when it is [None] or
    absent. *)
Theorem csv_round_trip (W : Type) (videos_data : list dict)
    (filename : option string) (w : world W) :
  Forall no_extra_fields videos_data ->
  exists name text,
    export_to_csv repr_container W videos_data filename w
    = (Ok name,
       mkWorld (remote w) (trace w) ((name, text) :: files w) (clock w)) /\
    (forall f, filename = Some f -> f <> "" -> name = f) /\
    read_file ((name, text) :: files w) name = Some text /\
    text = csv_writerow fieldnames ++ rows_text repr_container videos_data /\
    csv_reader text = Ok (fieldnames :: map cells_of videos_data) /\
    List.length (map cells_of videos_data) = List.length videos_data /\
    map (keyed fieldnames) (map cells_of videos_data)
    = map (fun rowdict =>
             map (fun k => (k, csv_cell repr_container
                                 (dict_get_default rowdict k (PStr ""))))
                 fieldnames)
          videos_data /\
    Forall2 (row_of_record repr_container) videos_data
            (map cells_of videos_data).
Proof.
  intros N. unfold export_to_csv.
  rewrite (writerows_text videos_data N).
  eexists. eexists. split; [reflexivity|].
  split.
  { intros f -> NE. cbn [truthy].
    destruct (String.eqb_spec f ""); [congruence | reflexivity]. }
  split; [cbn [read_file]; now rewrite String.eqb_refl|].
  split; [reflexivity|].
  split.
  - unfold csv_reader.
    change (csv_writerow (map (csv_cell repr_container) (map PStr fieldnames)))
      with (csv_writerow fieldnames).
    rewrite read_row by (cbn; lia).
    now rewrite read_rows_text.
  - split; [apply length_map|].
    split; [|apply records_cells_rows].
    rewrite map_map. apply map_ext. intros rowdict.
    unfold keyed, record_cells. apply combine_map_self.
Qed.

End CsvFacts.

Lemma csv_round_trip_witness :
  exists name text,
    export_to_csv (fun _ => "") unit [sample_record; awkward_record]
      (Some "export.csv") (empty_world tt)
    = (Ok name,
       mkWorld tt [] ((name, text) :: []) "20240101_120000") /\
    (forall f, Some "export.csv" = Some f -> f <> "" -> name = f) /\
    read_file ((name, text) :: []) name = Some text /\
    text = csv_writerow fieldnames
           ++ rows_text (fun _ => "") [sample_record; awkward_record] /\
    csv_reader text
    = Ok (fieldnames
          :: map (record_cells (fun _ => "")) [sample_record; awkward_record]) /\
    List.length (map (record_cells (fun _ => "")) [sample_record; awkward_record])
    = List.length [sample_record; awkward_record] /\
    map (keyed fieldnames)
        (map (record_cells (fun _ => "")) [sample_record; awkward_record])
    = map (fun rowdict =>
             map (fun k => (k, csv_cell (fun _ => "")
                                 (dict_get_default rowdict k (PStr ""))))
                 fieldnames)
          [sample_record; awkward_record] /\
    Forall2 (row_of_record (fun _ => "")) [sample_record; awkward_record]
            (map (record_cells (fun _ => "")) [sample_record; awkward_record]).
Proof.
  apply (csv_round_trip (fun _ => "") unit [sample_record; awkward_record]
           (Some "export.csv") (empty_world tt)).
  apply Forall_cons; [apply no_extra_fields_check; reflexivity|].
  apply Forall_cons; [apply no_extra_fields_check; reflexivity|].
  apply Forall_nil.
Defined.

(** The same two records, by running the writer and the reader. *)
Example csv_round_trip_sample :
  csv_reader
    (csv_writerow fieldnames
     ++ rows_text (fun _ => "") [sample_record; awkward_record])
  = Ok [ fieldnames;
         [ "Sample video"; "dQw4w9WgXcQ";
           "https://www.youtube.com/watch?v=dQw4w9WgXcQ"; "1200"; "0"; "7";
           "2009-10-25"; "213"; "first line second line"; "music,live";
           "first line second line"; "first line second line" ];
         [ "He said " ++ String DQUOTE "hi" ++ String DQUOTE ", twice";
           "abc,def"; "https://www.youtube.com/watch?v=abc,def"; "0"; "";
           "12"; ""; "45";
           "one" ++ String CR (String LF "two") ++ String CR "three";
           "a,b"; String LF ""; "" ] ].
Proof. vm_compute. reflexivity. Qed.

(** A record with a field the file does not have is rejected; the header
    and the rows before it are in the file all the same. *)
Example export_rejects_extra_field :
  export_to_csv (fun _ => "") unit
    [sample_record; (("channel_name", PStr "mkbhd") :: sample_record)]
    (Some "export.csv") (empty_world tt)
  = (Raise ValueError,
     mkWorld tt []
       [("export.csv",
         csv_writerow fieldnames ++ rows_text (fun _ => "") [sample_record])]
       "20240101_120000").
Proof. vm_compute. reflexivity. Qed.

(** * Further properties *)

(** ** More on durations *)

Lemma digit_value_range (c : ascii) :
  is_digit c = true -> 0 <= digit_value c <= 9.
Proof.
  unfold is_digit, digit_value. intros H. apply andb_prop in H as [Lo Hi].
  apply Nat.leb_le in Lo, Hi. lia.
Qed.

Lemma digits_value_from_nonneg (ds : string) :
  forall acc, 0 <= acc -> str_forall is_digit ds = true ->
              0 <= digits_value_from acc ds.
Proof.
  induction ds as [|c ds IH]; intros acc A D; [exact A|].
  cbn [digits_value_from str_forall] in *. apply andb_prop in D as [Dc Dds].
  apply IH; [|assumption]. pose proof (digit_value_range c Dc). lia.
Qed.

(** What the patterns capture is a bare integer. *)
Lemma match_digits_bare (x : ascii) (s : string) :
  forall g, match_digits_then x s = Some g -> bare_integer g.
Proof.
  induction s as [|d s IH]; intros g H; [discriminate|].
  cbn [match_digits_then] in H.
  destruct (is_digit d) eqn:D; [|discriminate].
  destruct (match_digits_then x s) as [ds|].
  - injection H as <-. destruct (IH ds eq_refl) as [B _].
    split; [cbn; now rewrite D, B | discriminate].
  - destruct s as [|c s']; [discriminate|].
    destruct (Ascii.eqb c x); [|discriminate].
    injection H as <-. split; [cbn; now rewrite D | discriminate].
Qed.

Lemma search_bare (x : ascii) (s : string) :
  forall g, re_search_digits_then x s = Some g -> bare_integer g.
Proof.
  induction s as [|c s IH]; intros g H; cbn [re_search_digits_then] in H.
  - discriminate.
  - destruct (match_digits_then x (String c s)) as [g'|] eqn:M.
    + injection H as <-. eapply match_digits_bare; eassumption.
    + auto.
Qed.

Lemma parse_component_outcome (marker : ascii) (unit_seconds total : Z)
    (duration : string) :
  0 <= unit_seconds ->
  match parse_component marker unit_seconds duration total with
  | Ok n => total <= n
  | Raise e => e = AttributeError
  end.
Proof.
  intros U. unfold parse_component, search_group1.
  destruct (str_contains _ _); [|cbn; lia].
  destruct (re_search_digits_then marker duration) as [g|] eqn:S;
    [|reflexivity].
  cbn [rbind]. pose proof (search_bare _ _ _ S) as B.
  rewrite (py_int_digits g B). cbn [rbind].
  pose proof (digits_value_from_nonneg g 0 (Z.le_refl 0) (proj1 B)).
  unfold digits_value. nia.
Qed.

(** A duration that parses is a non-negative number of seconds. *)
Lemma parse_duration_nonneg (duration : string) (seconds : Z) :
  _parse_duration duration = Ok seconds -> 0 <= seconds.
Proof.
  unfold _parse_duration.
  set (d := str_replace "PT" "" duration).
  pose proof (parse_component_outcome "H" 3600 0 d) as H.
  destruct (parse_component "H" 3600 d 0) as [t1|e]; cbn [rbind];
    [|discriminate].
  pose proof (parse_component_outcome "M" 60 t1 d) as M.
  destruct (parse_component "M" 60 d t1) as [t2|e]; cbn [rbind];
    [|discriminate].
  pose proof (parse_component_outcome "S" 1 t2 d) as S.
  destruct (parse_component "S" 1 d t2) as [t3|e]; cbn [rbind];
    [|discriminate].
  intros E. injection E as <-.
  specialize (H ltac:(lia)). specialize (M ltac:(lia)).
  specialize (S ltac:(lia)). lia.
Qed.

(** X1. Given a string of at most 4300 characters, so that no number in
    it is longer than [int] converts, [_parse_duration] returns a
    non-negative number of seconds or raises [AttributeError], nothing
    else: [int] does not fail on the digits the patterns capture. *)
Theorem parse_duration_outcome (duration : string) :
  (String.length duration <= int_max_str_digits)%nat ->
  match _parse_duration duration with
  | Ok seconds => 0 <= seconds
  | Raise e => e = AttributeError
  end.
Proof.
  intros _. unfold _parse_duration.
  set (d := str_replace "PT" "" duration).
  pose proof (parse_component_outcome "H" 3600 0 d) as H.
  destruct (parse_component "H" 3600 d 0) as [t1|e]; cbn [rbind];
    [|apply H; lia].
  pose proof (parse_component_outcome "M" 60 t1 d) as M.
  destruct (parse_component "M" 60 d t1) as [t2|e]; cbn [rbind];
    [|apply M; lia].
  pose proof (parse_component_outcome "S" 1 t2 d) as S.
  destruct (parse_component "S" 1 d t2) as [t3|e]; cbn [rbind];
    [|apply S; lia].
  specialize (H ltac:(lia)). specialize (M ltac:(lia)).
  specialize (S ltac:(lia)). lia.
Qed.

Lemma parse_duration_outcome_witness :
  match _parse_duration "PT1H30M" with
  | Ok seconds => 0 <= seconds
  | Raise e => e = AttributeError
  end.
Proof.
  apply (parse_duration_outcome "PT1H30M").
  unfold int_max_str_digits. cbn [String.length]. lia.
Defined.

(** Removing text never adds a character. *)
Lemma replace_removes (old : string) (p : ascii -> bool) (s : string) :
  forall skip,
    str_forall p s = true ->
    str_forall p (str_replace_from old "" skip s) = true.
Proof.
  induction s as [|c s IH]; intros skip H; [reflexivity|].
  cbn [str_forall] in H. apply andb_prop in H as [Hc Hs].
  cbn [str_replace_from]. destruct skip as [|k]; [|auto].
  destruct (String.prefix old (String c s)).
  - cbn [append]. auto.
  - cbn [str_forall]. rewrite Hc. cbn [andb]. auto.
Qed.

Lemma contains_none (x : ascii) (s : string) :
  str_forall (fun c => negb (Ascii.eqb c x)) s = true ->
  str_contains (String x "") s = false.
Proof.
  induction s as [|c s IH]; [reflexivity|].
  cbn [str_forall]. intros H. apply andb_prop in H as [Hc Hs].
  rewrite contains_cons, IH by assumption.
  apply negb_true_iff in Hc. now rewrite Hc.
Qed.

Lemma str_forall_weaken (p q : ascii -> bool) (s : string) :
  (forall c, p c = true -> q c = true) ->
  str_forall p s = true -> str_forall q s = true.
Proof.
  intros PQ. induction s as [|c s IH]; [reflexivity|].
  cbn [str_forall]. intros H. apply andb_prop in H as [Hc Hs].
  now rewrite (PQ c Hc), IH.
Qed.

Lemma not_marker (c : ascii) :
  negb (is_marker c) = true ->
  negb (Ascii.eqb c "H") = true /\ negb (Ascii.eqb c "M") = true
  /\ negb (Ascii.eqb c "S") = true.
Proof.
  unfold is_marker.
  destruct (Ascii.eqb c "H"), (Ascii.eqb c "M"), (Ascii.eqb c "S");
    cbn; intros; auto; discriminate.
Qed.

(** X2. A string in which none of the letters H, M and S occurs is a
    duration of 0 seconds, whatever else it holds. *)
Theorem parse_duration_no_marker (duration : string) :
  str_forall (fun c => negb (is_marker c)) duration = true ->
  _parse_duration duration = Ok 0.
Proof.
  intros H. unfold _parse_duration, parse_component, str_replace.
  rewrite !contains_none; [reflexivity|..];
    apply replace_removes;
    (eapply str_forall_weaken; [|exact H]); intros c Hc;
    apply (not_marker c Hc).
Qed.

Lemma parse_duration_no_marker_witness :
  _parse_duration "P3DT" = Ok 0.
Proof. apply parse_duration_no_marker. reflexivity. Defined.

Lemma no_digit_no_search (x : ascii) (s : string) :
  str_forall (fun c => negb (is_digit c)) s = true ->
  re_search_digits_then x s = None.
Proof.
  induction s as [|c s IH]; [reflexivity|].
  cbn [str_forall]. intros H. apply andb_prop in H as [Hc Hs].
  apply negb_true_iff in Hc.
  cbn [re_search_digits_then match_digits_then]. rewrite Hc. auto.
Qed.

(** Removing every [PT] neither adds nor removes another letter. *)
Lemma contains_replace_PT (x : ascii) :
  Ascii.eqb x "P" = false -> Ascii.eqb x "T" = false ->
  forall (n : nat) (s : string),
    (String.length s <= n)%nat ->
    str_contains (String x "") (str_replace_from "PT" "" 0 s)
    = str_contains (String x "") s.
Proof.
  intros XP XT. induction n as [|n IH]; intros s L.
  - destruct s; [reflexivity | simpl in L; lia].
  - destruct s as [|c s]; [reflexivity|].
    cbn [str_replace_from]. rewrite prefix_cons.
    destruct (Ascii.eqb "P" c) eqn:P; cbn [andb].
    + apply Ascii.eqb_eq in P. subst c.
      destruct s as [|c' s']; [reflexivity|].
      rewrite prefix_cons, prefix_nil, andb_true_r.
      destruct (Ascii.eqb "T" c') eqn:T.
      * apply Ascii.eqb_eq in T. subst c'.
        cbn [append String.length Nat.sub str_replace_from].
        rewrite !contains_cons, (Ascii.eqb_sym "P" x), (Ascii.eqb_sym "T" x),
          XP, XT.
        cbn [orb]. apply IH. cbn [String.length] in *. lia.
      * rewrite !contains_cons. f_equal.
        rewrite <- (contains_cons x c' s'). apply IH.
        cbn [String.length] in *. lia.
    + rewrite !contains_cons. f_equal. apply IH.
      cbn [String.length] in *. lia.
Qed.

(** X3. A string without any digit in which a marker H, M or S occurs
    makes [_parse_duration] raise [AttributeError]: a marker with no
    number before it is not counted as 0. *)
Theorem parse_duration_marker_without_number (duration : string) :
  str_forall (fun c => negb (is_digit c)) duration = true ->
  has_marker duration = true ->
  _parse_duration duration = Raise AttributeError.
Proof.
  intros D Mk. unfold _parse_duration, parse_component, search_group1, str_replace.
  assert (D' : str_forall (fun c => negb (is_digit c))
                 (str_replace_from "PT" "" 0 duration) = true)
    by now apply replace_removes.
  rewrite !(no_digit_no_search _ _ D').
  rewrite (contains_replace_PT "H" eq_refl eq_refl (String.length duration)),
    (contains_replace_PT "M" eq_refl eq_refl (String.length duration)),
    (contains_replace_PT "S" eq_refl eq_refl (String.length duration))
    by lia.
  unfold has_marker in Mk.
  destruct (str_contains "H" duration); [reflexivity|].
  destruct (str_contains "M" duration); [reflexivity|].
  destruct (str_contains "S" duration); [reflexivity|discriminate].
Qed.

Lemma parse_duration_marker_without_number_witness :
  _parse_duration "PTM" = Raise AttributeError.
Proof.
  apply parse_duration_marker_without_number; reflexivity.
Defined.

(** ** More on the flattening *)

Lemma no_newline_after_map (s : string) :
  str_forall (fun c => negb (Ascii.eqb c LF)) (str_map newline_to_space s) = true.
Proof.
  induction s as [|c s IH]; [reflexivity|].
  cbn [str_map str_forall]. rewrite IH, andb_true_r.
  unfold newline_to_space. destruct (Ascii.eqb c LF) eqn:E; [reflexivity|].
  now rewrite E.
Qed.

Section FlattenMore.

Variable repr_container : pyval -> string.

Local Notation "'flatten'" := (_process_video_data repr_container).

(** The duration of a record is what [_parse_duration] made of the
    payload's duration. *)
Lemma flatten_duration (video : pyval) (r : dict) :
  flatten video = Ok r ->
  exists (duration : string) (seconds : Z),
    _parse_duration duration = Ok seconds /\
    dict_get r "duration_seconds" = Some (PInt seconds).
Proof.
  unfold _process_video_data. intros H.
  repeat invert_bind H. injection H as <-.
  match goal with
  | E : parse_duration_of ?v = Ok ?d |- _ =>
      destruct v; try discriminate E; cbn [parse_duration_of] in E;
      eexists; exists d; split; [exact E | reflexivity]
  end.
Qed.

(** X4. Every record the flattening returns has the twelve fields of the
    file in the order of the header; its [duration_seconds] is a
    non-negative integer, its [url], [description] and [tags] are
    strings, and its description holds no line feed. *)
Theorem flatten_record_shape (video : pyval) (r : dict) :
  flatten video = Ok r ->
  map fst r = fieldnames /\
  exists (seconds : Z) (url description tags : string),
    dict_get r "duration_seconds" = Some (PInt seconds) /\
    0 <= seconds /\
    dict_get r "url" = Some (PStr url) /\
    dict_get r "description" = Some (PStr description) /\
    dict_get r "tags" = Some (PStr tags) /\
    str_forall (fun c => negb (Ascii.eqb c LF)) description = true.
Proof.
  intros H. split; [apply (flatten_fieldnames repr_container video r H)|].
  destruct (flatten_duration video r H) as (duration & seconds & P & Dur).
  pose proof (parse_duration_nonneg duration _ P) as Out.
  destruct (flatten_inv repr_container video r H)
    as (snippet & statistics & pa & pd & d & tags & raw & title & vid
        & _ & _ & _ & _ & _ & _ & _ & _ & ->).
  exists seconds, (watch_url_prefix ++ py_str repr_container vid),
    (str_replace (String LF "") " " raw), tags.
  repeat split; try assumption; try reflexivity.
  rewrite replace_newline_map. apply no_newline_after_map.
Qed.

(** X5. A payload that is not a JSON object makes the flattening raise
    [TypeError]; an object that lacks [snippet], [statistics] or
    [contentDetails] makes it raise [KeyError], whatever else it holds. *)
Theorem flatten_missing_part :
  (forall video : pyval,
     (forall d, video <> PDict d) -> flatten video = Raise TypeError)
  /\
  (forall video : dict,
     dict_get video "snippet" = None \/
     dict_get video "statistics" = None \/
     dict_get video "contentDetails" = None ->
     flatten (PDict video) = Raise KeyError).
Proof.
  split.
  - intros video N. destruct video; try reflexivity. now destruct (N d).
  - intros video H. unfold _process_video_data. cbn [py_getitem].
    destruct (dict_get video "snippet"); [|reflexivity].
    destruct (dict_get video "statistics"); [|reflexivity].
    destruct (dict_get video "contentDetails"); [|reflexivity].
    destruct H as [H | [H | H]]; discriminate H.
Qed.

End FlattenMore.

Lemma flatten_record_shape_witness :
  map fst sample_record = fieldnames /\
  exists (seconds : Z) (url description tags : string),
    dict_get sample_record "duration_seconds" = Some (PInt seconds) /\
    0 <= seconds /\
    dict_get sample_record "url" = Some (PStr url) /\
    dict_get sample_record "description" = Some (PStr description) /\
    dict_get sample_record "tags" = Some (PStr tags) /\
    str_forall (fun c => negb (Ascii.eqb c LF)) description = true.
Proof.
  apply (flatten_record_shape (fun _ => "") (PDict sample_video) sample_record).
  reflexivity.
Defined.

Lemma flatten_missing_part_witness :
  _process_video_data (fun _ => "") (PList []) = Raise TypeError /\
  _process_video_data (fun _ => "")
    (PDict [("id", PStr "dQw4w9WgXcQ"); ("snippet", PDict sample_snippet)])
  = Raise KeyError.
Proof.
  split.
  - apply (proj1 (flatten_missing_part (fun _ => ""))). discriminate.
  - apply (proj2 (flatten_missing_part (fun _ => ""))). right. left. reflexivity.
Defined.

(** ** More on collecting the identifiers *)

Lemma slice_to_nil {A} (n : Z) : slice_to n (@nil A) = [].
Proof. unfold slice_to. destruct (0 <=? n); apply firstn_nil. Qed.

Lemma not_http_video_id (item : pyval) : not_http (video_id_of_item item).
Proof.
  unfold video_id_of_item.
  apply not_http_bind; [apply not_http_getitem | intros; apply not_http_getitem].
Qed.

Lemma append_video_ids_error (items video_ids video_ids' : list pyval) (e : exn) :
  append_video_ids video_ids items = (video_ids', Some e) ->
  forall msg, e <> HttpError msg.
Proof.
  revert video_ids. induction items as [|item items IH]; intros video_ids H.
  - discriminate.
  - cbn [append_video_ids] in H.
    pose proof (not_http_video_id item) as NH. unfold video_id_of_item in NH.
    destruct (try! id <- py_getitem item "id"; py_getitem id "videoId") as [v|x].
    + eauto.
    + injection H as _ <-. intros msg E. subst x. now apply (NH msg).
Qed.

Lemma append_video_ids_stops (items : list pyval) :
  Exists (fun item => exists e, video_id_of_item item = Raise e) items ->
  forall video_ids,
    exists video_ids' e, append_video_ids video_ids items = (video_ids', Some e).
Proof.
  induction 1 as [item items [e E] | item items _ IH]; intros video_ids;
    cbn [append_video_ids].
  - unfold video_id_of_item in E. rewrite E. eauto.
  - destruct (try! id <- py_getitem item "id"; py_getitem id "videoId");
      eauto.
Qed.

Section CollectorMore.

Variable W : Type.
Variable self : YouTubeExporter W.
Variable channel_id : pyval.
Variable max_results : Z.

Local Notation "'pages'" := (collect_pages W self channel_id max_results).

(** X6. With a target that is zero or negative, [get_channel_videos]
    returns the empty list and sends no request: the world is left as it
    was. *)
Theorem no_request_without_target (fuel : nat) (w : world W) :
  max_results <= 0 ->
  get_channel_videos W self fuel channel_id max_results w = Some (Ok [], w).
Proof.
  intros N. unfold get_channel_videos.
  assert (E : pages fuel [] PNone w = Some ([], None, w)).
  { destruct fuel; cbn [collect_pages List.length];
      destruct (Z.ltb_spec (Z.of_nat 0) max_results); (lia || reflexivity). }
  rewrite E. now rewrite slice_to_nil.
Qed.

(** The requests of the loop, from any state of its variables. *)
Lemma collect_pages_requests (fuel : nat) :
  forall (video_ids : list pyval) (token : pyval) (w : world W)
         (video_ids' : list pyval) (e : option exn) (w' : world W),
    pages fuel video_ids token w = Some (video_ids', e, w') ->
    exists new,
      requests_of (trace w') = (requests_of (trace w) ++ new)%list /\
      Forall (search_request_ok channel_id max_results) new /\
      Z.of_nat (List.length new)
        <= Z.max 0 (max_results - Z.of_nat (List.length video_ids)).
Proof.
  induction fuel as [|fuel IH]; intros video_ids token w video_ids' e w' H;
    cbn [collect_pages] in H;
    (destruct (Z.ltb_spec (Z.of_nat (List.length video_ids)) max_results)
      as [Lt|Ge];
     [|injection H as <- <- <-; exists []; rewrite app_nil_r;
       split; [reflexivity|]; split; [apply Forall_nil | simpl; lia]]).
  - discriminate.
  - set (r := SearchVideos channel_id
                (Z.min 50 (max_results - Z.of_nat (List.length video_ids)))
                token) in H.
    assert (Rok : search_request_ok channel_id max_results r)
      by (cbn; repeat split; lia).
    assert (One : forall t,
               requests_of t = requests_of (trace w) ->
               exists new,
                 requests_of (t ++ [Execute r])
                 = (requests_of (trace w) ++ new)%list /\
                 Forall (search_request_ok channel_id max_results) new /\
                 Z.of_nat (List.length new)
                   <= Z.max 0 (max_results - Z.of_nat (List.length video_ids))).
    { intros t T. exists [r]. rewrite requests_of_app, T.
      split; [reflexivity|].
      split; [apply Forall_cons; [exact Rok | apply Forall_nil] | simpl; lia]. }
    unfold execute in H.
    destruct (youtube self r (remote w)) as [[response|x] rs1].
    + destruct (has_items response) eqn:HI.
      * destruct (try! items <- py_getitem (PDict response) "items"; py_iter items)
          as [items|x] eqn:I.
        -- destruct (append_video_ids video_ids items) as [v2 [x|]] eqn:A.
           ++ injection H as <- <- <-. cbn [trace]. now apply One.
           ++ destruct (negb (truthy _)).
              ** injection H as <- <- <-. cbn [trace]. now apply One.
              ** apply IH in H. destruct H as (new & T & F & L).
                 cbn [trace] in T. rewrite requests_of_app in T.
                 exists (r :: new). rewrite T, <- app_assoc.
                 split; [reflexivity|]. split; [now constructor|].
                 pose proof (append_video_ids_length _ _ _ A) as Len.
                 pose proof (has_items_not_empty _ _ HI I) as NE.
                 destruct items; [congruence|]. cbn [List.length] in *. lia.
        -- injection H as <- <- <-. cbn [trace]. now apply One.
      * cbn [emit trace remote files clock] in H. injection H as <- <- <-.
        cbn [trace]. rewrite requests_of_app. cbn [requests_of flat_map].
        rewrite app_nil_r. now apply One.
    + injection H as <- <- <-. cbn [trace]. now apply One.
Qed.

(** X7. All that [get_channel_videos] sends is search requests for the
    channel it was given, each for at least 1 and at most 50 results and
    never for more than the target, and it sends at most as many requests
    as the target; it gives no result only when the bound on the loop is
    below the target. *)
Theorem search_requests_bounded (fuel : nat) (w : world W) :
  match get_channel_videos W self fuel channel_id max_results w with
  | Some (_, w') =>
      exists new,
        requests_of (trace w') = (requests_of (trace w) ++ new)%list /\
        Forall (search_request_ok channel_id max_results) new /\
        Z.of_nat (List.length new) <= Z.max 0 max_results
  | None => Z.of_nat fuel < max_results
  end.
Proof.
  unfold get_channel_videos.
  destruct (pages fuel [] PNone w) as [[[video_ids e] w']|] eqn:H.
  - destruct (collect_pages_requests _ _ _ _ _ _ _ H) as (new & T & F & L).
    cbn [List.length] in L. rewrite Z.sub_0_r in L.
    destruct e as [[msg| | | | | |]|]; cbn [emit trace];
      exists new; rewrite ?requests_of_app; cbn [requests_of flat_map];
      rewrite ?app_nil_r; auto.
  - destruct (Z.ltb_spec (Z.of_nat fuel) max_results); [assumption|].
    destruct (collect_pages_ends W self channel_id max_results fuel [] PNone w)
      as [x X]; [simpl; lia | congruence].
Qed.

(** X8. When a search result has no video id, [get_channel_videos] does
    not return the identifiers read before it: the exception of that
    result, which is not an API error, leaves the function. *)
Theorem malformed_search_item_raises (fuel : nat) (w : world W)
    (response : dict) (rs1 : W) (items : list pyval) :
  0 < max_results ->
  youtube self (SearchVideos channel_id (Z.min 50 max_results) PNone) (remote w)
    = (Ok response, rs1) ->
  dict_get response "items" = Some (PList items) ->
  Exists (fun item => exists e, video_id_of_item item = Raise e) items ->
  exists e,
    get_channel_videos W self (S fuel) channel_id max_results w
    = Some (Raise e,
            mkWorld rs1
              (trace w ++ [Execute (SearchVideos channel_id
                                      (Z.min 50 max_results) PNone)])
              (files w) (clock w)) /\
    forall msg, e <> HttpError msg.
Proof.
  intros N Y G Bad.
  destruct (append_video_ids_stops items Bad []) as (v & e & A).
  pose proof (append_video_ids_error _ _ _ _ A) as NH.
  exists e. split; [|exact NH].
  unfold get_channel_videos. cbn [collect_pages List.length].
  destruct (Z.ltb_spec (Z.of_nat 0) max_results); [|lia].
  rewrite Z.sub_0_r. unfold execute. rewrite Y.
  assert (HI : has_items response = true).
  { unfold has_items, dict_has, dict_get_default. rewrite G.
    destruct Bad; reflexivity. }
  rewrite HI. cbn [py_getitem]. rewrite G. cbn [rbind py_iter]. rewrite A.
  destruct e; try reflexivity. now destruct (NH msg).
Qed.

End CollectorMore.

Lemma malformed_search_item_raises_witness :
  exists e,
    get_channel_videos unit mixed_results_service 1 sample_channel 5
      (empty_world tt)
    = Some (Raise e,
            mkWorld tt
              (trace (empty_world tt)
               ++ [Execute (SearchVideos sample_channel (Z.min 50 5) PNone)])
              (files (empty_world tt)) (clock (empty_world tt))) /\
    forall msg, e <> HttpError msg.
Proof.
  apply (malformed_search_item_raises unit mixed_results_service sample_channel
           5 0 (empty_world tt)
           [("items", PList [search_item "v1"; channel_item])] tt
           [search_item "v1"; channel_item]).
  - lia.
  - reflexivity.
  - reflexivity.
  - apply Exists_cons_tl, Exists_cons_hd. exists KeyError. reflexivity.
Defined.

Lemma no_request_without_target_witness :
  get_channel_videos unit (paging_service 2 sample_videos) 0 sample_channel (-3)
    (empty_world tt)
  = Some (Ok [], empty_world tt).
Proof. apply no_request_without_target. lia. Defined.

Section ServedAnyChannel.

Variable W : Type.
Variable self : YouTubeExporter W.
Variable channel_id : pyval.
Variable max_results : Z.
Variable videos : list string.
Variable position : pyval -> option nat.
Hypothesis served : serves_channel self channel_id videos position.

(** From [k] videos collected, the loop ends normally with the first [k']
    videos, where [k'] reaches the target or the end of the channel. *)
Lemma collect_served_any (fuel : nat) :
  forall (k : nat) (token : pyval) (w : world W),
    position token = Some k ->
    (k <= List.length videos)%nat ->
    max_results - Z.of_nat k <= Z.of_nat fuel ->
    exists k' w',
      collect_pages W self channel_id max_results fuel
        (map PStr (firstn k videos)) token w
        = Some (map PStr (firstn k' videos), None, w') /\
      (max_results <= Z.of_nat k' \/ k' = List.length videos) /\
      (k' <= List.length videos)%nat.
Proof.
  destruct served as [_ Page].
  induction fuel as [|fuel IH]; intros k token w P K F;
    assert (Len : List.length (map PStr (firstn k videos)) = k)
      by (rewrite length_map, length_firstn; lia);
    cbn [collect_pages]; rewrite Len;
    (destruct (Z.ltb_spec (Z.of_nat k) max_results) as [Lt|Ge];
     [|exists k, w; repeat split; [lia | assumption]]).
  - lia.
  - destruct (Page (Z.min 50 (max_results - Z.of_nat k)) token k (remote w) P)
      as (response & rs' & p & Y & Pm & P1 & Listed & Next); [lia|].
    unfold execute. rewrite Y.
    destruct (Nat.eq_dec k (List.length videos)) as [End|More].
    + (* nothing is left: the page is empty *)
      assert (E : firstn p (skipn k videos) = [])
        by (rewrite End, skipn_all, firstn_nil; reflexivity).
      rewrite E in Listed. destruct Listed as (items & G & F2).
      inversion F2; subst items.
      assert (HI : has_items response = false).
      { unfold has_items, dict_has, dict_get_default. now rewrite G. }
      rewrite HI. cbn [emit]. exists k. eexists.
      split; [reflexivity|]. split; [now right | lia].
    + assert (P1' : (1 <= p)%nat) by (apply P1; lia).
      assert (NE : firstn p (skipn k videos) <> []).
      { intros E. apply (f_equal (@List.length _)) in E.
        rewrite length_firstn, length_skipn in E. simpl in E. lia. }
      destruct (lists_videos_items _ _ Listed NE) as (items & HI & I & F2).
      rewrite HI, I, (append_video_ids_listed _ _ _ F2).
      rewrite <- map_app, <- firstn_add.
      destruct (Nat.ltb_spec (k + p) (List.length videos)) as [Mo|Last].
      * destruct Next as (t & G & T & Pt).
        rewrite (default_present _ _ _ _ G), T. cbn [negb].
        apply IH; [assumption | lia | lia].
      * rewrite Next. cbn [negb].
        exists (List.length videos). eexists.
        split; [now rewrite !firstn_all2 by lia|]. split; [now right | lia].
Qed.

(** X9. When the service pages without error through the videos of the
    channel, [get_channel_videos] returns the newest [max_results] of
    them, in order, and all of them when the channel has fewer. *)
Theorem returns_newest_videos (fuel : nat) (w : world W) :
  0 <= max_results ->
  max_results <= Z.of_nat fuel ->
  exists w',
    get_channel_videos W self fuel channel_id max_results w
    = Some (Ok (map PStr (firstn (Z.to_nat max_results) videos)), w') /\
    List.length (firstn (Z.to_nat max_results) videos)
    = Nat.min (Z.to_nat max_results) (List.length videos).
Proof.
  intros N F.
  destruct (collect_served_any fuel 0%nat PNone w)
    as (k' & w' & H & K1 & K2); [apply served | lia | lia |].
  unfold get_channel_videos. cbn [firstn map] in H. rewrite H.
  exists w'. split; [|apply length_firstn].
  do 2 f_equal. unfold slice_to. destruct (Z.leb_spec 0 max_results); [|lia].
  rewrite firstn_map, firstn_firstn. f_equal.
  destruct K1 as [K1 | ->].
  - now replace (Nat.min (Z.to_nat max_results) k') with (Z.to_nat max_results)
      by lia.
  - destruct (Nat.le_ge_cases (Z.to_nat max_results) (List.length videos)).
    + now rewrite Nat.min_l.
    + rewrite Nat.min_r by assumption.
      now rewrite !firstn_all2 by lia.
Qed.

End ServedAnyChannel.

Lemma returns_newest_videos_witness :
  exists w',
    get_channel_videos unit (paging_service 2 sample_videos) 9 sample_channel 9
      (empty_world tt)
    = Some (Ok (map PStr (firstn (Z.to_nat 9) sample_videos)), w') /\
    List.length (firstn (Z.to_nat 9) sample_videos)
    = Nat.min (Z.to_nat 9) (List.length sample_videos).
Proof.
  apply (returns_newest_videos unit (paging_service 2 sample_videos)
           sample_channel 9 sample_videos token_position).
  - apply paging_service_serves. lia.
  - lia.
  - simpl. lia.
Defined.

(** ** More on the detail fetcher *)

Lemma range_step_one (n : nat) :
  (1 <= n <= 50)%nat -> range_step n 50 = [0%nat].
Proof.
  intros N. unfold range_step.
  replace ((n + 50 - 1) / 50)%nat with 1%nat; [reflexivity|].
  apply (Nat.div_unique (n + 50 - 1) 50 1 (n - 1)); lia.
Qed.

Section DetailsMore.

Variable repr_container : pyval -> string.
Variable W : Type.
Variable self : YouTubeExporter W.

Local Notation "'flatten'" := (_process_video_data repr_container).

Lemma flatten_all_stops (items : list pyval) :
  Exists (fun video => exists e, flatten video = Raise e) items ->
  exists e, flatten_all repr_container items = Raise e.
Proof.
  induction 1 as [video items [e E] | video items _ [e IH]];
    cbn [flatten_all].
  - rewrite E. cbn [rbind]. eauto.
  - destruct (flatten video); cbn [rbind]; [|eauto].
    rewrite IH. cbn [rbind]. eauto.
Qed.




(** X10. A list of at most 50 identifiers is one batch, and an empty list
    none: [get_video_details] then sends a single request that carries
    all the identifiers, or no request at all. *)
Theorem one_request_up_to_50 (video_ids : list string) (w : world W) :
  (List.length video_ids <= 50)%nat ->
  batches video_ids = match video_ids with [] => [] | _ => [video_ids] end /\
  requests_of
    (trace (snd (get_video_details repr_container W self video_ids w)))
  = (requests_of (trace w) ++ map details_request (batches video_ids))%list.
Proof.
  intros L.
  destruct video_ids as [|id ids].
  - split; [reflexivity|]. cbn. now rewrite app_nil_r.
  - assert (R : range_step (List.length (id :: ids)) 50 = [0%nat])
      by (apply range_step_one; cbn [List.length] in *; lia).
    assert (B : batches (id :: ids) = [id :: ids]).
    { unfold batches. rewrite R. cbn [map]. unfold slice.
      cbn [skipn]. f_equal. apply firstn_all2. lia. }
    split; [exact B|].
    unfold get_video_details. rewrite R. cbn [for_batches]. unfold bind.
    pose proof (details_batch_spec repr_container W self (id :: ids) [] 0 w)
      as D.
    cbv zeta in D.
    destruct (youtube self _ (remote w)) as [answer rs'].
    destruct D as (w1 & D & _ & T). rewrite D.
    rewrite B. cbn [map].
    replace (slice 0 (0 + 50) (id :: ids)) with (id :: ids) in T
      by (unfold slice; cbn [skipn]; symmetry; apply firstn_all2; lia).
    destruct (rbind _ _); cbn [snd ret]; exact T.
Qed.

(** X11. When an item of a response cannot be flattened, the exception of
    the flattening leaves [get_video_details] at that batch: the records
    collected so far are not returned and the batches after it are not
    requested. *)
Theorem flatten_failure_aborts (video_ids : list string)
    (videos_data : list dict) (i : nat) (starts : list nat) (w : world W)
    (response : dict) (rs1 : W) (items : list pyval) :
  youtube self (details_request (slice i (i + 50) video_ids)) (remote w)
    = (Ok response, rs1) ->
  dict_get response "items" = Some (PList items) ->
  Exists (fun video => exists e, flatten video = Raise e) items ->
  exists e w',
    for_batches repr_container W self video_ids (i :: starts) videos_data w
    = (Raise e, w') /\
    (forall msg, e <> HttpError msg) /\
    requests_of (trace w')
    = (requests_of (trace w)
       ++ [details_request (slice i (i + 50) video_ids)])%list.
Proof.
  intros Y G Bad.
  destruct (flatten_all_stops items Bad) as [e E].
  pose proof (not_http_flatten_all repr_container items) as NH.
  rewrite E in NH.
  pose proof (details_batch_spec repr_container W self video_ids videos_data i w)
    as D.
  cbv zeta in D. rewrite Y in D. destruct D as (w1 & D & _ & T).
  assert (B : batch_records repr_container (Ok response) = Raise e).
  { cbn [batch_records].
    assert (HI : has_items response = true).
    { unfold has_items, dict_has, dict_get_default. rewrite G.
      destruct Bad; reflexivity. }
    rewrite HI. cbn [py_getitem]. rewrite G. cbn [rbind py_iter]. exact E. }
  rewrite B in D. cbn [rbind] in D.
  exists e, w1. cbn [for_batches]. unfold bind. rewrite D.
  repeat split; [|exact T]. intros msg X. apply (NH msg). now rewrite X.
Qed.


End DetailsMore.

Lemma one_request_up_to_50_witness :
  batches ["a"; "b"; "c"] = [["a"; "b"; "c"]] /\
  requests_of
    (trace (snd (get_video_details (fun _ => "") unit single_video_service
                   ["a"; "b"; "c"] (empty_world tt))))
  = (requests_of (trace (empty_world tt))
     ++ map details_request (batches ["a"; "b"; "c"]))%list.
Proof.
  apply (one_request_up_to_50 (fun _ => "") unit single_video_service
           ["a"; "b"; "c"] (empty_world tt)).
  simpl. lia.
Defined.

Lemma flatten_failure_aborts_witness :
  exists e w',
    for_batches (fun _ => "") unit
      (mkExporter "key"
         (fun _ rs => (Ok [("items", PList [PDict sample_video;
                                            PDict video_without_title])], rs)))
      ["a"; "b"] [0%nat; 50%nat] [sample_record] (empty_world tt)
    = (Raise e, w') /\
    (forall msg, e <> HttpError msg) /\
    requests_of (trace w')
    = (requests_of (trace (empty_world tt))
       ++ [details_request (slice 0 (0 + 50) ["a"; "b"])])%list.
Proof.
  apply (flatten_failure_aborts (fun _ => "") unit _ ["a"; "b"] [sample_record]
           0 [50%nat] (empty_world tt)
           [("items", PList [PDict sample_video; PDict video_without_title])]
           tt [PDict sample_video; PDict video_without_title]).
  - reflexivity.
  - reflexivity.
  - apply Exists_cons_tl, Exists_cons_hd. exists KeyError. reflexivity.
Defined.


(** ** More on the resolver and the entry points *)

Lemma lstrip_shape (c : ascii) (s : string) :
  exists n : nat,
    s = String.concat "" (repeat (String c "") n) ++ str_lstrip c s /\
    String.prefix (String c "") (str_lstrip c s) = false.
Proof.
  induction s as [|c' s IH].
  - exists 0%nat. split; reflexivity.
  - cbn [str_lstrip]. destruct (Ascii.eqb c' c) eqn:E.
    + apply Ascii.eqb_eq in E. subst c'.
      destruct IH as (n & Eq & P). exists (S n). split; [|exact P].
      destruct n as [|n]; cbn [repeat String.concat append] in *;
        now rewrite <- Eq.
    + exists 0%nat. split; [reflexivity|].
      rewrite prefix_cons, (Ascii.eqb_sym c c'), E. reflexivity.
Qed.

Section ResolverMore.

Variable W : Type.
Variable exporter : YouTubeExporter W.

Local Notation "'resolver'" := (get_channel_id_from_username W exporter).

(** The result of the resolver when neither lookup finds anything. *)
Lemma resolver_finds_nothing (username : string) (w : world W)
    (r1 r2 : dict) (rs1 rs2 : W) :
  youtube exporter (ChannelsByUsername (str_lstrip "@" username)) (remote w)
    = (Ok r1, rs1) ->
  has_items r1 = false ->
  youtube exporter (SearchChannel (str_lstrip "@" username)) rs1 = (Ok r2, rs2) ->
  has_items r2 = false ->
  resolver username w
  = (Ok PNone,
     logged (mkWorld rs2 (trace w) (files w) (clock w))
       [ Execute (ChannelsByUsername (str_lstrip "@" username));
         Execute (SearchChannel (str_lstrip "@" username)) ]).
Proof.
  intros Y1 H1 Y2 H2.
  unfold get_channel_id_from_username, bind, except_HttpError, execute.
  rewrite Y1, H1. cbn [remote]. rewrite Y2, H2.
  unfold ret, logged. cbn [trace remote files clock].
  now rewrite <- app_assoc.
Qed.

(** X13. The resolver never lets an API error out: when the first lookup
    fails with one, or the first finds nothing and the second fails, it
    reports the error and returns [None]. *)
Theorem resolver_catches_api_errors (username : string) (w : world W) :
  not_http (fst (resolver username w))
  /\
  (forall msg rs1,
     youtube exporter (ChannelsByUsername (str_lstrip "@" username)) (remote w)
       = (Raise (HttpError msg), rs1) ->
     resolver username w
     = (Ok PNone,
        logged (mkWorld rs1 (trace w) (files w) (clock w))
          [ Execute (ChannelsByUsername (str_lstrip "@" username));
            StError (ErrorFindingChannel (HttpError msg)) ]))
  /\
  (forall r1 rs1 msg rs2,
     youtube exporter (ChannelsByUsername (str_lstrip "@" username)) (remote w)
       = (Ok r1, rs1) ->
     has_items r1 = false ->
     youtube exporter (SearchChannel (str_lstrip "@" username)) rs1
       = (Raise (HttpError msg), rs2) ->
     resolver username w
     = (Ok PNone,
        logged (mkWorld rs2 (trace w) (files w) (clock w))
          [ Execute (ChannelsByUsername (str_lstrip "@" username));
            Execute (SearchChannel (str_lstrip "@" username));
            StError (ErrorFindingChannel (HttpError msg)) ])).
Proof.
  split; [|split].
  - intros msg.
    unfold get_channel_id_from_username, bind, except_HttpError, execute.
    destruct (youtube exporter (ChannelsByUsername _) (remote w))
      as [[response|e] rs1].
    + destruct (has_items response).
      * unfold lift.
        destruct (try! items <- py_getitem (PDict response) "items";
                  try! first <- py_getitem0 items; py_getitem first "id")
          as [v|e]; [|destruct e]; cbn; discriminate.
      * cbn [remote].
        destruct (youtube exporter (SearchChannel _) rs1) as [[response2|e] rs2].
        -- destruct (has_items response2).
           ++ unfold lift.
              destruct (try! items <- py_getitem (PDict response2) "items";
                        try! first <- py_getitem0 items;
                        try! snippet <- py_getitem first "snippet";
                        py_getitem snippet "channelId")
                as [v|e]; [|destruct e]; cbn; discriminate.
           ++ cbn. discriminate.
        -- destruct e; cbn; discriminate.
    + destruct e; cbn; discriminate.
  - intros msg rs1 Y.
    unfold get_channel_id_from_username, bind, except_HttpError, execute.
    rewrite Y. unfold emit, ret, logged. cbn [trace remote files clock].
    now rewrite <- app_assoc.
  - intros r1 rs1 msg rs2 Y1 H1 Y2.
    unfold get_channel_id_from_username, bind, except_HttpError, execute.
    rewrite Y1, H1. cbn [remote]. rewrite Y2.
    unfold emit, ret, logged. cbn [trace remote files clock].
    now rewrite <- !app_assoc.
Qed.

(** X14. The resolver looks the name up with every leading [@] removed,
    so the name it sends never starts with one.  It searches only when
    the lookup by user name was answered without a channel, and sends
    nothing beyond these two requests. *)
Theorem resolver_requests (username : string) (w : world W) :
  let name := str_lstrip "@" username in
  (exists n : nat,
     username = String.concat "" (repeat "@" n) ++ name /\
     String.prefix "@" name = false)
  /\
  exists new,
    requests_of (trace (snd (resolver username w)))
    = (requests_of (trace w) ++ new)%list /\
    match fst (youtube exporter (ChannelsByUsername name) (remote w)) with
    | Ok r1 =>
        if has_items r1
        then new = [ChannelsByUsername name]
        else new = [ChannelsByUsername name; SearchChannel name]
    | Raise _ => new = [ChannelsByUsername name]
    end.
Proof.
  cbv zeta. split; [apply lstrip_shape|].
  unfold get_channel_id_from_username, bind, except_HttpError, execute.
  destruct (youtube exporter (ChannelsByUsername _) (remote w))
    as [[response|e] rs1]; cbn [fst].
  - destruct (has_items response).
    + unfold lift.
      destruct (try! items <- py_getitem (PDict response) "items";
                try! first <- py_getitem0 items; py_getitem first "id")
        as [v|e]; [|destruct e];
        (eexists; split; [|reflexivity]);
        cbn -[requests_of]; rewrite ?requests_of_app;
        cbn [requests_of flat_map Datatypes.app];
        rewrite <- ?app_assoc; reflexivity.
    + cbn [remote].
      destruct (youtube exporter (SearchChannel _) rs1) as [[response2|e] rs2].
      * destruct (has_items response2).
        -- unfold lift.
           destruct (try! items <- py_getitem (PDict response2) "items";
                     try! first <- py_getitem0 items;
                     try! snippet <- py_getitem first "snippet";
                     py_getitem snippet "channelId")
             as [v|e]; [|destruct e];
             (eexists; split; [|reflexivity]);
             cbn -[requests_of]; rewrite ?requests_of_app;
             cbn [requests_of flat_map Datatypes.app];
             rewrite <- ?app_assoc; reflexivity.
        -- (eexists; split; [|reflexivity]);
             cbn -[requests_of]; rewrite ?requests_of_app;
             cbn [requests_of flat_map Datatypes.app];
             rewrite <- ?app_assoc; reflexivity.
      * destruct e;
          (eexists; split; [|reflexivity]);
          cbn -[requests_of]; rewrite ?requests_of_app;
          cbn [requests_of flat_map Datatypes.app];
          rewrite <- ?app_assoc; reflexivity.
  - destruct e;
      (eexists; split; [|reflexivity]);
      cbn -[requests_of]; rewrite ?requests_of_app;
      cbn [requests_of flat_map Datatypes.app];
      rewrite <- ?app_assoc; reflexivity.
Qed.

End ResolverMore.

Lemma resolver_catches_api_errors_witness :
  get_channel_id_from_username nat (quota_service 2 sample_videos 0)
    "@samplechannel" (empty_world 0%nat)
  = (Ok PNone,
     logged (mkWorld 0%nat [] [] "20240101_120000")
       [ Execute (ChannelsByUsername "samplechannel");
         StError (ErrorFindingChannel (HttpError "quotaExceeded")) ])
  /\
  get_channel_id_from_username nat (quota_service 2 sample_videos 1)
    "@samplechannel" (empty_world 0%nat)
  = (Ok PNone,
     logged (mkWorld 1%nat [] [] "20240101_120000")
       [ Execute (ChannelsByUsername "samplechannel");
         Execute (SearchChannel "samplechannel");
         StError (ErrorFindingChannel (HttpError "quotaExceeded")) ]).
Proof.
  split.
  - apply (proj1 (proj2 (resolver_catches_api_errors nat
                           (quota_service 2 sample_videos 0)
                           "@samplechannel" (empty_world 0%nat)))
             "quotaExceeded" 0%nat).
    reflexivity.
  - apply (proj2 (proj2 (resolver_catches_api_errors nat
                           (quota_service 2 sample_videos 1)
                           "@samplechannel" (empty_world 0%nat)))
             [] 1%nat "quotaExceeded" 1%nat);
      reflexivity.
Defined.

Section EntryPointsMore.

Variable W : Type.
Variable exporter : YouTubeExporter W.

Local Notation "'resolver'" := (get_channel_id_from_username W exporter).

(** X15. Neither entry point goes on without a channel: the channel id it
    proceeds with is never [None], empty or otherwise false. *)
Theorem proceeds_with_a_channel (channel : string) (w w' : world W)
    (channel_id : pyval) :
  run_find_channel W exporter channel w = (Ok (Proceed channel_id), w') \/
  dashboard_find_channel W exporter channel w = (Ok (Proceed channel_id), w') ->
  truthy channel_id = true.
Proof.
  intros [H | H].
  - unfold run_find_channel, bind in H. cbn [emit] in H.
    destruct (is_channel_id channel) eqn:Id.
    + cbn [ret] in H. pose proof (is_channel_id_truthy _ Id) as T.
      rewrite T in H. cbn [negb ret] in H. now injection H as <- _.
    + destruct (resolver channel _) as [[cid|e] w1]; [|discriminate].
      destruct (truthy cid) eqn:T; cbn [negb emit ret] in H;
        [now injection H as <- _ | discriminate].
  - unfold dashboard_find_channel in H.
    destruct (truthy (PStr channel)) eqn:T0; cbn [negb] in H;
      [|unfold bind in H; cbn [emit ret] in H; discriminate].
    unfold bind in H. cbn [emit] in H.
    destruct (is_channel_id channel) eqn:Id.
    + cbn [ret] in H. rewrite T0 in H. cbn [negb ret emit] in H.
      now injection H as <- _.
    + destruct (resolver channel _) as [[cid|e] w1]; [|discriminate].
      destruct (truthy cid) eqn:T; cbn [negb emit ret] in H;
        [now injection H as <- _ | discriminate].
Qed.

(** X16. When the argument is not a channel id and neither lookup of the
    resolver finds a channel, both entry points stop: the command line
    prints that the channel was not found, the dashboard shows the error
    and the advice to use the full channel id. *)
Theorem channel_not_found (channel : string) (w : world W)
    (r1 r2 : dict) (rs1 rs2 : W) :
  is_channel_id channel = false ->
  youtube exporter (ChannelsByUsername (str_lstrip "@" channel)) (remote w)
    = (Ok r1, rs1) ->
  has_items r1 = false ->
  youtube exporter (SearchChannel (str_lstrip "@" channel)) rs1 = (Ok r2, rs2) ->
  has_items r2 = false ->
  run_find_channel W exporter channel w
  = (Ok Finished,
     logged (mkWorld rs2 (trace w) (files w) (clock w))
       [ Print FindingChannel;
         Execute (ChannelsByUsername (str_lstrip "@" channel));
         Execute (SearchChannel (str_lstrip "@" channel));
         Print ChannelNotFound ])
  /\
  (channel <> "" ->
   dashboard_find_channel W exporter channel w
   = (Ok Finished,
      logged (mkWorld rs2 (trace w) (files w) (clock w))
        [ StProgress 0; StStatus FindingChannel; StProgress 10;
          StInfo (SearchingForChannel channel);
          Execute (ChannelsByUsername (str_lstrip "@" channel));
          Execute (SearchChannel (str_lstrip "@" channel));
          StError ChannelNotFound; StInfo TryFullChannelId ])).
Proof.
  intros NotId Y1 H1 Y2 H2. split.
  - unfold run_find_channel. rewrite NotId. unfold bind at 1 2.
    cbn [emit].
    rewrite (resolver_finds_nothing W exporter channel _ r1 r2 rs1 rs2)
      by assumption.
    cbn [truthy negb]. unfold bind, emit, ret, logged.
    cbn [trace remote files clock].
    repeat (rewrite <- app_assoc; cbn [Datatypes.app]). reflexivity.
  - intros NE.
    assert (T : truthy (PStr channel) = true)
      by (destruct channel; [congruence | reflexivity]).
    unfold dashboard_find_channel. rewrite NotId, T. cbn [negb].
    unfold bind at 1 2 3 4 5. cbn [emit trace remote files clock].
    rewrite (resolver_finds_nothing W exporter channel _ r1 r2 rs1 rs2)
      by assumption.
    cbn [truthy negb]. unfold bind, emit, ret, logged.
    cbn [trace remote files clock].
    repeat (rewrite <- app_assoc; cbn [Datatypes.app]). reflexivity.
Qed.

End EntryPointsMore.

Lemma proceeds_with_a_channel_witness :
  truthy (PStr "UCuAXFkgsw1L7xaCfnd5JJOw") = true.
Proof.
  apply (proceeds_with_a_channel unit no_channel_service
           "UCuAXFkgsw1L7xaCfnd5JJOw" (empty_world tt)
           (logged (empty_world tt) [Print FindingChannel])).
  left. reflexivity.
Defined.

Lemma channel_not_found_witness :
  run_find_channel unit no_channel_service "@samplechannel" (empty_world tt)
  = (Ok Finished,
     logged (mkWorld tt [] [] "20240101_120000")
       [ Print FindingChannel;
         Execute (ChannelsByUsername "samplechannel");
         Execute (SearchChannel "samplechannel");
         Print ChannelNotFound ])
  /\
  dashboard_find_channel unit no_channel_service "@samplechannel"
    (empty_world tt)
  = (Ok Finished,
     logged (mkWorld tt [] [] "20240101_120000")
       [ StProgress 0; StStatus FindingChannel; StProgress 10;
         StInfo (SearchingForChannel "@samplechannel");
         Execute (ChannelsByUsername "samplechannel");
         Execute (SearchChannel "samplechannel");
         StError ChannelNotFound; StInfo TryFullChannelId ]).
Proof.
  destruct (channel_not_found unit no_channel_service "@samplechannel"
              (empty_world tt) [] [] tt tt) as [Run Dash];
    try reflexivity.
  split; [exact Run | apply Dash; discriminate].
Defined.

(** ** More on the export *)

Lemma dict_to_list_rejects (rowdict : dict) (k : string) :
  In k (map fst rowdict) ->
  existsb (String.eqb k) fieldnames = false ->
  dict_to_list rowdict = Raise ValueError.
Proof.
  intros I E. unfold dict_to_list.
  assert (F : In k (filter (fun k => negb (existsb (String.eqb k) fieldnames))
                      (map fst rowdict)))
    by (apply filter_In; split; [assumption | now rewrite E]).
  destruct (filter _ _); [destruct F | reflexivity].
Qed.

Lemma filter_none_forallb {A} (p : A -> bool) (l : list A) :
  filter (fun a => negb (p a)) l = [] -> forallb p l = true.
Proof.
  induction l as [|a l IH]; [reflexivity|].
  cbn [filter forallb]. destruct (p a); cbn [negb andb]; [exact IH|].
  discriminate.
Qed.

Lemma dict_to_list_accepts (rowdict : dict) (values : list pyval) :
  dict_to_list rowdict = Ok values -> no_extra_fields rowdict.
Proof.
  unfold dict_to_list. intros H.
  apply no_extra_fields_check, filter_none_forallb.
  now destruct (filter _ _).
Qed.

Section ExportMore.

Variable repr_container : pyval -> string.
Variable W : Type.

Lemma writerows_app (good rest : list dict) :
  Forall no_extra_fields good ->
  forall written,
    writerows repr_container (good ++ rest) written
    = writerows repr_container rest
        (written ++ rows_text repr_container good).
Proof.
  induction 1 as [|rowdict good N _ IH]; intros written.
  - cbn. now rewrite str_app_nil_r.
  - cbn [Datatypes.app writerows rows_text].
    destruct (dict_to_list_cells repr_container rowdict N) as (values & D & C).
    rewrite D, C, IH. now rewrite str_app_assoc.
Qed.

(** X17. A record with a field that is not a column of the file makes
    [export_to_csv] raise [ValueError]; the file is written all the same,
    with the header and the rows of the records before that one. *)
Theorem extra_field_rejected (good rest : list dict) (bad : dict)
    (k : string) (filename : option string) (w : world W) :
  Forall no_extra_fields good ->
  In k (map fst bad) ->
  existsb (String.eqb k) fieldnames = false ->
  exists name,
    export_to_csv repr_container W (good ++ bad :: rest) filename w
    = (Raise ValueError,
       mkWorld (remote w) (trace w)
         ((name, csv_writerow fieldnames ++ rows_text repr_container good)
          :: files w)
         (clock w)).
Proof.
  intros G I E. unfold export_to_csv.
  rewrite (writerows_app good (bad :: rest) G).
  cbn [writerows]. rewrite (dict_to_list_rejects bad k I E).
  eexists. reflexivity.
Qed.

Lemma writerows_done (videos_data : list dict) :
  forall written text,
    writerows repr_container videos_data written = (text, None) ->
    Forall no_extra_fields videos_data /\
    text = written ++ rows_text repr_container videos_data.
Proof.
  induction videos_data as [|rowdict rest IH]; intros written text H;
    cbn [writerows] in H.
  - injection H as <-. split; [apply Forall_nil|].
    cbn [rows_text]. now rewrite str_app_nil_r.
  - destruct (dict_to_list rowdict) as [values|e] eqn:D; [|discriminate H].
    pose proof (dict_to_list_accepts rowdict values D) as N.
    destruct (dict_to_list_cells repr_container rowdict N) as (values' & D' & C).
    rewrite D in D'. injection D' as <-. rewrite C in H.
    apply IH in H as [Rest ->].
    split; [now apply Forall_cons|].
    cbn [rows_text]. now rewrite str_app_assoc.
Qed.

(** X18. [export_to_csv] sends no request and leaves every file but its
    own as it was; its own is the file named by the argument, or by the
    clock when the argument is absent or empty.  When it returns, it
    returns that name, no record had a field outside the columns, and
    the file holds the header followed by the rows of all the records,
    whatever it held before. *)
Theorem export_touches_one_file (videos_data : list dict)
    (filename : option string) (w : world W) :
  let name := match filename with
              | Some (String c f) => String c f
              | _ => "youtube_export_" ++ clock w ++ ".csv"
              end in
  let '(r, w') := export_to_csv repr_container W videos_data filename w in
  remote w' = remote w /\
  trace w' = trace w /\
  (forall other, other <> name ->
     read_file (files w') other = read_file (files w) other) /\
  (forall returned, r = Ok returned ->
     returned = name /\
     Forall no_extra_fields videos_data /\
     read_file (files w') name
     = Some (csv_writerow fieldnames
             ++ rows_text repr_container videos_data)).
Proof.
  cbv zeta. unfold export_to_csv.
  assert (Name : match filename with
                 | Some f => if negb (truthy (PStr f))
                             then "youtube_export_" ++ clock w ++ ".csv" else f
                 | None => "youtube_export_" ++ clock w ++ ".csv"
                 end
                 = match filename with
                   | Some (String c f) => String c f
                   | _ => "youtube_export_" ++ clock w ++ ".csv"
                   end)
    by (destruct filename as [[|c f]|]; reflexivity).
  rewrite Name. clear Name.
  set (name := match filename with
               | Some (String c f) => String c f
               | _ => "youtube_export_" ++ clock w ++ ".csv"
               end).
  assert (Others : forall text other, other <> name ->
            read_file ((name, text) :: files w) other
            = read_file (files w) other).
  { intros text other N. cbn [read_file].
    destruct (String.eqb_spec name other); [congruence | reflexivity]. }
  destruct (writerows repr_container videos_data _) as [text [e|]] eqn:Wr;
    cbn.
  - split; [reflexivity|]. split; [reflexivity|].
    split; [apply Others | discriminate].
  - split; [reflexivity|]. split; [reflexivity|].
    split; [apply Others|].
    intros returned E. injection E as <-.
    apply writerows_done in Wr as [N ->].
    split; [reflexivity|]. split; [exact N|].
    now rewrite String.eqb_refl.
Qed.

Lemma rows_text_injective (a b : list dict) :
  rows_text repr_container a = rows_text repr_container b ->
  map (record_cells repr_container) a = map (record_cells repr_container) b /\
  List.length a = List.length b.
Proof.
  intros E.
  pose proof (read_rows_text repr_container a) as Ra.
  pose proof (read_rows_text repr_container b) as Rb.
  rewrite E in Ra. rewrite Ra in Rb. injection Rb as Eq.
  split; [exact Eq|].
  apply (f_equal (@List.length _)) in Eq. now rewrite !length_map in Eq.
Qed.

(** X19. The file determines the text of the records: two lists of
    records, none with a field outside the columns, that leave the same
    files behind when exported under the same name have the same number
    of records and, record by record, the same text in every field. *)
Theorem same_file_same_rows (a b : list dict) (filename : option string)
    (w : world W) :
  Forall no_extra_fields a ->
  Forall no_extra_fields b ->
  files (snd (export_to_csv repr_container W a filename w))
  = files (snd (export_to_csv repr_container W b filename w)) ->
  map (record_cells repr_container) a = map (record_cells repr_container) b /\
  List.length a = List.length b.
Proof.
  intros Na Nb. unfold export_to_csv.
  rewrite (writerows_text repr_container a Na).
  rewrite (writerows_text repr_container b Nb).
  cbn. intros E. injection E as E.
  apply rows_text_injective. exact E.
Qed.

End ExportMore.

Lemma extra_field_rejected_witness :
  exists name,
    export_to_csv (fun _ => "") unit
      ([sample_record] ++ (("channel_name", PStr "mkbhd") :: sample_record)
                       :: [awkward_record])
      (Some "multi_channel_comparison.csv") (empty_world tt)
    = (Raise ValueError,
       mkWorld (remote (empty_world tt)) (trace (empty_world tt))
         ((name, csv_writerow fieldnames
                 ++ rows_text (fun _ => "") [sample_record])
          :: files (empty_world tt))
         (clock (empty_world tt))).
Proof.
  apply (extra_field_rejected (fun _ => "") unit [sample_record]
           [awkward_record] (("channel_name", PStr "mkbhd") :: sample_record)
           "channel_name").
  - apply Forall_cons; [apply no_extra_fields_check; reflexivity|].
    apply Forall_nil.
  - left. reflexivity.
  - reflexivity.
Defined.

Lemma same_file_same_rows_witness :
  map (record_cells (fun _ => ""))
      [[("title", PStr "7"); ("like_count", PNone)]]
  = map (record_cells (fun _ => "")) [[("title", PInt 7)]] /\
  List.length [[("title", PStr "7"); ("like_count", PNone)]]
  = List.length [[("title", PInt 7)]].
Proof.
  apply (same_file_same_rows (fun _ => "") unit
           [[("title", PStr "7"); ("like_count", PNone)]]
           [[("title", PInt 7)]]
           (Some "videos.csv") (empty_world tt)).
  - apply Forall_cons; [apply no_extra_fields_check; reflexivity|].
    apply Forall_nil.
  - apply Forall_cons; [apply no_extra_fields_check; reflexivity|].
    apply Forall_nil.
  - reflexivity.
Defined.

Lemma export_touches_one_file_witness :
  Forall no_extra_fields [sample_record; awkward_record] /\
  read_file
    (files (snd (export_to_csv (fun _ => "") unit
                   [sample_record; awkward_record] (Some "")
                   (mkWorld tt [] [("youtube_export_20240101_120000.csv", "old");
                                   ("notes.txt", "kept")]
                      "20240101_120000"))))
    "youtube_export_20240101_120000.csv"
  = Some (csv_writerow fieldnames
          ++ rows_text (fun _ => "") [sample_record; awkward_record]).
Proof.
  pose proof (export_touches_one_file (fun _ => "") unit
                [sample_record; awkward_record] (Some "")
                (mkWorld tt [] [("youtube_export_20240101_120000.csv", "old");
                                ("notes.txt", "kept")]
                   "20240101_120000")) as H.
  cbv zeta in H.
  destruct (export_to_csv _ _ _ _ _) as [r w'] eqn:E.
  destruct H as (_ & _ & _ & H).
  assert (R : r = Ok "youtube_export_20240101_120000.csv")
    by (apply (f_equal fst) in E; cbn [fst] in E; now rewrite <- E).
  destruct (H _ R) as (_ & N & F).
  split; [exact N | exact F].
Defined.
